(** * PID converter: decoder, orientation transform and BMP/TGA/PNG encoders

    A shallow embedding of [pid_convert.cpp], [pid_convert.h] and of the
    stream wrapper of [delphiTStreamWrapper.h], with the properties of the
    conversion pipeline proved about it. *)

From Stdlib Require Import ZArith List Lia String Ascii Bool.
From stdpp Require Import base list list_numbers.

Import ListNotations.
Local Open Scope Z_scope.

(** ** The platform

    [delphiTStreamWrapper.h] calls the host through MSVC inline assembly
    ([__declspec(naked)], [mov eax, [esp + 4]], [ret 16]) for the Delphi
    register ABI of Win32/x86; the plugin builds for that target only.  There
    [int] and [unsigned int] are 32 bits wide, [std::size_t] is 32 bits wide
    and memory is little endian. *)
Module Platform.

Definition size_bits : Z := 32.
Definition SIZE_MAX : Z := 2 ^ size_bits - 1.
Definition INT_MAX : Z := 2 ^ 31 - 1.
Definition INT_MIN : Z := - 2 ^ 31.

(** [static_cast<std::size_t>(v)], and the result of unsigned arithmetic. *)
Definition to_size_t (v : Z) : Z := v mod 2 ^ size_bits.
Definition to_u32 (v : Z) : Z := v mod 2 ^ 32.
Definition to_u16 (v : Z) : Z := v mod 2 ^ 16.
Definition to_u8 (v : Z) : Z := v mod 2 ^ 8.

(** The value of a 32-bit pattern read as [int]. *)
Definition to_int (v : Z) : Z :=
  let u := to_u32 v in if u <? 2 ^ 31 then u else u - 2 ^ 32.

Definition int_ok (v : Z) : bool := (INT_MIN <=? v) && (v <=? INT_MAX).

(** The bytes an [unsigned int] / [unsigned short] occupies in memory. *)
Definition mem_u32 (v : Z) : list Z :=
  [Z.land v 255; Z.land (Z.shiftr v 8) 255;
   Z.land (Z.shiftr v 16) 255; Z.land (Z.shiftr v 24) 255].

(** An [int] loaded from four bytes of memory. *)
Definition load_int (b0 b1 b2 b3 : Z) : Z :=
  to_int (b0 + Z.shiftl b1 8 + Z.shiftl b2 16 + Z.shiftl b3 24).

(** [_byteswap_ulong] *)
Definition _byteswap_ulong (v : Z) : Z :=
  Z.lor (Z.lor (Z.shiftl (Z.land v 255) 24)
               (Z.shiftl (Z.land (Z.shiftr v 8) 255) 16))
        (Z.lor (Z.shiftl (Z.land (Z.shiftr v 16) 255) 8)
               (Z.land (Z.shiftr v 24) 255)).

(** [~v] on an [unsigned int]. *)
Definition not32 (v : Z) : Z := Z.lxor v 4294967295.

End Platform.
Import Platform.

(** ** Outcomes of running a piece of the program

    [Done a]: control reaches the end of the piece with value [a];
    [Ret c]: the enclosing C++ function executed [return c];
    [UB]: the piece indexes a vector outside its bounds or overflows an [int];
    [Fuel]: a loop of the model was not given enough iterations. *)
Inductive exec (A : Type) : Type :=
| Done (a : A)
| Ret (code : Z)
| UB
| Fuel.
Arguments Done {A} a.
Arguments Ret {A} code.
Arguments UB {A}.
Arguments Fuel {A}.

Definition ebind {A B} (m : exec A) (k : A -> exec B) : exec B :=
  match m with
  | Done a => k a
  | Ret c => Ret c
  | UB => UB
  | Fuel => Fuel
  end.

Declare Scope exec_scope.
Delimit Scope exec_scope with exec.
Notation "'let*' x ':=' m 'in' k" := (ebind m (fun x => k))
  (at level 10, x pattern, m at level 100, k at level 200) : exec_scope.

(** [v[i]] and [v[i] = x] on a [std::vector] or an array: no bounds check in
    the source, so an index outside the vector is undefined behaviour. *)
Definition vec_at {A} (v : list A) (i : Z) : exec A :=
  if (0 <=? i) then
    match v !! Z.to_nat i with
    | Some x => Done x
    | None => UB
    end
  else UB.

Definition vec_set {A} (v : list A) (i : Z) (x : A) : exec (list A) :=
  if (0 <=? i) && (i <? Z.of_nat (length v))
  then Done (<[Z.to_nat i := x]> v)
  else UB.

(** The value of an [int] expression; signed overflow is undefined. *)
Definition int_val (v : Z) : exec Z :=
  if int_ok v then Done v else UB.

(** [for (i in l) v = body(i, v)] with an early exit on anything but [Done]. *)
Fixpoint foldM {V} (body : Z -> V -> exec V) (l : list Z) (v : V) : exec V :=
  match l with
  | [] => Done v
  | i :: l' => ebind (body i v) (foldM body l')
  end.

(** ** The host stream

    The host (Dragon UnPACKer 5) hands the plugin Delphi [TStream] objects;
    their code is not part of this repository.  The stream is modelled as the
    byte-addressable object the wrapper assumes: a content, a cursor, [Read]
    that copies what is left up to [Count], [Seek] that returns the new
    cursor, and [Write] whose reported count is up to the host:
    [host_accepts k n] is what the host's [k]-th [Write] reports when asked
    for [n] bytes (a negative report is an error).  [write_log] records, for
    every [Write] so far, the count asked for and the count reported. *)
Inductive TSeekOrigin := soFromBeginning | soFromCurrent | soFromEnd.

Record TStream := mkStream {
  content : list Z;
  position : Z;
  write_log : list (Z * Z);
  host_accepts : nat -> Z -> Z;
  host_seek_faulty : bool
}.

Definition stream_size (s : TStream) : Z := Z.of_nat (length (content s)).

(** Bytes between the cursor and the end of the stream. *)
Definition remaining (s : TStream) : list Z :=
  drop (Z.to_nat (position s)) (content s).

Definition set_position (s : TStream) (p : Z) : TStream :=
  {| content := content s; position := p; write_log := write_log s;
     host_accepts := host_accepts s; host_seek_faulty := host_seek_faulty s |}.

Module Host.

(** [TStream.Read(Buffer, Count)]: the bytes copied and the new stream;
    the reported count is the number of bytes copied. *)
Definition Read (s : TStream) (count : Z) : list Z * TStream :=
  if (0 <=? position s) && (0 <=? count) then
    let avail := stream_size s - position s in
    if 0 <? avail then
      let n := Z.min avail count in
      (take (Z.to_nat n) (remaining s), set_position s (position s + n))
    else ([], s)
  else ([], s).

(** [TStream.Seek(Offset, Origin)]: the reported position and the stream. *)
Definition Seek (s : TStream) (offset : Z) (origin : TSeekOrigin)
  : Z * TStream :=
  if host_seek_faulty s then (-1, s)
  else
    let p := match origin with
             | soFromBeginning => offset
             | soFromCurrent => position s + offset
             | soFromEnd => stream_size s + offset
             end in
    (p, set_position s p).

(** [TStream.Write(Buffer, Count)]: the reported count and the stream, in
    which the bytes the host took replace the content at the cursor. *)
Definition Write (s : TStream) (buf : list Z) (count : Z) : Z * TStream :=
  let reported := host_accepts s (length (write_log s)) count in
  let taken := take (Z.to_nat reported) buf in
  let p := Z.to_nat (position s) in
  (reported,
   {| content := take p (content s) ++ taken
                 ++ drop (p + length taken) (content s);
      position := position s + Z.of_nat (length taken);
      write_log := write_log s ++ [(count, reported)];
      host_accepts := host_accepts s;
      host_seek_faulty := host_seek_faulty s |}).

End Host.

(** ** [DelphiTStreamWrapper] *)
Module Wrapper.

Definition clamp_count (count : Z) : Z :=
  if INT_MAX <? count then INT_MAX else count.

(** [read(buffer, count)]: the bytes placed in [buffer]; the value the
    source compares against is their number. *)
Definition read (s : TStream) (count : Z) : list Z * TStream :=
  if count =? 0 then ([], s)
  else Host.Read s (clamp_count count).

(** [write(buffer, count)] with [buffer] holding [buf]. *)
Definition write (s : TStream) (buf : list Z) : Z * TStream :=
  let count := Z.of_nat (length buf) in
  if count =? 0 then (0, s)
  else
    let '(r, s') := Host.Write s buf (clamp_count count) in
    (if r <? 0 then 0 else r, s').

(** [seek(offset, origin)] *)
Definition seek (s : TStream) (offset : Z) (origin : TSeekOrigin)
  : Z * TStream :=
  Host.Seek s (to_int offset) origin.

(** [seek_abs(absoluteOffset)] *)
Definition seek_abs (s : TStream) (absoluteOffset : Z) : bool * TStream :=
  let '(res, s') := Host.Seek s (to_int absoluteOffset) soFromBeginning in
  (0 <=? res, s').

(** [srcStream.read(&A, 1) != 1] decides between a byte and a failure. *)
Definition read_byte (s : TStream) : option Z * TStream :=
  match read s 1 with
  | ([b], s') => (Some b, s')
  | (_, s') => (None, s')
  end.

End Wrapper.

(** ** The raster decompressor of [ConvertPID] *)
Module Decompress.

(** The loop state: the source stream, the [pixels] vector and [pos]. *)
Record state := mkState {
  src : TStream;
  pixels : list Z;
  pos : Z
}.

Definition size (st : state) : Z := Z.of_nat (length (pixels st)).

(** A loop state in which the cursors are where the loops keep them. *)
Definition wf (st : state) : Prop :=
  0 <= position (src st) /\ 0 <= pos st <= size st.

(** [pixels[pos++] = v] *)
Definition emit (st : state) (v : Z) : exec state :=
  (let* px := vec_set (pixels st) (pos st) v in
   Done {| src := src st; pixels := px; pos := pos st + 1 |})%exec.

(** [for (int i = 0; i < count && pos < pixels.size(); ++i)
       pixels[pos++] = fill;]
    with [n] iterations of [i] left. *)
Fixpoint fill_run (n : nat) (fill : Z) (st : state) : exec state :=
  match n with
  | O => Done st
  | S n' =>
      if pos st <? size st
      then (let* st' := emit st fill in fill_run n' fill st')%exec
      else Done st
  end.

(** The literal run of grammar A:
    [for (int i = 0; i < A && pos < pixels.size(); ++i)
       { if (read(&B, 1) != 1) { pos = SIZE_MAX; break; }
         pixels[pos++] = B; }] *)
Fixpoint literal_run (n : nat) (st : state) : exec state :=
  match n with
  | O => Done st
  | S n' =>
      if pos st <? size st then
        match Wrapper.read_byte (src st) with
        | (None, s') =>
            Done {| src := s'; pixels := pixels st; pos := SIZE_MAX |}
        | (Some B, s') =>
            (let* st' := emit {| src := s'; pixels := pixels st;
                                 pos := pos st |} B in
             literal_run n' st')%exec
        end
      else Done st
  end.

(** [while (pos < pixels.size())] of the [rleCompression] branch. *)
Fixpoint rle_loop (fuel : nat) (st : state) : exec state :=
  if pos st <? size st then
    match fuel with
    | O => Fuel
    | S fuel' =>
        match Wrapper.read_byte (src st) with
        | (None, s') =>
            Done {| src := s'; pixels := pixels st; pos := pos st |}
        | (Some A, s') =>
            let st1 := {| src := s'; pixels := pixels st; pos := pos st |} in
            if 128 <? A then
              (let* st2 := fill_run (Z.to_nat (A - 128)) 0 st1 in
               rle_loop fuel' st2)%exec
            else
              (let* st2 := literal_run (Z.to_nat A) st1 in
               if pos st2 =? SIZE_MAX then Done st2
               else rle_loop fuel' st2)%exec
        end
    end
  else Done st.

(** [while (pos < pixels.size())] of the other branch. *)
Fixpoint raw_loop (fuel : nat) (st : state) : exec state :=
  if pos st <? size st then
    match fuel with
    | O => Fuel
    | S fuel' =>
        match Wrapper.read_byte (src st) with
        | (None, s') =>
            Done {| src := s'; pixels := pixels st; pos := pos st |}
        | (Some A, s') =>
            let count := if 192 <? A then A - 192 else 1 in
            if 192 <? A then
              match Wrapper.read_byte s' with
              | (None, s'') =>
                  Done {| src := s''; pixels := pixels st; pos := pos st |}
              | (Some B, s'') =>
                  (let* st2 := fill_run (Z.to_nat count) B
                                 {| src := s''; pixels := pixels st;
                                    pos := pos st |} in
                   raw_loop fuel' st2)%exec
              end
            else
              (let* st2 := fill_run (Z.to_nat count) A
                             {| src := s'; pixels := pixels st;
                                pos := pos st |} in
               raw_loop fuel' st2)%exec
        end
    end
  else Done st.

(** Every iteration of either loop that does not leave the loop reads a
    control byte, so one more iteration than bytes left is enough. *)
Definition enough_fuel (s : TStream) : nat :=
  S (length (remaining s)).

(** [std::vector<unsigned char> pixels(pixel_count); std::size_t pos = 0;]
    and the loop the flag selects. *)
Definition run (rleCompression : bool) (pixel_count : Z) (s : TStream)
  : exec state :=
  let st := {| src := s;
               pixels := replicate (Z.to_nat pixel_count) 0;
               pos := 0 |} in
  if rleCompression then rle_loop (enough_fuel s) st
  else raw_loop (enough_fuel s) st.

(** [if (pos != pixels.size()) return 1;] *)
Definition check (st : state) : exec (list Z) :=
  if pos st =? size st then Done (pixels st) else Ret 1.

Definition decompress (rleCompression : bool) (pixel_count : Z)
    (s : TStream) : exec (list Z) :=
  ebind (run rleCompression pixel_count s) check.

End Decompress.

(** ** The two grammars as the specification words them

    [expandA] and [expandB] expand a whole byte stream run by run, with no
    raster size in sight. *)
Fixpoint expandA_fuel (fuel : nat) (bs : list Z) : list Z :=
  match fuel with
  | O => []
  | S fuel' =>
      match bs with
      | [] => []
      | A :: rest =>
          if 128 <? A
          then replicate (Z.to_nat (A - 128)) 0 ++ expandA_fuel fuel' rest
          else take (Z.to_nat A) rest
               ++ expandA_fuel fuel' (drop (Z.to_nat A) rest)
      end
  end.

Definition expandA (bs : list Z) : list Z := expandA_fuel (length bs) bs.

Fixpoint expandB_fuel (fuel : nat) (bs : list Z) : list Z :=
  match fuel with
  | O => []
  | S fuel' =>
      match bs with
      | [] => []
      | A :: rest =>
          if 192 <? A then
            match rest with
            | [] => []
            | B :: rest' =>
                replicate (Z.to_nat (A - 192)) B ++ expandB_fuel fuel' rest'
            end
          else A :: expandB_fuel fuel' rest
      end
  end.

Definition expandB (bs : list Z) : list Z := expandB_fuel (length bs) bs.

(** ** Data of [pid_convert.h] *)

(** [struct Color { unsigned char r, g, b, a; }] *)
Record Color := rgba { r : Z; g : Z; b : Z; a : Z }.

(** [enum class PNGMode] *)
Inductive PNGMode := PNG_8 | PNG_24 | PNG_32.

(** [struct PIDHeader] (the four reserved words [U] are not used). *)
Record PIDHeader := mkHeader {
  ID : Z;
  Flags : Z;
  Width : Z;
  Height : Z
}.

(** [static const Color defaultPalette[256]] *)
Definition defaultPalette : list Color :=
  [
    rgba 0 0 0 255; rgba 128 0 0 255; rgba 0 128 0 255; rgba 128 128 0 255;
    rgba 0 0 128 255; rgba 128 0 128 255; rgba 0 128 128 255; rgba 192 192 192 255;
    rgba 192 220 192 255; rgba 166 202 240 255; rgba 42 63 170 255; rgba 42 63 255 255;
    rgba 42 95 0 255; rgba 42 95 85 255; rgba 42 95 170 255; rgba 42 95 255 255;
    rgba 42 127 0 255; rgba 42 127 85 255; rgba 42 127 170 255; rgba 42 127 255 255;
    rgba 42 159 0 255; rgba 42 159 85 255; rgba 42 159 170 255; rgba 42 159 255 255;
    rgba 42 191 0 255; rgba 42 191 85 255; rgba 42 191 170 255; rgba 42 191 255 255;
    rgba 42 223 0 255; rgba 42 223 85 255; rgba 42 223 170 255; rgba 42 223 255 255;
    rgba 42 255 0 255; rgba 42 255 85 255; rgba 42 255 170 255; rgba 42 255 255 255;
    rgba 85 0 0 255; rgba 85 0 85 255; rgba 85 0 170 255; rgba 85 0 255 255;
    rgba 85 31 0 255; rgba 85 31 85 255; rgba 85 31 170 255; rgba 85 31 255 255;
    rgba 85 63 0 255; rgba 85 63 85 255; rgba 85 63 170 255; rgba 85 63 255 255;
    rgba 85 95 0 255; rgba 85 95 85 255; rgba 85 95 170 255; rgba 85 95 255 255;
    rgba 85 127 0 255; rgba 85 127 85 255; rgba 85 127 170 255; rgba 85 127 255 255;
    rgba 85 159 0 255; rgba 85 159 85 255; rgba 85 159 170 255; rgba 85 159 255 255;
    rgba 85 191 0 255; rgba 85 191 85 255; rgba 85 191 170 255; rgba 85 191 255 255;
    rgba 85 223 0 255; rgba 85 223 85 255; rgba 85 223 170 255; rgba 85 223 255 255;
    rgba 85 255 0 255; rgba 85 255 85 255; rgba 85 255 170 255; rgba 85 255 255 255;
    rgba 127 0 0 255; rgba 127 0 85 255; rgba 127 0 170 255; rgba 127 0 255 255;
    rgba 127 31 0 255; rgba 127 31 85 255; rgba 127 31 170 255; rgba 127 31 255 255;
    rgba 127 63 0 255; rgba 127 63 85 255; rgba 127 63 170 255; rgba 127 63 255 255;
    rgba 127 95 0 255; rgba 127 95 85 255; rgba 127 95 170 255; rgba 127 95 255 255;
    rgba 127 127 0 255; rgba 127 127 85 255; rgba 127 127 170 255; rgba 127 127 255 255;
    rgba 127 159 0 255; rgba 127 159 85 255; rgba 127 159 170 255; rgba 127 159 255 255;
    rgba 127 191 0 255; rgba 127 191 85 255; rgba 127 191 170 255; rgba 127 191 255 255;
    rgba 127 223 0 255; rgba 127 223 85 255; rgba 127 223 170 255; rgba 127 223 255 255;
    rgba 127 255 0 255; rgba 127 255 85 255; rgba 127 255 170 255; rgba 127 255 255 255;
    rgba 170 0 0 255; rgba 170 0 85 255; rgba 170 0 170 255; rgba 170 0 255 255;
    rgba 170 31 0 255; rgba 170 31 85 255; rgba 170 31 170 255; rgba 170 31 255 255;
    rgba 170 63 0 255; rgba 170 63 85 255; rgba 170 63 170 255; rgba 170 63 255 255;
    rgba 170 95 0 255; rgba 170 95 85 255; rgba 170 95 170 255; rgba 170 95 255 255;
    rgba 170 127 0 255; rgba 170 127 85 255; rgba 170 127 170 255; rgba 170 127 255 255;
    rgba 170 159 0 255; rgba 170 159 85 255; rgba 170 159 170 255; rgba 170 159 255 255;
    rgba 170 191 0 255; rgba 170 191 85 255; rgba 170 191 170 255; rgba 170 191 255 255;
    rgba 170 223 0 255; rgba 170 223 85 255; rgba 170 223 170 255; rgba 170 223 255 255;
    rgba 170 255 0 255; rgba 170 255 85 255; rgba 170 255 170 255; rgba 170 255 255 255;
    rgba 212 0 0 255; rgba 212 0 85 255; rgba 212 0 170 255; rgba 212 0 255 255;
    rgba 212 31 0 255; rgba 212 31 85 255; rgba 212 31 170 255; rgba 212 31 255 255;
    rgba 212 63 0 255; rgba 212 63 85 255; rgba 212 63 170 255; rgba 212 63 255 255;
    rgba 212 95 0 255; rgba 212 95 85 255; rgba 212 95 170 255; rgba 212 95 255 255;
    rgba 212 127 0 255; rgba 212 127 85 255; rgba 212 127 170 255; rgba 212 127 255 255;
    rgba 212 159 0 255; rgba 212 159 85 255; rgba 212 159 170 255; rgba 212 159 255 255;
    rgba 212 191 0 255; rgba 212 191 85 255; rgba 212 191 170 255; rgba 212 191 255 255;
    rgba 212 223 0 255; rgba 212 223 85 255; rgba 212 223 170 255; rgba 212 223 255 255;
    rgba 212 255 0 255; rgba 212 255 85 255; rgba 212 255 170 255; rgba 212 255 255 255;
    rgba 255 0 85 255; rgba 255 0 170 255; rgba 255 31 0 255; rgba 255 31 85 255;
    rgba 255 31 170 255; rgba 255 31 255 255; rgba 255 63 0 255; rgba 255 63 85 255;
    rgba 255 63 170 255; rgba 255 63 255 255; rgba 255 95 0 255; rgba 255 95 85 255;
    rgba 255 95 170 255; rgba 255 95 255 255; rgba 255 127 0 255; rgba 255 127 85 255;
    rgba 255 127 170 255; rgba 255 127 255 255; rgba 255 159 0 255; rgba 255 159 85 255;
    rgba 255 159 170 255; rgba 255 159 255 255; rgba 255 191 0 255; rgba 255 191 85 255;
    rgba 255 191 170 255; rgba 255 191 255 255; rgba 255 223 0 255; rgba 255 223 85 255;
    rgba 255 223 170 255; rgba 255 223 255 255; rgba 255 255 85 255; rgba 255 255 170 255;
    rgba 204 204 255 255; rgba 255 204 255 255; rgba 51 255 255 255; rgba 102 255 255 255;
    rgba 153 255 255 255; rgba 204 255 255 255; rgba 0 127 0 255; rgba 0 127 85 255;
    rgba 0 127 170 255; rgba 0 127 255 255; rgba 0 159 0 255; rgba 0 159 85 255;
    rgba 0 159 170 255; rgba 0 159 255 255; rgba 0 191 0 255; rgba 0 191 85 255;
    rgba 0 191 170 255; rgba 0 191 255 255; rgba 0 223 0 255; rgba 0 223 85 255;
    rgba 0 223 170 255; rgba 0 223 255 255; rgba 0 255 85 255; rgba 0 255 170 255;
    rgba 42 0 0 255; rgba 42 0 85 255; rgba 42 0 170 255; rgba 42 0 255 255;
    rgba 42 31 0 255; rgba 42 31 85 255; rgba 42 31 170 255; rgba 42 31 255 255;
    rgba 42 63 0 255; rgba 42 63 85 255; rgba 255 251 240 255; rgba 160 160 164 255;
    rgba 128 128 128 255; rgba 255 0 0 255; rgba 0 255 0 255; rgba 255 255 0 255;
    rgba 0 0 255 255; rgba 255 0 255 255; rgba 0 255 255 255; rgba 255 255 255 255
  ].

(** ** The stream monad of the encoders: a computation on the destination
    stream that ends in an [exec] outcome. *)
Definition M (A : Type) : Type := TStream -> exec A * TStream.

Definition retM {A} (a : A) : M A := fun s => (Done a, s).

Definition bindM {A B} (m : M A) (k : A -> M B) : M B :=
  fun s =>
    match m s with
    | (Done a, s') => k a s'
    | (Ret c, s') => (Ret c, s')
    | (UB, s') => (UB, s')
    | (Fuel, s') => (Fuel, s')
    end.

(** A piece that does not touch the stream. *)
Definition lift {A} (e : exec A) : M A := fun s => (e, s).

(** [return c;] *)
Definition returnM {A} (c : Z) : M A := fun s => (Ret c, s).

Declare Scope stream_scope.
Delimit Scope stream_scope with stream.
Notation "'let*' x ':=' m 'in' k" := (bindM m (fun x => k))
  (at level 10, x pattern, m at level 100, k at level 200) : stream_scope.

(** A loop over [l] carrying the local variables [v]. *)
Fixpoint forM {V} (body : Z -> V -> M V) (l : list Z) (v : V) : M V :=
  match l with
  | [] => retM v
  | i :: l' => bindM (body i v) (forM body l')
  end.

(** The value of a call [f(...)] of a function whose body is [m]. *)
Definition call (m : M Z) : M Z :=
  fun s =>
    match m s with
    | (Ret c, s') => (Done c, s')
    | other => other
    end.

(** [dst.write(buf, n)] *)
Definition dst_write (buf : list Z) : M Z :=
  fun s => let '(n, s') := Wrapper.write s buf in (Done n, s').

(** [if (dst.write(buf, n) != n) return 1;] *)
Definition write_or_fail (buf : list Z) : M unit :=
  (let* n := dst_write buf in
   if n =? Z.of_nat (length buf) then retM tt else returnM 1)%stream.

(** [if (!dst.seek_abs(0)) return 1;] *)
Definition seek_abs_or_fail (absoluteOffset : Z) : M unit :=
  fun s =>
    let '(ok, s') := Wrapper.seek_abs s absoluteOffset in
    if ok then (Done tt, s') else (Ret 1, s').

(** The elements [lo .. lo+n-1] of a vector, read through a pointer or an
    iterator range; undefined outside the vector. *)
Definition vec_slice {A} (v : list A) (lo n : Z) : exec (list A) :=
  if (0 <=? lo) && (0 <=? n) && (lo + n <=? Z.of_nat (length v))
  then Done (take (Z.to_nat n) (drop (Z.to_nat lo) v))
  else UB.

(** [memcpy(palette, palette_src, ...); if (useTransparency) palette[0] = black]
    of the BMP and TGA encoders. *)
Definition bake_transparency (palette_src : list Color)
    (useTransparency : bool) : list Color :=
  if useTransparency then
    match palette_src with
    | c :: rest => rgba 0 0 0 (a c) :: rest
    | [] => []
    end
  else palette_src.

(** ** [SaveToBMP] *)
Module BMP.

Definition bytes_u16 (v : Z) : list Z :=
  [Z.land v 255; Z.land (Z.shiftr v 8) 255].
Definition bytes_u32 (v : Z) : list Z :=
  [Z.land v 255; Z.land (Z.shiftr v 8) 255;
   Z.land (Z.shiftr v 16) 255; Z.land (Z.shiftr v 24) 255].

Definition write_u16 (v : Z) : M unit := write_or_fail (bytes_u16 v).
Definition write_u32 (v : Z) : M unit := write_or_fail (bytes_u32 v).
Definition write_s32 (v : Z) : M unit := write_u32 (to_u32 v).

(** The body of the [x] loop: one pixel of the row. *)
Definition fill_pixel (pixels : list Z) (width : Z) (palette : list Color)
    (y x : Z) (row : list Z) : exec (list Z) :=
  (let* idx := vec_at pixels (y * width + x) in
   let* c := vec_at palette idx in
   let* row := vec_set row (x * 3 + 0) (b c) in
   let* row := vec_set row (x * 3 + 1) (g c) in
   vec_set row (x * 3 + 2) (r c))%exec.

(** The body of the [y] loop: fill the row, write it. *)
Definition write_row (pixels : list Z) (width : Z) (palette : list Color)
    (y : Z) (row : list Z) : M (list Z) :=
  (let* row := lift (foldM (fill_pixel pixels width palette y)
                           (seqZ 0 width) row) in
   let* _ := write_or_fail row in
   retM row)%stream.

Definition SaveToBMP (pixels : list Z) (width height : Z)
    (palette_src : list Color) (useTransparency : bool) : M Z :=
  (let palette := bake_transparency palette_src useTransparency in
   let bpp := 24 in
   let* w3 := lift (int_val (width * 3)) in
   let* w33 := lift (int_val (w3 + 3)) in
   let rowSize := Z.land w33 (Z.lnot 3) in
   let* imageSize := lift (int_val (rowSize * height)) in
   let infoSize := 40 in
   let paletteBytes := 0 in
   let dataOffset := to_u32 (14 + infoSize + paletteBytes) in
   let fileSize := to_u32 (dataOffset + to_u32 imageSize) in
   let* _ := write_or_fail [66; 77] in
   let* _ := write_u32 fileSize in
   let* _ := write_u16 0 in
   let* _ := write_u16 0 in
   let* _ := write_u32 dataOffset in
   let* _ := write_u32 infoSize in
   let* _ := write_s32 width in
   let* _ := write_s32 height in
   let* _ := write_u16 1 in
   let* _ := write_u16 (to_u16 bpp) in
   let* _ := write_u32 0 in
   let* _ := write_u32 (to_u32 imageSize) in
   let* _ := write_s32 0 in
   let* _ := write_s32 0 in
   let* _ := write_u32 0 in
   let* _ := write_u32 0 in
   let* _ := forM (write_row pixels width palette)
                  (reverse (seqZ 0 height))
                  (replicate (Z.to_nat rowSize) 0) in
   let* _ := seek_abs_or_fail 0 in
   returnM 0)%stream.

End BMP.

(** ** [SaveToTGA] *)
Module TGA.

Definition write_u8 (v : Z) : M unit := write_or_fail [v].
Definition write_u16 (v : Z) : M unit :=
  write_or_fail [Z.land v 255; Z.land (Z.shiftr v 8) 255].

(** The body of the palette loop. *)
Definition write_entry (palette : list Color) (i : Z) (_ : unit) : M unit :=
  (let* c := lift (vec_at palette i) in
   write_or_fail [b c; g c; r c])%stream.

(** The body of the row loop. *)
Definition write_row (pixels : list Z) (width : Z) (y : Z) (_ : unit)
  : M unit :=
  (let* row := lift (vec_slice pixels (y * width) width) in
   write_or_fail row)%stream.

Definition SaveToTGA (pixels : list Z) (width height : Z)
    (palette_src : list Color) (useTransparency : bool) : M Z :=
  (let palette := bake_transparency palette_src useTransparency in
   let idLength := 0 in
   let colorMapType := 1 in
   let imageType := 1 in
   let colorMapStart := 0 in
   let colorMapLength := 256 in
   let colorMapBits := 24 in
   let xOrigin := 0 in
   let yOrigin := 0 in
   let pixelDepth := 8 in
   let imageDesc := 32 in
   let* _ := write_u8 idLength in
   let* _ := write_u8 colorMapType in
   let* _ := write_u8 imageType in
   let* _ := write_u16 colorMapStart in
   let* _ := write_u16 colorMapLength in
   let* _ := write_u8 colorMapBits in
   let* _ := write_u16 xOrigin in
   let* _ := write_u16 yOrigin in
   let* _ := write_u16 (to_u16 width) in
   let* _ := write_u16 (to_u16 height) in
   let* _ := write_u8 pixelDepth in
   let* _ := write_u8 imageDesc in
   let* _ := forM (write_entry palette) (seqZ 0 256) tt in
   let* _ := forM (write_row pixels width) (seqZ 0 height) tt in
   let* _ := seek_abs_or_fail 0 in
   returnM 0)%stream.

End TGA.

(** ** The PNG encoder *)
Module PNG.

(** The characters of a C string literal as bytes. *)
Definition bytes_of_string (s : string) : list Z :=
  map (fun c => Z.of_N (N_of_ascii c)) (list_ascii_of_string s).

(** [static const unsigned int crc_table[256]] of [crc32_png]. *)
Definition crc_table : list Z :=
  [
  0x00000000; 0x77073096; 0xee0e612c; 0x990951ba; 0x076dc419; 0x706af48f;
  0xe963a535; 0x9e6495a3; 0x0edb8832; 0x79dcb8a4; 0xe0d5e91e; 0x97d2d988;
  0x09b64c2b; 0x7eb17cbd; 0xe7b82d07; 0x90bf1d91; 0x1db71064; 0x6ab020f2;
  0xf3b97148; 0x84be41de; 0x1adad47d; 0x6ddde4eb; 0xf4d4b551; 0x83d385c7;
  0x136c9856; 0x646ba8c0; 0xfd62f97a; 0x8a65c9ec; 0x14015c4f; 0x63066cd9;
  0xfa0f3d63; 0x8d080df5; 0x3b6e20c8; 0x4c69105e; 0xd56041e4; 0xa2677172;
  0x3c03e4d1; 0x4b04d447; 0xd20d85fd; 0xa50ab56b; 0x35b5a8fa; 0x42b2986c;
  0xdbbbc9d6; 0xacbcf940; 0x32d86ce3; 0x45df5c75; 0xdcd60dcf; 0xabd13d59;
  0x26d930ac; 0x51de003a; 0xc8d75180; 0xbfd06116; 0x21b4f4b5; 0x56b3c423;
  0xcfba9599; 0xb8bda50f; 0x2802b89e; 0x5f058808; 0xc60cd9b2; 0xb10be924;
  0x2f6f7c87; 0x58684c11; 0xc1611dab; 0xb6662d3d; 0x76dc4190; 0x01db7106;
  0x98d220bc; 0xefd5102a; 0x71b18589; 0x06b6b51f; 0x9fbfe4a5; 0xe8b8d433;
  0x7807c9a2; 0x0f00f934; 0x9609a88e; 0xe10e9818; 0x7f6a0dbb; 0x086d3d2d;
  0x91646c97; 0xe6635c01; 0x6b6b51f4; 0x1c6c6162; 0x856530d8; 0xf262004e;
  0x6c0695ed; 0x1b01a57b; 0x8208f4c1; 0xf50fc457; 0x65b0d9c6; 0x12b7e950;
  0x8bbeb8ea; 0xfcb9887c; 0x62dd1ddf; 0x15da2d49; 0x8cd37cf3; 0xfbd44c65;
  0x4db26158; 0x3ab551ce; 0xa3bc0074; 0xd4bb30e2; 0x4adfa541; 0x3dd895d7;
  0xa4d1c46d; 0xd3d6f4fb; 0x4369e96a; 0x346ed9fc; 0xad678846; 0xda60b8d0;
  0x44042d73; 0x33031de5; 0xaa0a4c5f; 0xdd0d7cc9; 0x5005713c; 0x270241aa;
  0xbe0b1010; 0xc90c2086; 0x5768b525; 0x206f85b3; 0xb966d409; 0xce61e49f;
  0x5edef90e; 0x29d9c998; 0xb0d09822; 0xc7d7a8b4; 0x59b33d17; 0x2eb40d81;
  0xb7bd5c3b; 0xc0ba6cad; 0xedb88320; 0x9abfb3b6; 0x03b6e20c; 0x74b1d29a;
  0xead54739; 0x9dd277af; 0x04db2615; 0x73dc1683; 0xe3630b12; 0x94643b84;
  0x0d6d6a3e; 0x7a6a5aa8; 0xe40ecf0b; 0x9309ff9d; 0x0a00ae27; 0x7d079eb1;
  0xf00f9344; 0x8708a3d2; 0x1e01f268; 0x6906c2fe; 0xf762575d; 0x806567cb;
  0x196c3671; 0x6e6b06e7; 0xfed41b76; 0x89d32be0; 0x10da7a56; 0x67dd4acc;
  0xf9b9df6f; 0x8ebeeff9; 0x17b7be43; 0x60b08ed5; 0xd6d6a3e8; 0xa1d1937e;
  0x38d8c2c4; 0x4fdff252; 0xd1bb67f1; 0xa6bc5767; 0x3fb506dd; 0x48b2364b;
  0xd80d2bda; 0xaf0a1b4c; 0x36034af6; 0x41047a60; 0xdf60efc3; 0xa867df55;
  0x316e8eef; 0x4669be79; 0xcb61b38c; 0xbc66831a; 0x256fd2a0; 0x5268e236;
  0xcc0c7795; 0xbb0b4703; 0x220216b9; 0x5505262f; 0xc5ba3bbe; 0xb2bd0b28;
  0x2bb45a92; 0x5cb36a04; 0xc2d7ffa7; 0xb5d0cf31; 0x2cd99e8b; 0x5bdeae1d;
  0x9b64c2b0; 0xec63f226; 0x756aa39c; 0x026d930a; 0x9c0906a9; 0xeb0e363f;
  0x72076785; 0x05005713; 0x95bf4a82; 0xe2b87a14; 0x7bb12bae; 0x0cb61b38;
  0x92d28e9b; 0xe5d5be0d; 0x7cdcefb7; 0x0bdbdf21; 0x86d3d2d4; 0xf1d4e242;
  0x68ddb3f8; 0x1fda836e; 0x81be16cd; 0xf6b9265b; 0x6fb077e1; 0x18b74777;
  0x88085ae6; 0xff0f6a70; 0x66063bca; 0x11010b5c; 0x8f659eff; 0xf862ae69;
  0x616bffd3; 0x166ccf45; 0xa00ae278; 0xd70dd2ee; 0x4e048354; 0x3903b3c2;
  0xa7672661; 0xd06016f7; 0x4969474d; 0x3e6e77db; 0xaed16a4a; 0xd9d65adc;
  0x40df0b66; 0x37d83bf0; 0xa9bcae53; 0xdebb9ec5; 0x47b2cf7f; 0x30b5ffe9;
  0xbdbdf21c; 0xcabac28a; 0x53b39330; 0x24b4a3a6; 0xbad03605; 0xcdd70693;
  0x54de5729; 0x23d967bf; 0xb3667a2e; 0xc4614ab8; 0x5d681b02; 0x2a6f2b94;
  0xb40bbe37; 0xc30c8ea1; 0x5a05df1b; 0x2d02ef8d
  ].

(** [crc = crc_table[(crc ^ data[i]) & 0xff] ^ (crc >> 8);]
    The index is masked to [0 .. 255], inside the table. *)
Definition crc_step (crc : Z) (byte : Z) : Z :=
  Z.lxor (nth (Z.to_nat (Z.land (Z.lxor crc byte) 255)) crc_table 0)
         (Z.shiftr crc 8).

(** [crc32_png(data, len, crc)], with [data] holding at least [len] bytes. *)
Definition crc32_png (data : list Z) (len : Z) (crc : Z) : Z :=
  if len =? 0 then not32 crc
  else
    let crc := not32 crc in
    let crc := fold_left crc_step (take (Z.to_nat len) data) crc in
    not32 crc.

(** [write_PNG_Chunk(buffer, type, data, length)]: the buffer afterwards.
    [data] is [None] for a null pointer. *)
Definition write_PNG_Chunk (buffer : list Z) (type : string)
    (data : option (list Z)) (length : Z) : exec (list Z) :=
  (let len := _byteswap_ulong length in
   let buffer := buffer ++ mem_u32 len in
   let buffer := buffer ++ take 4 (bytes_of_string type) in
   let has_data := match data with
                   | Some _ => 0 <? length
                   | None => false
                   end in
   let* payload := match data with
                   | Some d =>
                       if 0 <? length then vec_slice d 0 length else Done []
                   | None => Done []
                   end in
   let buffer := buffer ++ payload in
   let crc := crc32_png (bytes_of_string type) 4 0 in
   let crc := if has_data then crc32_png payload length crc else crc in
   let crc := _byteswap_ulong crc in
   Done (buffer ++ mem_u32 crc))%exec.

(** The CRC [write_PNG_Chunk] computes for a chunk of the given payload. *)
Definition stored_crc (type : string) (payload : list Z) : Z :=
  let crc := crc32_png (bytes_of_string type) 4 0 in
  if 0 <? Z.of_nat (length payload)
  then crc32_png payload (Z.of_nat (length payload)) crc
  else crc.

(** zlib is an external library: whether [deflateInit] reports [Z_OK], and
    the bytes [deflate(&zs, Z_FINISH)] leaves in the output buffer. *)
Record Zlib := mkZlib {
  deflateInit_ok : bool;
  deflate : list Z -> list Z
}.

Definition signature : list Z := [137; 80; 78; 71; 13; 10; 26; 10].

(** The first 13 bytes of the local [ihdr] struct. *)
Definition ihdr_bytes (width height : Z) (ct : Z) : list Z :=
  mem_u32 (_byteswap_ulong (to_u32 width))
  ++ mem_u32 (_byteswap_ulong (to_u32 height))
  ++ [8; ct; 0; 0; 0].

Definition color_type (mode : PNGMode) : Z :=
  match mode with
  | PNG_8 => 3
  | PNG_24 => 2
  | PNG_32 => 6
  end.

(** The body of the [plte] loop. *)
Definition plte_entry (palette : list Color) (i : Z) (plte : list Z)
  : exec (list Z) :=
  (let* c := vec_at palette i in
   let* plte := vec_set plte (i * 3 + 0) (r c) in
   let* plte := vec_set plte (i * 3 + 1) (g c) in
   vec_set plte (i * 3 + 2) (b c))%exec.

Definition plte_bytes (palette : list Color) : exec (list Z) :=
  foldM (plte_entry palette) (seqZ 0 256) (replicate 768 0).

(** [memset(trns, 255, 256); trns[0] = 0;] *)
Definition trns_bytes : list Z := <[0%nat := 0]> (replicate 256 255).

(** The PLTE / tRNS block. *)
Definition palette_chunks (mode : PNGMode) (png : list Z)
    (palette : list Color) (useTransparency : bool) : exec (list Z) :=
  match mode with
  | PNG_8 =>
      (let* plte := plte_bytes palette in
       let* png := write_PNG_Chunk png "PLTE" (Some plte) 768 in
       if useTransparency
       then write_PNG_Chunk png "tRNS" (Some trns_bytes) 256
       else Done png)%exec
  | _ => Done png
  end.

(** The row loops that build [idat]. *)
Definition row_8 (pixels : list Z) (width : Z) (y : Z) (idat : list Z)
  : exec (list Z) :=
  (let idat := idat ++ [0] in
   let* row := vec_slice pixels (y * width)
                         ((y + 1) * width - y * width) in
   Done (idat ++ row))%exec.

Definition pixel_24 (pixels : list Z) (width : Z) (palette : list Color)
    (y x : Z) (idat : list Z) : exec (list Z) :=
  (let* idx := vec_at pixels (y * width + x) in
   let* c := vec_at palette idx in
   Done (idat ++ [r c; g c; b c]))%exec.

Definition pixel_32 (pixels : list Z) (width : Z) (palette : list Color)
    (useTransparency : bool) (y x : Z) (idat : list Z) : exec (list Z) :=
  (let* idx := vec_at pixels (y * width + x) in
   let* c := vec_at palette idx in
   Done (idat ++ [r c; g c; b c;
                  if useTransparency && (idx =? 0) then 0 else 255]))%exec.

Definition rows (pixel : Z -> Z -> list Z -> exec (list Z))
    (width height : Z) : exec (list Z) :=
  foldM (fun y idat => foldM (pixel y) (seqZ 0 width) (idat ++ [0]))
        (seqZ 0 height) [].

Definition idat_bytes (mode : PNGMode) (pixels : list Z) (width height : Z)
    (palette : list Color) (useTransparency : bool) : exec (list Z) :=
  match mode with
  | PNG_8 => foldM (row_8 pixels width) (seqZ 0 height) []
  | PNG_24 =>
      (let* wh := int_val (width * height) in
       let* wh3 := int_val (wh * 3) in
       let* _ := int_val (wh3 + height) in
       rows (pixel_24 pixels width palette) width height)%exec
  | PNG_32 =>
      (let* wh := int_val (width * height) in
       let* wh4 := int_val (wh * 4) in
       let* _ := int_val (wh4 + height) in
       rows (pixel_32 pixels width palette useTransparency) width height)%exec
  end.

(** A chunk [write_PNG_Chunk] writes: type, payload and CRC. *)
Definition written (type : string) (payload : list Z)
  : list Z * list Z * Z :=
  (bytes_of_string type, payload, stored_crc type payload).

(** The chunks [SaveToPNG] writes after the signature, given the payloads
    of the IHDR, PLTE and IDAT chunks. *)
Definition layout (mode : PNGMode) (useTransparency : bool)
    (ihdr plte idat : list Z) : list (list Z * list Z * Z) :=
  [written "IHDR" ihdr]
  ++ match mode with
     | PNG_8 =>
         written "PLTE" plte
         :: (if useTransparency then [written "tRNS" trns_bytes] else [])
     | _ => []
     end
  ++ [written "IDAT" idat; written "IEND" []].

(** A raster the encoders can be given: [width * height] palette indices,
    a palette of 256 entries and sizes that fit an [int]. *)
Definition valid_raster (pixels : list Z) (width height : Z)
    (palette : list Color) : Prop :=
  0 < width /\ 0 < height /\
  Z.of_nat (length pixels) = width * height /\
  length palette = 256%nat /\
  Forall (fun p => 0 <= p < 256) pixels /\
  width * height * 4 + height <= INT_MAX.

(** The vector [png] at the point where [SaveToPNG] hands it to the stream. *)
Definition assemble (mode : PNGMode) (zlib : Zlib) (pixels : list Z)
    (width height : Z) (palette : list Color) (useTransparency : bool)
  : exec (list Z) :=
  (let png := signature in
   let* png := write_PNG_Chunk png "IHDR"
                 (Some (ihdr_bytes width height (color_type mode))) 13 in
   let* png := palette_chunks mode png palette useTransparency in
   let* idat := idat_bytes mode pixels width height palette
                           useTransparency in
   let* _ := if deflateInit_ok zlib then Done tt else Ret 1 in
   let compressed := deflate zlib idat in
   let compSize := Z.of_nat (length compressed) in
   let* png := write_PNG_Chunk png "IDAT" (Some compressed)
                 (to_u32 compSize) in
   write_PNG_Chunk png "IEND" None 0)%exec.

Definition SaveToPNG (mode : PNGMode) (zlib : Zlib) (pixels : list Z)
    (width height : Z) (palette : list Color) (useTransparency : bool)
  : M Z :=
  (let* png := lift (assemble mode zlib pixels width height palette
                              useTransparency) in
   let* _ := dst_write png in
   returnM 0)%stream.

End PNG.

(** ** The orientation transform of [ConvertPID] *)
Module Orientation.

(** The two vectors alive during the transform. *)
Record buffers := mkBuffers {
  pixels : list Z;
  flipped : list Z
}.

(** [int srcY = invert ? (header.Height - 1 - y) : y;] *)
Definition srcY (invert : bool) (Height y : Z) : Z :=
  if invert then Height - 1 - y else y.

(** [int srcX = mirror ? (header.Width - 1 - x) : x;] *)
Definition srcX (mirror : bool) (Width x : Z) : Z :=
  if mirror then Width - 1 - x else x.

(** [flipped[y * Width + x] = pixels[srcY * Width + srcX];] *)
Definition copy_pixel (mirror : bool) (Width : Z) (y srcY : Z) (x : Z)
    (bufs : buffers) : exec buffers :=
  (let srcX := srcX mirror Width x in
   let* v := vec_at (pixels bufs) (srcY * Width + srcX) in
   let* f := vec_set (flipped bufs) (y * Width + x) v in
   Done {| pixels := pixels bufs; flipped := f |})%exec.

Definition copy_row (mirror invert : bool) (Width Height : Z) (y : Z)
    (bufs : buffers) : exec buffers :=
  let srcY := srcY invert Height y in
  foldM (copy_pixel mirror Width y srcY) (seqZ 0 Width) bufs.

(** The two loops, from [flipped(pixels.size())] on. *)
Definition flip (mirror invert : bool) (Width Height : Z) (px : list Z)
  : exec buffers :=
  foldM (copy_row mirror invert Width Height) (seqZ 0 Height)
        {| pixels := px; flipped := replicate (length px) 0 |}.

(** [if (mirror || invert) { ...; pixels = std::move(flipped); }] *)
Definition transform (mirror invert : bool) (Width Height : Z)
    (px : list Z) : exec (list Z) :=
  if mirror || invert then
    (let* bufs := flip mirror invert Width Height px in
     Done (flipped bufs))%exec
  else Done px.

(** What holds of the two vectors when the loops stand before column
    [x0] of row [y0]: [pixels] is still the input [px], and every element
    of [flipped] before that point holds its source pixel. *)
Definition filled (mirror invert : bool) (Width Height : Z) (px : list Z)
    (y0 x0 : Z) (bufs : buffers) : Prop :=
  pixels bufs = px /\
  length (flipped bufs) = length px /\
  forall y x, 0 <= x < Width -> 0 <= y ->
    y < y0 \/ (y = y0 /\ x < x0) ->
    flipped bufs !! Z.to_nat (y * Width + x)
    = px !! Z.to_nat (srcY invert Height y * Width + srcX mirror Width x).

End Orientation.

(** ** [ConvertPID] *)
Module Convert.

(** The [int] at byte offset [off] of the header image. *)
Definition field (hb : list Z) (off : nat) : Z :=
  load_int (nth off hb 0) (nth (off + 1) hb 0)
           (nth (off + 2) hb 0) (nth (off + 3) hb 0).

(** [if (srcStream.read(&header, sizeof(header)) != sizeof(header)) return 1;] *)
Definition read_header (s : TStream) : exec (PIDHeader * TStream) :=
  let '(hb, s') := Wrapper.read s 32 in
  if Z.of_nat (length hb) =? 32 then
    Done ({| ID := field hb 0; Flags := field hb 4;
             Width := field hb 8; Height := field hb 12 |}, s')
  else Ret 1.

(** Header validation. *)
Definition validate (header : PIDHeader) : exec unit :=
  if negb (ID header =? 10) then Ret 1
  else if (Width header <=? 0) || (Height header <=? 0) then Ret 1
  else Done tt.

(** [pixel_count], and the guard on it. *)
Definition pixel_count (header : PIDHeader) : Z :=
  to_size_t (to_size_t (Width header) * to_size_t (Height header)).

Definition guard_pixel_count (header : PIDHeader) : exec Z :=
  let pixel_count := pixel_count header in
  if 2 ^ 30 <? pixel_count then Ret 1 else Done pixel_count.

Definition flag (header : PIDHeader) (mask : Z) : bool :=
  negb (Z.land (Flags header) mask =? 0).

(** The body of the loop that reads the embedded palette. *)
Definition read_entry (useTransparency : bool) (i : Z)
    (st : TStream * list Color) : exec (TStream * list Color) :=
  let '(s, palette) := st in
  match Wrapper.read_byte s with
  | (None, _) => Ret 1
  | (Some cr, s1) =>
      match Wrapper.read_byte s1 with
      | (None, _) => Ret 1
      | (Some cg, s2) =>
          match Wrapper.read_byte s2 with
          | (None, _) => Ret 1
          | (Some cb, s3) =>
              let alpha := if useTransparency && (i =? 0) then 0 else 255 in
              Done (s3, palette ++ [rgba cr cg cb alpha])
          end
      end
  end.

Definition resolve_palette (hasPalette useTransparency : bool) (s : TStream)
  : exec (TStream * list Color) :=
  if hasPalette then
    let '(p, s') := Wrapper.seek s (-768) soFromEnd in
    if p <? 0 then Ret 1
    else foldM (read_entry useTransparency) (seqZ 0 256) (s', [])
  else
    Done (s,
          if useTransparency then
            match defaultPalette with
            | c :: rest => rgba (r c) (g c) (b c) 0 :: rest
            | [] => []
            end
          else defaultPalette).

(** What the encoders are given. *)
Record raster := mkRaster {
  header : PIDHeader;
  useTransparency : bool;
  palette : list Color;
  pixels : list Z
}.

(** Everything up to the seek to the pixel data. *)
Definition prepare (src : TStream)
  : exec (PIDHeader * Z * list Color * TStream) :=
  (let* hs := read_header src in
   let '(header, s) := hs in
   let* _ := validate header in
   let* pixel_count := guard_pixel_count header in
   let useTransparency := flag header 1 in
   let hasPalette := flag header 128 in
   let* sp := resolve_palette hasPalette useTransparency s in
   let '(s, palette) := sp in
   let '(p, s) := Wrapper.seek s 32 soFromBeginning in
   if p <? 0 then Ret 1
   else Done (header, pixel_count, palette, s))%exec.

(** The part of [ConvertPID] that works on the source stream. *)
Definition decode (src : TStream) : exec raster :=
  (let* prepared := prepare src in
   let '(header, pixel_count, palette, s) := prepared in
   let mirror := flag header 8 in
   let invert := flag header 16 in
   let rleCompression := flag header 32 in
   let* px := Decompress.decompress rleCompression pixel_count s in
   let* px := Orientation.transform mirror invert
                (Width header) (Height header) px in
   Done {| header := header; useTransparency := flag header 1;
           palette := palette; pixels := px |})%exec.

(** The dispatch on [cnv] and the final test of [res]. *)
Definition encode (mode : PNGMode) (zlib : PNG.Zlib) (cnv : string)
    (d : raster) : M Z :=
  (let W := Width (header d) in
   let H := Height (header d) in
   let* res :=
     if String.eqb cnv "BMP" then
       call (BMP.SaveToBMP (pixels d) W H (palette d) (useTransparency d))
     else if String.eqb cnv "TGA8" || String.eqb cnv "TGA" then
       call (TGA.SaveToTGA (pixels d) W H (palette d) (useTransparency d))
     else if String.eqb cnv "PNG" then
       call (PNG.SaveToPNG mode zlib (pixels d) W H (palette d)
                           (useTransparency d))
     else returnM 1 in
   if negb (res =? 0) then returnM 1 else returnM 0)%stream.

(** [ConvertPID(src, dst, cnv)]: the value returned and the destination
    stream afterwards.  [g_default_PNG_Mode] and zlib are parameters. *)
Definition ConvertPID (g_default_PNG_Mode : PNGMode) (zlib : PNG.Zlib)
    (src dst : TStream) (cnv : string) : exec Z * TStream :=
  call (let* d := lift (decode src) in
        encode g_default_PNG_Mode zlib cnv d)%stream dst.

End Convert.

(** ** Reference definitions from the format specifications *)

(** A 32-bit value as four bytes, most significant first. *)
Definition be32_bytes (v : Z) : list Z :=
  [(v / 2 ^ 24) mod 256; (v / 2 ^ 16) mod 256; (v / 2 ^ 8) mod 256; v mod 256].

Definition be32 (bs : list Z) : Z :=
  match bs with
  | [b3; b2; b1; b0] => b3 * 2 ^ 24 + b2 * 2 ^ 16 + b1 * 2 ^ 8 + b0
  | _ => 0
  end.

(** The CRC of the PNG specification (its sample code): the table made from
    the polynomial [0xedb88320], a running value updated byte by byte, and
    the complements at both ends. *)
Module PNGReference.

Definition table_step (c : Z) : Z :=
  if Z.odd c then Z.lxor 0xedb88320 (Z.shiftr c 1) else Z.shiftr c 1.

Definition make_crc_table : list Z :=
  map (fun n => Nat.iter 8 table_step n) (seqZ 0 256).

Definition update_crc (crc : Z) (buf : list Z) : Z :=
  fold_left
    (fun c byte =>
       Z.lxor (nth (Z.to_nat (Z.land (Z.lxor c byte) 255)) make_crc_table 0)
              (Z.shiftr c 8))
    buf crc.

Definition crc (buf : list Z) : Z :=
  Z.lxor (update_crc 0xffffffff buf) 0xffffffff.

(** A chunk as a reader of the file sees it. *)
Record chunk := mkChunk {
  chunk_type : list Z;
  chunk_data : list Z;
  chunk_crc : Z
}.

(** Split a byte sequence into length-prefixed chunks. *)
Fixpoint read_chunks (fuel : nat) (bs : list Z) : option (list chunk) :=
  match bs with
  | [] => Some []
  | _ =>
      match fuel with
      | O => None
      | S fuel' =>
          let n := Z.to_nat (be32 (take 4 bs)) in
          if (length bs <? 12 + n)%nat then None
          else
            match read_chunks fuel' (drop (12 + n) bs) with
            | Some cs =>
                Some ({| chunk_type := take 4 (drop 4 bs);
                         chunk_data := take n (drop 8 bs);
                         chunk_crc := be32 (take 4 (drop (8 + n) bs)) |}
                      :: cs)
            | None => None
            end
      end
  end.

(** The bytes of a chunk: length, type, data, CRC. *)
Definition frame (type data : list Z) (crc : Z) : list Z :=
  be32_bytes (Z.of_nat (length data)) ++ type ++ data ++ be32_bytes crc.

(** A chunk as written (type, data, CRC), its bytes, and what a reader
    makes of it. *)
Definition frame_bytes (f : list Z * list Z * Z) : list Z :=
  let '(type, data, crc) := f in frame type data crc.

Definition as_read (f : list Z * list Z * Z) : chunk :=
  let '(type, data, crc) := f in
  {| chunk_type := type; chunk_data := data;
     chunk_crc := be32 (be32_bytes crc) |}.

(** The PNG signature of the PNG specification: the decimal values
    137 80 78 71 13 10 26 10 that open every PNG datastream. *)
Definition png_signature : list Z := [137; 80; 78; 71; 13; 10; 26; 10].

(** A reader of a PNG datastream: the signature, then the chunks. *)
Definition read_png (bs : list Z) : option (list chunk) :=
  if decide (take 8 bs = png_signature)
  then read_chunks (length bs) (drop 8 bs)
  else None.

End PNGReference.

(** The expansion the compression flag selects. *)
Definition expand (rleCompression : bool) (bs : list Z) : list Z :=
  if rleCompression then expandA bs else expandB bs.

(** ** Concrete streams and files *)

(** A stream of the given bytes, cursor at the start, on a host that takes
    every byte it is asked to write and never fails a seek. *)
Definition memory_stream (bytes : list Z) : TStream :=
  {| content := bytes; position := 0; write_log := [];
     host_accepts := fun _ count => count; host_seek_faulty := false |}.

(** An empty stream on a host whose [Write] takes nothing and reports 0. *)
Definition refusing_stream : TStream :=
  {| content := []; position := 0; write_log := [];
     host_accepts := fun _ _ => 0; host_seek_faulty := false |}.

(** The bytes of a PID file: the 32-byte header (magic 10, flags, width,
    height, 16 reserved bytes) and what follows it. *)
Definition pid_file (flags width height : Z) (reserved : list Z)
    (data : list Z) : list Z :=
  mem_u32 10 ++ mem_u32 flags ++ mem_u32 width ++ mem_u32 height
  ++ reserved ++ data.

(** A zlib that initialises and stores its input unchanged; the claims below
    that use it do not depend on what [deflate] returns. *)
Definition stored_zlib : PNG.Zlib :=
  {| PNG.deflateInit_ok := true; PNG.deflate := fun raw => raw |}.

(** A [Write] that reported fewer bytes than it was asked for. *)
Definition short_write (entry : Z * Z) : Prop := entry.2 < entry.1.

(** A computation on the destination stream is fail-fast when a run of it
    in which some [Write] reported fewer bytes than asked ends in
    [return 1]; [new] is what the run adds to the log. *)
Definition fail_fast {A} (m : M A) : Prop :=
  forall s r s',
    m s = (r, s') ->
    exists new,
      write_log s' = write_log s ++ new /\
      (Exists short_write new -> r = Ret 1).

(** ** Running the encoders on a cooperative destination *)

(** A destination whose host takes every byte it is asked to write and never
    fails a seek, with the cursor at the end of what it holds. *)
Definition cooperative (s : TStream) : Prop :=
  (forall k count, host_accepts s k count = count) /\
  host_seek_faulty s = false /\
  position s = Z.of_nat (length (content s)).

(** On a cooperative destination [m] runs to its end with value [a] and
    appends [bytes]. *)
Definition emits {A} (m : M A) (a : A) (bytes : list Z) : Prop :=
  forall s, cooperative s ->
    exists s', m s = (Done a, s') /\
               content s' = content s ++ bytes /\
               cooperative s'.

(** On a cooperative destination [m] ends in [return code] after appending
    [bytes], the cursor then being at 0 ([rewound]) or after the last byte
    written. *)
Definition returns {A} (m : M A) (code : Z) (bytes : list Z)
    (rewound : bool) : Prop :=
  forall s, cooperative s ->
    exists s', m s = (Ret code, s') /\
               content s' = content s ++ bytes /\
               position s' = (if rewound then 0
                              else Z.of_nat (length (content s'))).

(** ** The file layouts the encoders aim at *)

(** Little-endian fields. *)
Definition le16 (v : Z) : list Z := [v mod 256; (v / 256) mod 256].
Definition le32 (v : Z) : list Z :=
  [v mod 256; (v / 2 ^ 8) mod 256; (v / 2 ^ 16) mod 256; (v / 2 ^ 24) mod 256].

(** The palette index at row [y], column [x] of a raster of width [W]. *)
Definition pixel_at (px : list Z) (W y x : Z) : Z :=
  nth (Z.to_nat (y * W + x)) px 0.

(** The colour of a palette index. *)
Definition color_of (pal : list Color) (idx : Z) : Color :=
  nth (Z.to_nat idx) pal (rgba 0 0 0 0).

(** TGA: the 18-byte header of an uncompressed colour-mapped image with a
    256-entry 24-bit map, 8 bits per pixel and a top-left origin. *)
Definition tga_header (W H : Z) : list Z :=
  [0; 1; 1] ++ le16 0 ++ le16 256 ++ [24] ++ le16 0 ++ le16 0
  ++ le16 W ++ le16 H ++ [8; 32].

(** A colour map of B, G, R triples. *)
Definition bgr_map (pal : list Color) : list Z :=
  concat (map (fun c => [b c; g c; r c]) pal).

(** BMP: the size of a 24-bit row, a multiple of 4. *)
Definition bmp_row_size (W : Z) : Z := 4 * ((W * 3 + 3) / 4).

(** BMP: the 14-byte file header and the 40-byte info header. *)
Definition bmp_header (W H : Z) : list Z :=
  [66; 77] ++ le32 (54 + bmp_row_size W * H) ++ le16 0 ++ le16 0 ++ le32 54
  ++ le32 40 ++ le32 W ++ le32 H ++ le16 1 ++ le16 24 ++ le32 0
  ++ le32 (bmp_row_size W * H) ++ le32 0 ++ le32 0 ++ le32 0 ++ le32 0.

(** BMP: row [y] as B, G, R triples and the zeros that pad it. *)
Definition bmp_row (px : list Z) (W : Z) (pal : list Color) (y : Z) : list Z :=
  concat (map (fun x => let c := color_of pal (pixel_at px W y x) in
                        [b c; g c; r c]) (seqZ 0 W))
  ++ replicate (Z.to_nat (bmp_row_size W - W * 3)) 0.

(** PNG: the bytes of one pixel in each output mode. *)
Definition png_sample (mode : PNGMode) (pal : list Color)
    (useTransparency : bool) (idx : Z) : list Z :=
  let c := color_of pal idx in
  match mode with
  | PNG_8 => [idx]
  | PNG_24 => [r c; g c; b c]
  | PNG_32 => [r c; g c; b c;
               if useTransparency && (idx =? 0) then 0 else 255]
  end.

(** PNG: the unfiltered scanlines, each row led by the filter byte 0. *)
Definition scanlines (mode : PNGMode) (px : list Z) (W H : Z)
    (pal : list Color) (useTransparency : bool) : list Z :=
  concat (map (fun y =>
                 0 :: concat (map (fun x => png_sample mode pal useTransparency
                                              (pixel_at px W y x))
                                  (seqZ 0 W)))
              (seqZ 0 H)).

(** PNG: the colour map of R, G, B triples. *)
Definition rgb_map (pal : list Color) : list Z :=
  concat (map (fun c => [r c; g c; b c]) pal).


(** ** The inputs the decoder aims at *)

(** The palette a PID file carries in its last 768 bytes: 256 R, G, B
    triples, opaque except index 0 of a transparent image. *)
Definition embedded_palette (bytes : list Z) (useTransparency : bool)
  : list Color :=
  let tail := drop (length bytes - 768) bytes in
  map (fun i => rgba (nth (Z.to_nat (3 * i)) tail 0)
                     (nth (Z.to_nat (3 * i + 1)) tail 0)
                     (nth (Z.to_nat (3 * i + 2)) tail 0)
                     (if useTransparency && (i =? 0) then 0 else 255))
      (seqZ 0 256).

(** The raster after the orientation flags: the pixel at row [y], column [x]
    comes from row [H - 1 - y] when inverted and from column [W - 1 - x]
    when mirrored. *)
Definition oriented (mirror invert : bool) (W H : Z) (px : list Z) : list Z :=
  map (fun i =>
         let y := i / W in
         let x := i mod W in
         pixel_at px W (if invert then H - 1 - y else y)
                       (if mirror then W - 1 - x else x))
      (seqZ 0 (W * H)).

(** The flags word of a PID header with the given properties. *)
Definition flags_word (transparent mirror invert rle own_palette : bool) : Z :=
  (if transparent then 1 else 0) + (if mirror then 8 else 0)
  + (if invert then 16 else 0) + (if rle then 32 else 0)
  + (if own_palette then 128 else 0).

(** The palette of a PID file: its own, or the default one; index 0 of a
    transparent image has alpha 0. *)
Definition pid_palette (file : list Z) (transparent own_palette : bool)
  : list Color :=
  if own_palette then embedded_palette file transparent
  else if transparent then <[0%nat := rgba 0 0 0 0]> defaultPalette
       else defaultPalette.

(** The colours the BMP and TGA files show: index 0 of a transparent image
    is black. *)
Definition black_key (pal : list Color) (useTransparency : bool)
  : list Color :=
  if useTransparency then <[0%nat := rgba 0 0 0 0]> pal else pal.

(** PNG: a chunk as the encoder frames it: the big-endian length of the data,
    the type, the data, and the big-endian CRC the encoder computes. *)
Definition png_chunk (type : string) (data : list Z) : list Z :=
  be32_bytes (Z.of_nat (length data)) ++ PNG.bytes_of_string type ++ data
  ++ be32_bytes (PNG.stored_crc type data).

(** PNG: the file of a raster: signature, IHDR (width, height, bit depth 8,
    colour type 3, 2 or 6, no interlace), PLTE and tRNS in the 8-bit mode,
    IDAT with the deflated scanlines, IEND. *)
Definition png_file (mode : PNGMode) (zlib : PNG.Zlib) (px : list Z)
    (W H : Z) (pal : list Color) (useTransparency : bool) : list Z :=
  [137; 80; 78; 71; 13; 10; 26; 10]
  ++ png_chunk "IHDR"
       (be32_bytes W ++ be32_bytes H
        ++ [8; match mode with PNG_8 => 3 | PNG_24 => 2 | PNG_32 => 6 end;
            0; 0; 0])
  ++ match mode with
     | PNG_8 =>
         png_chunk "PLTE" (rgb_map pal)
         ++ (if useTransparency
             then png_chunk "tRNS" (0 :: replicate 255 255) else [])
     | _ => []
     end
  ++ png_chunk "IDAT"
       (PNG.deflate zlib (scanlines mode px W H pal useTransparency))
  ++ png_chunk "IEND" [].

(** BMP: what the row buffer of width [W] holds between two rows. *)
Definition row_buffer (W : Z) (row : list Z) : Prop :=
  Z.of_nat (length row) = bmp_row_size W /\
  drop (Z.to_nat (W * 3)) row
  = replicate (Z.to_nat (bmp_row_size W - W * 3)) 0.


(** ** The plugin interface (DUCI)

    The strings the host passes are Delphi [ShortString]s.  A [const char *]
    argument is modelled by [option string]: [None] is the null pointer and
    [Some s] a C string whose characters, up to the first NUL, are those of
    [s].  [_stricmp] is taken in the C locale, where only the letters A to Z
    have a lower-case form. *)
Module DUCI.

(** [struct ShortString { unsigned char len; char data[255]; }] *)
Record ShortString := mkShortString {
len : Z;
data : list ascii
}.

(** The values a [ShortString] object can hold. *)
Definition well_formed (ss : ShortString) : Prop :=
0 <= len ss <= 255 /\ length (data ss) = 255%nat.

(** The characters of a C string: those before the first NUL. *)
Fixpoint c_str (s : string) : string :=
match s with
| EmptyString => EmptyString
| String c rest =>
    if Ascii.eqb c zero then EmptyString else String c (c_str rest)
end.

(** [std::strlen] *)
Definition strlen (s : string) : Z := Z.of_nat (String.length (c_str s)).

(** [ShortStringToString] *)
Definition ShortStringToString (ss : ShortString) : string :=
let len := if 255 <? len ss then 255 else len ss in
string_of_list_ascii (take (Z.to_nat len) (data ss)).

(** [ShortStringPtrToString] *)
Definition ShortStringPtrToString (ss : option ShortString) : string :=
match ss with
| Some ss => ShortStringToString ss
| None => EmptyString
end.

(** [WriteShortString] *)
Definition WriteShortString (dst : ShortString) (src : option string)
: ShortString :=
match src with
| None => {| len := 0; data := data dst |}
| Some src =>
    let srcLen := strlen src in
    let len := to_u8 (if 255 <? srcLen then 255 else srcLen) in
    let copied :=
      if negb (len =? 0)
      then take (Z.to_nat len) (list_ascii_of_string (c_str src))
           ++ drop (Z.to_nat len) (data dst)
      else data dst in
    {| len := len;
       data := if len <? 255 then <[Z.to_nat len := zero]> copied
               else copied |}
end.

(** [ShortStringToCStr]: the contents of [dest] afterwards. *)
Definition ShortStringToCStr (src : option ShortString) (dest : list ascii)
  (destSize : Z) : exec (list ascii) :=
if destSize =? 0 then Done dest
else
  match src with
  | None => vec_set dest 0 zero
  | Some src =>
      if len src =? 0 then vec_set dest 0 zero
      else
        (let n := to_int (len src) in
         let* n := if to_int destSize <=? n
                   then int_val (to_int destSize - 1)
                   else Done n in
         let* chars := vec_slice (data src) 0 n in
         let* dest := if n <=? Z.of_nat (length dest)
                      then Done (chars ++ drop (Z.to_nat n) dest)
                      else UB in
         vec_set dest n zero)%exec
  end.

(** [s.rfind(c)]: the index of the last [c] of [s], [None] for [npos]. *)
Fixpoint rfind (s : string) (c : ascii) : option nat :=
match s with
| EmptyString => None
| String x rest =>
    match rfind rest c with
    | Some i => Some (S i)
    | None => if Ascii.eqb x c then Some O else None
    end
end.

(** [s.substr(pos)] for [pos <= s.size()]. *)
Fixpoint substr (s : string) (pos : nat) : string :=
match pos, s with
| O, _ => s
| S p, String _ rest => substr rest p
| S _, EmptyString => EmptyString
end.

(** [tolower] in the C locale. *)
Definition tolower (c : ascii) : ascii :=
let n := N_of_ascii c in
if ((65 <=? n) && (n <=? 90))%N then ascii_of_N (n + 32) else c.

(** [_stricmp]: negative, zero or positive as the lower-cased strings
  compare. *)
Fixpoint _stricmp (s1 s2 : string) : Z :=
match s1, s2 with
| EmptyString, EmptyString => 0
| EmptyString, String _ _ => -1
| String _ _, EmptyString => 1
| String c1 r1, String c2 r2 =>
    let n1 := N_of_ascii (tolower c1) in
    let n2 := N_of_ascii (tolower c2) in
    if (n1 <? n2)%N then -1
    else if (n2 <? n1)%N then 1
    else _stricmp r1 r2
end.

(** [IsFileCompatible]: [true] for [TRUE]. *)
Definition IsFileCompatible (nam_ss fmt_ss : option ShortString) : bool :=
let nam := ShortStringPtrToString nam_ss in
if (String.length nam =? 0)%nat then false
else
  match rfind nam "."%char with
  | None => false
  | Some dot_pos =>
      let ext := substr nam dot_pos in
      _stricmp (c_str ext) ".pid" =? 0
  end.

(** [struct ConvertListElem] and [struct ConvertList] *)
Record ConvertListElem := mkConvertListElem {
Display : ShortString;
Ext : ShortString;
ID : ShortString
}.

Record ConvertList := mkConvertList {
NumFormats : Z;
List : list ConvertListElem
}.

(** [std::memset(&result, 0, sizeof(ConvertList))] *)
Definition zero_string : ShortString :=
{| len := 0; data := replicate 255 zero |}.

Definition zero_list : ConvertList :=
{| NumFormats := 0;
   List := replicate 255 {| Display := zero_string; Ext := zero_string;
                            ID := zero_string |} |}.

(** [std::to_string(static_cast<unsigned short>(mode))] *)
Definition mode_digits (mode : PNGMode) : string :=
match mode with
| PNG_8 => "8"
| PNG_24 => "24"
| PNG_32 => "32"
end.

(** The three [WriteShortString] calls that fill [result.List[i]]. *)
Definition fill_entry (result : ConvertList) (i : nat)
  (display ext id : string) : ConvertList :=
match List result !! i with
| Some e =>
    {| NumFormats := NumFormats result;
       List := <[i := {| Display := WriteShortString (Display e)
                                      (Some display);
                         Ext := WriteShortString (Ext e) (Some ext);
                         ID := WriteShortString (ID e) (Some id) |}]>
                 (List result) |}
| None => result
end.

(** [GetFileConvert] *)
Definition GetFileConvert (g_default_PNG_Mode : PNGMode)
  (nam_ss fmt_ss : option ShortString) : ConvertList :=
let result := zero_list in
let nam := ShortStringPtrToString nam_ss in
match rfind nam "."%char with
| None => result
| Some dot_pos =>
    if negb (_stricmp (c_str (substr nam dot_pos)) ".PID" =? 0)
    then result
    else
      let result := {| NumFormats := 3; List := List result |} in
      let result := fill_entry result 0 "BMP - Windows Bitmap (24bpp)"
                               "bmp" "BMP" in
      let result := fill_entry result 1 "TGA - Targa (8bpp Colormap)"
                               "tga" "TGA8" in
      fill_entry result 2
        ("PNG - Portable Network Graphics ("
         ++ mode_digits g_default_PNG_Mode ++ "bpp)")
        "png" "PNG"
end.

(** [ConvertStream]: the value returned and the destination afterwards. *)
Definition ConvertStream (g_default_PNG_Mode : PNGMode) (zlib : PNG.Zlib)
  (src dst : TStream) (nam_ss fmt_ss cnv_ss : option ShortString)
: exec Z * TStream :=
let nam := ShortStringPtrToString nam_ss in
let cnv := ShortStringPtrToString cnv_ss in
if (String.length nam =? 0)%nat || (String.length cnv =? 0)%nat
then (Done 1, dst)
else Convert.ConvertPID g_default_PNG_Mode zlib src dst (c_str cnv).

End DUCI.

(** A [.pid] extension as the host may spell it: a dot and the letters p, i
    and d in either case, at the end of the name or followed by a NUL, with
    no later dot. *)
Definition pid_extension (ext : string) : Prop :=
  exists c1 c2 c3 rest,
    ext = String "." (String c1 (String c2 (String c3 rest))) /\
    (c1 = "p" \/ c1 = "P")%char /\
    (c2 = "i" \/ c2 = "I")%char /\
    (c3 = "d" \/ c3 = "D")%char /\
    (rest = EmptyString \/ exists r, rest = String zero r) /\
    ~ In "."%char (list_ascii_of_string rest).

(** * Proofs

    ** Facts about the stream *)
Section StreamFacts.

Variable s : TStream.
Hypothesis Hpos : 0 <= position s.

Lemma remaining_length :
  length (remaining s) = (length (content s) - Z.to_nat (position s))%nat.
Proof. unfold remaining. apply length_drop. Qed.

Lemma read_byte_nil :
  remaining s = [] -> Wrapper.read_byte s = (None, s).
Proof.
  intros Hrem.
  assert (Hlen := remaining_length). rewrite Hrem in Hlen. simpl in Hlen.
  unfold Wrapper.read_byte, Wrapper.read, Host.Read, Wrapper.clamp_count,
    stream_size.
  simpl.
  destruct (0 <=? position s) eqn:Hp; [|lia]. simpl.
  destruct (0 <? Z.of_nat (length (content s)) - position s) eqn:Hav;
    [lia | reflexivity].
Qed.

Lemma read_byte_cons b rest :
  remaining s = b :: rest ->
  Wrapper.read_byte s = (Some b, set_position s (position s + 1)).
Proof.
  intros Hrem.
  assert (Hlen := remaining_length). rewrite Hrem in Hlen. simpl in Hlen.
  unfold Wrapper.read_byte, Wrapper.read, Host.Read, Wrapper.clamp_count,
    stream_size.
  simpl.
  destruct (0 <=? position s) eqn:Hp; [|lia]. simpl.
  destruct (0 <? Z.of_nat (length (content s)) - position s) eqn:Hav;
    [|lia].
  replace (Z.min (Z.of_nat (length (content s)) - position s) 1) with 1
    by lia.
  rewrite Hrem. reflexivity.
Qed.

Lemma remaining_advance k :
  0 <= k ->
  remaining (set_position s (position s + k))
  = drop (Z.to_nat k) (remaining s).
Proof.
  intros Hk. unfold remaining. simpl.
  rewrite drop_drop. f_equal. lia.
Qed.

End StreamFacts.

(** ** The specification's expansions *)

Lemma expandA_fuel_more fuel1 : forall fuel2 bs,
  (length bs <= fuel1)%nat -> (length bs <= fuel2)%nat ->
  expandA_fuel fuel1 bs = expandA_fuel fuel2 bs.
Proof.
  induction fuel1 as [|fuel1 IH]; intros fuel2 bs H1 H2.
  - destruct bs; [|simpl in H1; lia]. destruct fuel2; reflexivity.
  - destruct fuel2 as [|fuel2].
    + destruct bs; [reflexivity | simpl in H2; lia].
    + destruct bs as [|A rest]; [reflexivity|]. simpl in *.
      destruct (128 <? A).
      * f_equal. apply IH; lia.
      * f_equal. apply IH; rewrite length_drop; lia.
  Qed.

Lemma expandA_nil : expandA [] = [].
Proof. reflexivity. Qed.

Lemma expandA_cons A rest :
  expandA (A :: rest) =
  if 128 <? A
  then replicate (Z.to_nat (A - 128)) 0 ++ expandA rest
  else take (Z.to_nat A) rest ++ expandA (drop (Z.to_nat A) rest).
Proof.
  unfold expandA. simpl.
  destruct (128 <? A).
  - reflexivity.
  - f_equal. apply expandA_fuel_more; rewrite length_drop; lia.
Qed.

Lemma expandB_fuel_more fuel1 : forall fuel2 bs,
  (length bs <= fuel1)%nat -> (length bs <= fuel2)%nat ->
  expandB_fuel fuel1 bs = expandB_fuel fuel2 bs.
Proof.
  induction fuel1 as [|fuel1 IH]; intros fuel2 bs H1 H2.
  - destruct bs; [|simpl in H1; lia]. destruct fuel2; reflexivity.
  - destruct fuel2 as [|fuel2].
    + destruct bs; [reflexivity | simpl in H2; lia].
    + destruct bs as [|A rest]; [reflexivity|]. simpl in *.
      destruct (192 <? A).
      * destruct rest as [|B rest']; [reflexivity|]. simpl in *.
        f_equal. apply IH; lia.
      * f_equal. apply IH; lia.
Qed.

Lemma expandB_nil : expandB [] = [].
Proof. reflexivity. Qed.

Lemma expandB_cons A rest :
  expandB (A :: rest) =
  if 192 <? A then
    match rest with
    | [] => []
    | B :: rest' => replicate (Z.to_nat (A - 192)) B ++ expandB rest'
    end
  else A :: expandB rest.
Proof.
  unfold expandB. destruct rest as [|B rest'].
  - simpl. destruct (192 <? A); reflexivity.
  - change (expandB_fuel (length (A :: B :: rest')) (A :: B :: rest'))
      with (if 192 <? A
            then replicate (Z.to_nat (A - 192)) B
                 ++ expandB_fuel (S (length rest')) rest'
            else A :: expandB_fuel (S (length rest')) (B :: rest')).
    destruct (192 <? A).
    + f_equal. apply expandB_fuel_more; simpl; lia.
    + reflexivity.
Qed.

(** ** The decompressor *)
Module DecompressFacts.
Import Decompress.

Lemma emit_spec st v :
  0 <= pos st < size st ->
  emit st v = Done {| src := src st;
                      pixels := <[Z.to_nat (pos st) := v]> (pixels st);
                      pos := pos st + 1 |}.
Proof.
  intros H. unfold emit, vec_set, size in *.
  destruct (0 <=? pos st) eqn:E1; [|lia].
  destruct (pos st <? Z.of_nat (length (pixels st))) eqn:E2; [|lia].
  reflexivity.
Qed.

Lemma take_succ_insert (l : list Z) (p : nat) v :
  (p < length l)%nat ->
  take (S p) (<[p := v]> l) = take p l ++ [v].
Proof.
  intros H.
  rewrite (take_S_r _ _ v) by (apply list_lookup_insert_eq; lia).
  rewrite take_insert_ge by lia. reflexivity.
Qed.

(** A fill run writes [min n (size - pos)] copies and reads nothing. *)
Lemma fill_run_spec n v : forall st,
  0 <= pos st <= size st ->
  let k := Z.min (Z.of_nat n) (size st - pos st) in
  exists st',
    fill_run n v st = Done st' /\
    src st' = src st /\
    pos st' = pos st + k /\
    length (pixels st') = length (pixels st) /\
    take (Z.to_nat (pos st')) (pixels st')
    = take (Z.to_nat (pos st)) (pixels st) ++ replicate (Z.to_nat k) v.
Proof.
  induction n as [|n IH]; intros st Hpos k.
  - exists st. assert (Hk : k = 0) by (subst k; lia).
    clearbody k. subst k. cbn [fill_run Z.to_nat replicate].
    rewrite Z.add_0_r, app_nil_r. auto.
  - cbn [fill_run]. destruct (pos st <? size st) eqn:E.
    + rewrite emit_spec by lia. simpl.
      set (st1 := {| src := src st;
                     pixels := <[Z.to_nat (pos st) := v]> (pixels st);
                     pos := pos st + 1 |}).
      assert (Hsz : size st1 = size st)
        by (unfold size, st1; simpl; rewrite length_insert; reflexivity).
      destruct (IH st1) as (st' & Hrun & Hsrc & Hp & Hlen & Htake).
      { rewrite Hsz. simpl. lia. }
      exists st'. rewrite Hsz in *. simpl in *.
      split; [exact Hrun|]. split; [exact Hsrc|].
      split; [subst k; lia|].
      split; [rewrite Hlen, length_insert; reflexivity|].
      rewrite Htake.
      replace (Z.to_nat (pos st + 1)) with (S (Z.to_nat (pos st))) by lia.
      rewrite take_succ_insert by (unfold size in *; lia).
      rewrite <- app_assoc. f_equal.
      subst k.
      replace (Z.to_nat (Z.min (Z.of_nat (S n)) (size st - pos st)))
        with (S (Z.to_nat (Z.min (Z.of_nat n) (size st - (pos st + 1)))))
        by lia.
      reflexivity.
    + exists st. assert (Hk : k = 0) by (subst k; lia).
      clearbody k. subst k. cbn [Z.to_nat replicate].
      rewrite Z.add_0_r, app_nil_r. auto.
Qed.

(** A literal run copies [min n (size - pos)] bytes of the stream if that
    many are left, and marks the failure otherwise. *)
Lemma literal_run_spec n : forall st,
  wf st ->
  let k := Z.min (Z.of_nat n) (size st - pos st) in
  let bs := remaining (src st) in
  exists st',
    literal_run n st = Done st' /\
    length (pixels st') = length (pixels st) /\
    (k <= Z.of_nat (length bs) ->
       src st' = set_position (src st) (position (src st) + k) /\
       pos st' = pos st + k /\
       take (Z.to_nat (pos st')) (pixels st')
       = take (Z.to_nat (pos st)) (pixels st) ++ take (Z.to_nat k) bs) /\
    (Z.of_nat (length bs) < k -> pos st' = SIZE_MAX).
Proof.
  induction n as [|n IH]; intros st [Hs Hpos] k bs.
  - exists st. assert (Hk : k = 0) by (subst k; lia).
    clearbody k. subst k. cbn [literal_run Z.to_nat take].
    rewrite !Z.add_0_r, app_nil_r.
    split; [reflexivity|]. split; [reflexivity|].
    split; [|intros; lia]. intros _.
    split; [destruct (src st); reflexivity|]. split; reflexivity.
  - cbn [literal_run]. destruct (pos st <? size st) eqn:E.
    + destruct bs as [|B rest] eqn:Hbs.
      * rewrite (read_byte_nil _ Hs Hbs).
        eexists. split; [reflexivity|]. simpl.
        split; [reflexivity|]. split; [subst k; lia | reflexivity].
      * rewrite (read_byte_cons _ Hs _ _ Hbs).
        set (s1 := set_position (src st) (position (src st) + 1)).
        rewrite emit_spec by (simpl; unfold size in *; simpl; lia).
        simpl.
        set (st1 := {| src := s1;
                       pixels := <[Z.to_nat (pos st) := B]> (pixels st);
                       pos := pos st + 1 |}).
        assert (Hsz : size st1 = size st)
          by (unfold size, st1; simpl; rewrite length_insert; reflexivity).
        assert (Hrem1 : remaining (src st1) = rest).
        { unfold st1, s1. simpl. rewrite remaining_advance by lia.
          fold bs. rewrite Hbs. reflexivity. }
        destruct (IH st1) as (st' & Hrun & Hlen & Hok & Hfail).
        { split; simpl; [lia | rewrite Hsz; simpl; lia]. }
        rewrite Hsz, Hrem1 in *. simpl in Hok, Hfail.
        exists st'. split; [exact Hrun|].
        split; [rewrite Hlen; simpl; apply length_insert|].
        assert (Hk : k = Z.min (Z.of_nat n) (size st - (pos st + 1)) + 1)
          by (subst k; lia).
        split.
        -- intros Hle. simpl in Hle.
           destruct Hok as (Hsrc & Hp & Htake); [lia|].
           split.
           { rewrite Hsrc. unfold s1, set_position. simpl. f_equal. lia. }
           split; [lia|].
           rewrite Htake. simpl.
           replace (Z.to_nat (pos st + 1)) with (S (Z.to_nat (pos st)))
             by lia.
           rewrite take_succ_insert by (unfold size in *; lia).
           rewrite <- app_assoc. f_equal.
           rewrite Hk.
           replace (Z.to_nat (Z.min (Z.of_nat n) (size st - (pos st + 1)) + 1))
             with (S (Z.to_nat (Z.min (Z.of_nat n) (size st - (pos st + 1)))))
             by lia.
           reflexivity.
        -- intros Hlt. simpl in Hlt. apply Hfail. lia.
    + exists st. assert (Hk : k = 0) by (subst k; lia).
      clearbody k. subst k. cbn [Z.to_nat take].
      rewrite !Z.add_0_r, app_nil_r.
      split; [reflexivity|]. split; [reflexivity|].
      split; [|intros; lia]. intros _.
      split; [destruct (src st); reflexivity|]. split; reflexivity.
Qed.


Lemma take_across (l1 l2 : list Z) (need k : nat) :
  k = Nat.min need (length l1) ->
  take need (l1 ++ l2) = take k l1 ++ take (need - k) l2.
Proof.
  intros ->. rewrite take_app.
  destruct (Nat.le_gt_cases need (length l1)).
  - rewrite Nat.min_l by lia. do 2 f_equal. lia.
  - rewrite Nat.min_r by lia. rewrite (take_ge l1 need) by lia.
    rewrite firstn_all. reflexivity.
Qed.

(** [lia] after unfolding the local definitions of the context. *)
Ltac zlia :=
  repeat match goal with x := _ |- _ => subst x end;
  unfold size in *; cbn [pixels pos src] in *; lia.

(** One fill run followed by the rest of a loop, against an expansion
    that starts with the run. *)
Lemma fill_then_loop (loop : state -> exec state) (st1 : state)
    (c : nat) (v : Z) (e2 : list Z) :
  0 <= pos st1 <= size st1 ->
  (forall st2,
      src st2 = src st1 -> size st2 = size st1 ->
      pos st1 <= pos st2 <= size st1 ->
      let need2 := Z.to_nat (size st2 - pos st2) in
      exists st',
        loop st2 = Done st' /\
        length (pixels st') = length (pixels st2) /\
        ((need2 <= length e2)%nat ->
           pos st' = size st2 /\
           pixels st' = take (Z.to_nat (pos st2)) (pixels st2)
                        ++ take need2 e2) /\
        ((length e2 < need2)%nat -> pos st' <> size st2)) ->
  let need := Z.to_nat (size st1 - pos st1) in
  let e := replicate c v ++ e2 in
  exists st',
    ebind (fill_run c v st1) loop = Done st' /\
    length (pixels st') = length (pixels st1) /\
    ((need <= length e)%nat ->
       pos st' = size st1 /\
       pixels st' = take (Z.to_nat (pos st1)) (pixels st1) ++ take need e) /\
    ((length e < need)%nat -> pos st' <> size st1).
Proof.
  intros Hpos Hloop need e.
  destruct (fill_run_spec c v st1)
    as (st2 & Hrun & Hsrc2 & Hp2 & Hlen2 & Htake2); [exact Hpos|].
  rewrite Hrun. cbn [ebind].
  assert (Hsz2 : size st2 = size st1)
    by (unfold size; rewrite Hlen2; reflexivity).
  destruct (Hloop st2 Hsrc2 Hsz2) as (st' & Hl & Hlen' & Hok & Hfail);
    [lia|].
  rewrite Hsz2 in Hok, Hfail.
  exists st'. split; [exact Hl|].
  split; [rewrite Hlen', Hlen2; reflexivity|].
  subst e. rewrite length_app, length_replicate.
  split.
  - intros Hle. destruct Hok as [Hp' Hpx']; [zlia|].
    split; [exact Hp'|]. rewrite Hpx', Htake2, <- app_assoc. f_equal.
    rewrite (take_across _ _ need
               (Z.to_nat (Z.min (Z.of_nat c) (size st1 - pos st1))))
      by (rewrite length_replicate; zlia).
    rewrite take_replicate.
    f_equal; [f_equal; zlia | f_equal; zlia].
  - intros Hlt. apply Hfail. zlia.
Qed.

(** The loop of grammar A against [expandA]. *)
Lemma rle_loop_spec fuel : forall st,
  wf st ->
  (length (remaining (src st)) < fuel)%nat ->
  size st < SIZE_MAX ->
  let need := Z.to_nat (size st - pos st) in
  let e := expandA (remaining (src st)) in
  exists st',
    rle_loop fuel st = Done st' /\
    length (pixels st') = length (pixels st) /\
    ((need <= length e)%nat ->
       pos st' = size st /\
       pixels st' = take (Z.to_nat (pos st)) (pixels st) ++ take need e) /\
    ((length e < need)%nat -> pos st' <> size st).
Proof.
  induction fuel as [|fuel IH]; intros st [Hs Hpos] Hfuel Hmax need e;
    [zlia|].
  cbn [rle_loop]. destruct (pos st <? size st) eqn:E.
  2:{ exists st. split; [reflexivity|]. split; [reflexivity|].
      assert (Hn : need = 0%nat) by (subst need; zlia).
      split; [|zlia]. intros _. split; [zlia|].
      rewrite Hn, take_0, app_nil_r.
      symmetry. apply take_ge. unfold size in *. zlia. }
  destruct (remaining (src st)) as [|A rest] eqn:Hbs.
  { rewrite (read_byte_nil _ Hs Hbs). eexists. split; [reflexivity|].
    cbn [pixels pos]. split; [reflexivity|].
    subst e. rewrite expandA_nil. cbn [length].
    split; [zlia|]. intros _. zlia. }
  rewrite (read_byte_cons _ Hs _ _ Hbs).
  set (s1 := set_position (src st) (position (src st) + 1)).
  set (st1 := {| src := s1; pixels := pixels st; pos := pos st |}).
  assert (Hrem1 : remaining s1 = rest).
  { unfold s1. rewrite remaining_advance by zlia. rewrite Hbs. reflexivity. }
  assert (Hsz1 : size st1 = size st) by reflexivity.
  subst e. rewrite expandA_cons.
  destruct (128 <? A) eqn:EA.
  - (* a fill run *)
    apply (fill_then_loop (rle_loop fuel) st1); [exact Hpos|].
    intros st2 Hsrc2 Hsz2 Hp2. rewrite Hsz1 in Hsz2, Hp2.
    cbn [src pos st1] in Hsrc2, Hp2.
    rewrite <- Hrem1, <- Hsrc2.
    apply IH.
    + split; [rewrite Hsrc2; unfold s1; simpl; zlia | rewrite Hsz2; zlia].
    + rewrite Hsrc2, Hrem1. simpl in Hfuel. zlia.
    + rewrite Hsz2. exact Hmax.
  - (* a literal run *)
    destruct (literal_run_spec (Z.to_nat A) st1)
      as (st2 & Hrun & Hlen2 & Hcopy & Hshort);
      [split; [unfold st1, s1; simpl; lia | exact Hpos]|].
    rewrite Hrun. cbn [ebind].
    unfold st1, size in Hlen2, Hcopy, Hshort.
    cbn [pos pixels src] in Hlen2, Hcopy, Hshort.
    fold (size st) in Hcopy, Hshort.
    rewrite Hrem1 in Hcopy, Hshort.
    assert (Hsz2 : size st2 = size st)
      by (unfold size; rewrite Hlen2; reflexivity).
    set (a := Z.to_nat A) in *.
    set (k := Z.min (Z.of_nat a) (size st - pos st)) in *.
    destruct (Z.lt_ge_cases (Z.of_nat (length rest)) k) as [Hfew|Hmany].
    + (* the stream ends inside the run *)
      rewrite (Hshort Hfew). rewrite Z.eqb_refl.
      exists st2. split; [reflexivity|]. split; [exact Hlen2|].
      rewrite take_ge, drop_ge by zlia. rewrite expandA_nil, app_nil_r.
      split; [subst need; zlia|].
      intros _. rewrite (Hshort Hfew). zlia.
    + destruct (Hcopy Hmany) as (Hsrc2 & Hp2 & Htake2).
      destruct (pos st2 =? SIZE_MAX) eqn:Emax; [zlia|].
      assert (Hrem2 : remaining (src st2) = drop (Z.to_nat k) rest).
      { rewrite Hsrc2. rewrite <- Hrem1.
        apply (remaining_advance s1); unfold s1; simpl; zlia. }
      destruct (IH st2) as (st' & Hloop & Hlen' & Hok & Hfail).
      { split; [rewrite Hsrc2; simpl; zlia | rewrite Hsz2; zlia]. }
      { rewrite Hrem2, length_drop. simpl in Hfuel. zlia. }
      { rewrite Hsz2. exact Hmax. }
      rewrite Hrem2, Hsz2 in Hok, Hfail.
      exists st'. split; [exact Hloop|].
      split; [rewrite Hlen', Hlen2; reflexivity|].
      rewrite length_app, length_take.
      destruct (Z.le_gt_cases (Z.of_nat a) (size st - pos st)) as [Hka|Hka].
      * (* the whole run fits *)
        assert (Hk : Z.to_nat k = a) by zlia. rewrite Hk in *.
        split.
        -- intros Hle. destruct Hok as [Hp' Hpx']; [zlia|].
           split; [exact Hp'|]. rewrite Hpx', Htake2, <- app_assoc. f_equal.
           rewrite (take_across _ _ need a)
             by (rewrite length_take; subst need; zlia).
           rewrite take_take, Nat.min_id.
           f_equal. f_equal. subst need. zlia.
        -- intros Hlt. apply Hfail. zlia.
      * (* the raster fills inside the run *)
        assert (Hk : Z.to_nat k = need) by (subst need; zlia).
        split; [|zlia]. intros _.
        destruct Hok as [Hp' Hpx']; [zlia|].
        split; [exact Hp'|]. rewrite Hpx', Htake2, <- app_assoc. f_equal.
        replace (Z.to_nat (size st - pos st2)) with 0%nat by zlia.
        rewrite take_0, app_nil_r, Hk.
        rewrite take_app_le by (rewrite length_take; zlia).
        rewrite take_take. f_equal. zlia.
Qed.


(** The loop of grammar B against [expandB]. *)
Lemma raw_loop_spec fuel : forall st,
  wf st ->
  (length (remaining (src st)) < fuel)%nat ->
  let need := Z.to_nat (size st - pos st) in
  let e := expandB (remaining (src st)) in
  exists st',
    raw_loop fuel st = Done st' /\
    length (pixels st') = length (pixels st) /\
    ((need <= length e)%nat ->
       pos st' = size st /\
       pixels st' = take (Z.to_nat (pos st)) (pixels st) ++ take need e) /\
    ((length e < need)%nat -> pos st' <> size st).
Proof.
  induction fuel as [|fuel IH]; intros st [Hs Hpos] Hfuel need e; [lia|].
  cbn [raw_loop]. destruct (pos st <? size st) eqn:E.
  2:{ exists st. split; [reflexivity|]. split; [reflexivity|].
      assert (Hn : need = 0%nat) by zlia.
      split; [|lia]. intros _. split; [lia|].
      rewrite Hn, take_0, app_nil_r.
      symmetry. apply take_ge. zlia. }
  destruct (remaining (src st)) as [|A rest] eqn:Hbs.
  { rewrite (read_byte_nil _ Hs Hbs). eexists. split; [reflexivity|].
    cbn [pixels pos]. split; [reflexivity|].
    subst e. rewrite expandB_nil. cbn [length].
    split; [zlia|]. intros _. lia. }
  rewrite (read_byte_cons _ Hs _ _ Hbs).
  set (s1 := set_position (src st) (position (src st) + 1)).
  assert (Hs1 : 0 <= position s1) by (unfold s1; simpl; lia).
  assert (Hrem1 : remaining s1 = rest).
  { unfold s1. rewrite remaining_advance by lia. rewrite Hbs. reflexivity. }
  subst e. rewrite expandB_cons.
  destruct (192 <? A) eqn:EA.
  - destruct rest as [|B rest'].
    { rewrite (read_byte_nil _ Hs1 Hrem1). eexists.
      split; [reflexivity|]. cbn [pixels pos length].
      split; [reflexivity|]. split; [zlia|]. intros _. lia. }
    rewrite (read_byte_cons _ Hs1 _ _ Hrem1).
    set (s2 := set_position s1 (position s1 + 1)).
    assert (Hrem2 : remaining s2 = rest').
    { unfold s2. rewrite remaining_advance by lia. rewrite Hrem1.
      reflexivity. }
    apply (fill_then_loop (raw_loop fuel)
             {| src := s2; pixels := pixels st; pos := pos st |});
      [exact Hpos|].
    intros st2 Hsrc2 Hsz2 Hp2. cbn [src pos] in Hsrc2, Hp2.
    change (size {| src := s2; pixels := pixels st; pos := pos st |})
      with (size st) in *.
    rewrite <- Hrem2, <- Hsrc2.
    apply IH.
    + split; [rewrite Hsrc2; unfold s2; simpl; lia | rewrite Hsz2; lia].
    + rewrite Hsrc2, Hrem2. simpl in Hfuel. lia.
  - change (A :: expandB rest)
      with (replicate (Z.to_nat 1) A ++ expandB rest).
    apply (fill_then_loop (raw_loop fuel)
             {| src := s1; pixels := pixels st; pos := pos st |});
      [exact Hpos|].
    intros st2 Hsrc2 Hsz2 Hp2. cbn [src pos] in Hsrc2, Hp2.
    change (size {| src := s1; pixels := pixels st; pos := pos st |})
      with (size st) in *.
    rewrite <- Hrem1, <- Hsrc2.
    apply IH.
    + split; [rewrite Hsrc2; exact Hs1 | rewrite Hsz2; lia].
    + rewrite Hsrc2, Hrem1. simpl in Hfuel. lia.
Qed.


Lemma loop_done_A fuel st : size st <= pos st -> rle_loop fuel st = Done st.
Proof.
  intros H. destruct fuel; cbn [rle_loop];
    destruct (pos st <? size st) eqn:E; (lia || reflexivity).
Qed.

Lemma loop_done_B fuel st : size st <= pos st -> raw_loop fuel st = Done st.
Proof.
  intros H. destruct fuel; cbn [raw_loop];
    destruct (pos st <? size st) eqn:E; (lia || reflexivity).
Qed.

(** The whole decompressor against the expansion of what is left of the
    stream: it never leaves the raster nor runs out of iterations. *)
Lemma run_spec rle n s :
  0 <= position s -> 0 <= n < SIZE_MAX ->
  let e := expand rle (remaining s) in
  exists st,
    run rle n s = Done st /\
    Z.of_nat (length (pixels st)) = n /\
    (n <= Z.of_nat (length e) ->
       pos st = n /\ pixels st = take (Z.to_nat n) e) /\
    (Z.of_nat (length e) < n -> pos st <> n).
Proof.
  intros Hs Hn e. unfold run.
  set (st0 := {| src := s; pixels := replicate (Z.to_nat n) 0; pos := 0 |}).
  assert (Hsz : size st0 = n)
    by (unfold size, st0; simpl; rewrite length_replicate; lia).
  assert (Hwf : wf st0) by (split; simpl; lia).
  assert (Hfuel : (length (remaining (src st0)) < enough_fuel s)%nat)
    by (unfold enough_fuel; simpl; lia).
  destruct rle; subst e; unfold expand.
  - destruct (rle_loop_spec _ st0 Hwf Hfuel) as (st & Hrun & Hlen & Hok & Hko);
      [lia|].
    rewrite Hsz in *. cbn [src pos pixels st0] in *.
    rewrite Z.sub_0_r in *.
    exists st. split; [exact Hrun|].
    split; [rewrite Hlen, length_replicate; lia|].
    split; [intros H; apply Hok; lia | intros H; apply Hko; lia].
  - destruct (raw_loop_spec _ st0 Hwf Hfuel) as (st & Hrun & Hlen & Hok & Hko).
    rewrite Hsz in *. cbn [src pos pixels st0] in *.
    rewrite Z.sub_0_r in *.
    exists st. split; [exact Hrun|].
    split; [rewrite Hlen, length_replicate; lia|].
    split; [intros H; apply Hok; lia | intros H; apply Hko; lia].
Qed.

Lemma decompress_ok rle n s :
  0 <= position s -> 0 <= n < SIZE_MAX ->
  n <= Z.of_nat (length (expand rle (remaining s))) ->
  decompress rle n s = Done (take (Z.to_nat n) (expand rle (remaining s))).
Proof.
  intros Hs Hn Hle.
  destruct (run_spec rle n s Hs Hn) as (st & Hrun & Hlen & Hok & _).
  destruct (Hok Hle) as [Hp Hpx].
  unfold decompress, check. rewrite Hrun. cbn [ebind]. unfold size.
  rewrite Hlen, Hp, Z.eqb_refl, Hpx. reflexivity.
Qed.

Lemma decompress_short rle n s :
  0 <= position s -> 0 <= n < SIZE_MAX ->
  Z.of_nat (length (expand rle (remaining s))) < n ->
  decompress rle n s = Ret 1.
Proof.
  intros Hs Hn Hlt.
  destruct (run_spec rle n s Hs Hn) as (st & Hrun & Hlen & _ & Hko).
  specialize (Hko Hlt).
  unfold decompress, check. rewrite Hrun. cbn [ebind]. unfold size.
  rewrite Hlen. destruct (pos st =? n) eqn:E; [lia | reflexivity].
Qed.

(** A successful decompression yields exactly [n] indices. *)
Lemma decompress_length rle n s px :
  0 <= position s -> 0 <= n < SIZE_MAX ->
  decompress rle n s = Done px -> Z.of_nat (length px) = n.
Proof.
  intros Hs Hn.
  destruct (run_spec rle n s Hs Hn) as (st & Hrun & Hlen & _ & _).
  unfold decompress, check. rewrite Hrun. cbn [ebind].
  destruct (pos st =? size st); [|discriminate].
  intros [= <-]. exact Hlen.
Qed.

End DecompressFacts.

(** ** Runs cut short by the end of the raster *)
Module TruncationFacts.
Import Decompress DecompressFacts.

Lemma check_full st :
  pos st = size st -> check st = Done (pixels st).
Proof. intros H. unfold check. rewrite H, Z.eqb_refl. reflexivity. Qed.

Lemma pixels_full st (old : list Z) (new : list Z) :
  pos st = size st ->
  take (Z.to_nat (pos st)) (pixels st) = old ++ new ->
  pixels st = old ++ new.
Proof.
  intros Hp <-. symmetry. apply take_ge. unfold size in Hp. lia.
Qed.

Section OneRun.

Variables (st : state) (A : Z) (rest : list Z).
Hypothesis Hwf : wf st.
Hypothesis Hroom : pos st < size st.
Hypothesis Hrem : remaining (src st) = A :: rest.

Local Abbreviation need := (size st - pos st).

(** Grammar A, fill run. *)
Lemma fill_truncated fuel :
  128 < A -> need <= A - 128 ->
  exists st',
    rle_loop (S fuel) st = Done st' /\
    check st' = Done (pixels st') /\
    src st' = set_position (src st) (position (src st) + 1) /\
    pixels st' = take (Z.to_nat (pos st)) (pixels st)
                 ++ replicate (Z.to_nat need) 0.
Proof.
  destruct Hwf as [Hs Hpos]. intros HA Hneed.
  cbn [rle_loop].
  destruct (pos st <? size st) eqn:E; [|lia].
  rewrite (read_byte_cons _ Hs _ _ Hrem).
  destruct (128 <? A) eqn:EA; [|lia].
  destruct (fill_run_spec (Z.to_nat (A - 128)) 0
              {| src := set_position (src st) (position (src st) + 1);
                 pixels := pixels st; pos := pos st |})
    as (st2 & Hrun & Hsrc2 & Hp2 & Hlen2 & Htake2); [exact Hpos|].
  unfold size in Hp2, Htake2. cbn [src pixels pos] in *.
  fold (size st) in Hp2, Htake2.
  replace (Z.min (Z.of_nat (Z.to_nat (A - 128))) (size st - pos st))
    with need in * by (lia).
  assert (Hfull : pos st2 = size st2)
    by (unfold size; rewrite Hlen2; fold (size st); lia).
  rewrite Hrun. cbn [ebind]. rewrite loop_done_A by lia.
  exists st2. split; [reflexivity|].
  split; [apply check_full; exact Hfull|].
  split; [exact Hsrc2|].
  apply pixels_full; assumption.
Qed.

(** Grammar A, literal run. *)
Lemma literal_truncated fuel :
  A <= 128 -> need <= A -> need <= Z.of_nat (length rest) ->
  size st < SIZE_MAX ->
  exists st',
    rle_loop (S fuel) st = Done st' /\
    check st' = Done (pixels st') /\
    src st' = set_position (src st) (position (src st) + 1 + need) /\
    pixels st' = take (Z.to_nat (pos st)) (pixels st)
                 ++ take (Z.to_nat need) rest.
Proof.
  destruct Hwf as [Hs Hpos]. intros HA Hneed Hbytes Hmax.
  cbn [rle_loop].
  destruct (pos st <? size st) eqn:E; [|lia].
  rewrite (read_byte_cons _ Hs _ _ Hrem).
  destruct (128 <? A) eqn:EA; [lia|].
  set (s1 := set_position (src st) (position (src st) + 1)).
  assert (Hrem1 : remaining s1 = rest).
  { unfold s1. rewrite remaining_advance by lia. rewrite Hrem.
    reflexivity. }
  destruct (literal_run_spec (Z.to_nat A)
              {| src := s1; pixels := pixels st; pos := pos st |})
    as (st2 & Hrun & Hlen2 & Hcopy & _).
  { split; [unfold s1; simpl; lia | exact Hpos]. }
  unfold size in Hcopy. cbn [src pixels pos] in *.
  fold (size st) in Hcopy. rewrite Hrem1 in Hcopy.
  replace (Z.min (Z.of_nat (Z.to_nat A)) (size st - pos st))
    with need in * by (lia).
  destruct (Hcopy Hbytes) as (Hsrc2 & Hp2 & Htake2).
  assert (Hfull : pos st2 = size st2)
    by (unfold size; rewrite Hlen2; fold (size st); lia).
  rewrite Hrun. cbn [ebind].
  destruct (pos st2 =? SIZE_MAX) eqn:Emax;
    [unfold size in *; lia|].
  rewrite loop_done_A by lia.
  exists st2. split; [reflexivity|].
  split; [apply check_full; exact Hfull|].
  split.
  - rewrite Hsrc2. unfold s1, set_position. cbn [position content
      write_log host_accepts host_seek_faulty]. f_equal.
  - apply pixels_full; assumption.
Qed.

(** Grammar B, compressed run. *)
Lemma raw_truncated fuel B rest' :
  rest = B :: rest' ->
  192 < A -> need <= A - 192 ->
  exists st',
    raw_loop (S fuel) st = Done st' /\
    check st' = Done (pixels st') /\
    src st' = set_position (src st) (position (src st) + 2) /\
    pixels st' = take (Z.to_nat (pos st)) (pixels st)
                 ++ replicate (Z.to_nat need) B.
Proof.
  destruct Hwf as [Hs Hpos]. intros Hrest HA Hneed.
  cbn [raw_loop].
  destruct (pos st <? size st) eqn:E; [|lia].
  rewrite (read_byte_cons _ Hs _ _ Hrem).
  destruct (192 <? A) eqn:EA; [|lia].
  set (s1 := set_position (src st) (position (src st) + 1)).
  assert (Hs1 : 0 <= position s1) by (unfold s1; simpl; lia).
  assert (Hrem1 : remaining s1 = B :: rest').
  { unfold s1. rewrite remaining_advance by lia. rewrite Hrem, Hrest.
    reflexivity. }
  rewrite (read_byte_cons _ Hs1 _ _ Hrem1).
  destruct (fill_run_spec (Z.to_nat (A - 192)) B
              {| src := set_position s1 (position s1 + 1);
                 pixels := pixels st; pos := pos st |})
    as (st2 & Hrun & Hsrc2 & Hp2 & Hlen2 & Htake2); [exact Hpos|].
  unfold size in Hp2, Htake2. cbn [src pixels pos] in *.
  fold (size st) in Hp2, Htake2.
  replace (Z.min (Z.of_nat (Z.to_nat (A - 192))) (size st - pos st))
    with need in * by (lia).
  assert (Hfull : pos st2 = size st2)
    by (unfold size; rewrite Hlen2; fold (size st); lia).
  rewrite Hrun. cbn [ebind]. rewrite loop_done_B by lia.
  exists st2. split; [reflexivity|].
  split; [apply check_full; exact Hfull|].
  split.
  - rewrite Hsrc2. unfold s1, set_position. cbn [position content
      write_log host_accepts host_seek_faulty]. f_equal. lia.
  - apply pixels_full; assumption.
Qed.

(** Grammar A, literal run that the stream cannot feed. *)
Lemma literal_starved fuel :
  A <= 128 -> Z.of_nat (length rest) < Z.min A need ->
  size st < SIZE_MAX ->
  exists st',
    rle_loop (S fuel) st = Done st' /\
    check st' = Ret 1.
Proof.
  destruct Hwf as [Hs Hpos]. intros HA Hbytes Hmax.
  cbn [rle_loop].
  destruct (pos st <? size st) eqn:E; [|lia].
  rewrite (read_byte_cons _ Hs _ _ Hrem).
  destruct (128 <? A) eqn:EA; [lia|].
  set (s1 := set_position (src st) (position (src st) + 1)).
  assert (Hrem1 : remaining s1 = rest).
  { unfold s1. rewrite remaining_advance by lia. rewrite Hrem.
    reflexivity. }
  destruct (literal_run_spec (Z.to_nat A)
              {| src := s1; pixels := pixels st; pos := pos st |})
    as (st2 & Hrun & Hlen2 & _ & Hshort).
  { split; [unfold s1; simpl; lia | exact Hpos]. }
  unfold size in Hshort. cbn [src pixels pos] in *.
  fold (size st) in Hshort. rewrite Hrem1 in Hshort.
  assert (Hp2 : pos st2 = SIZE_MAX) by (apply Hshort; lia).
  rewrite Hrun. cbn [ebind]. rewrite Hp2, Z.eqb_refl.
  exists st2. split; [reflexivity|].
  unfold check, size. rewrite Hp2, Hlen2.
  destruct (SIZE_MAX =? Z.of_nat (length (pixels st))) eqn:E2;
    [unfold size in Hmax; lia | reflexivity].
Qed.

End OneRun.

End TruncationFacts.

(** ** Counted loops *)

(** A loop over [lo .. lo+n-1] whose body keeps an invariant indexed by the
    loop counter runs to its end and establishes the invariant there. *)
Lemma foldM_seqZ_inv {V} (body : Z -> V -> exec V) (P : Z -> V -> Prop)
    (n : nat) : forall (lo : Z) (s : V),
  P lo s ->
  (forall i s, lo <= i < lo + Z.of_nat n -> P i s ->
               exists s', body i s = Done s' /\ P (i + 1) s') ->
  exists s', foldM body (seqZ lo (Z.of_nat n)) s = Done s'
             /\ P (lo + Z.of_nat n) s'.
Proof.
  induction n as [|n IH]; intros lo s HP Hbody.
  - exists s. rewrite seqZ_nil by lia. rewrite Z.add_0_r. auto.
  - rewrite seqZ_cons by lia. cbn [foldM].
    destruct (Hbody lo s) as (s1 & Hb & HP1); [lia | exact HP |].
    rewrite Hb. cbn [ebind].
    replace (Z.pred (Z.of_nat (S n))) with (Z.of_nat n) by lia.
    destruct (IH (Z.succ lo) s1) as (s' & Hf & HP').
    + replace (Z.succ lo) with (lo + 1) by lia. exact HP1.
    + intros i s2 Hi. apply Hbody. lia.
    + exists s'. split; [exact Hf|].
      replace (lo + Z.of_nat (S n)) with (Z.succ lo + Z.of_nat n)
        by lia.
      exact HP'.
Qed.

Lemma vec_at_lookup {A} (v : list A) (i : Z) (x : A) :
  0 <= i -> v !! Z.to_nat i = Some x -> vec_at v i = Done x.
Proof.
  intros Hi Hx. unfold vec_at.
  destruct (0 <=? i) eqn:E; [|lia]. rewrite Hx. reflexivity.
Qed.

Lemma vec_at_in_range {A} (v : list A) (i : Z) :
  0 <= i < Z.of_nat (length v) ->
  exists x, v !! Z.to_nat i = Some x /\ vec_at v i = Done x.
Proof.
  intros Hi. destruct (lookup_lt_is_Some_2 v (Z.to_nat i)) as [x Hx]; [lia|].
  exists x. split; [exact Hx | apply vec_at_lookup; [lia | exact Hx]].
Qed.

Lemma vec_at_Done {A} (v : list A) (i : Z) (x : A) :
  vec_at v i = Done x ->
  0 <= i < Z.of_nat (length v) /\ v !! Z.to_nat i = Some x.
Proof.
  unfold vec_at. destruct (0 <=? i) eqn:E; [|discriminate].
  destruct (v !! Z.to_nat i) as [y|] eqn:Hy; [|discriminate].
  intros [= ->]. apply lookup_lt_Some in Hy as Hlt. split; [lia | reflexivity].
Qed.

Lemma vec_set_in_range {A} (v : list A) (i : Z) (x : A) :
  0 <= i < Z.of_nat (length v) ->
  vec_set v i x = Done (<[Z.to_nat i := x]> v).
Proof.
  intros Hi. unfold vec_set.
  destruct (0 <=? i) eqn:E1; [|lia].
  destruct (i <? Z.of_nat (length v)) eqn:E2; [|lia]. reflexivity.
Qed.

(** ** The orientation transform *)
Module OrientationFacts.
Import Orientation.

Section Flip.

Variables (mirror invert : bool) (W H : Z) (px : list Z).
Hypothesis HW : 0 < W.
Hypothesis HH : 0 < H.
Hypothesis Hlen : Z.of_nat (length px) = W * H.

Local Abbreviation srcX := (Orientation.srcX mirror W).
Local Abbreviation srcY := (Orientation.srcY invert H).
Local Abbreviation filled := (Orientation.filled mirror invert W H px).

Lemma srcX_range x : 0 <= x < W -> 0 <= srcX x < W.
Proof. unfold Orientation.srcX. destruct mirror; lia. Qed.

Lemma srcY_range y : 0 <= y < H -> 0 <= srcY y < H.
Proof. unfold Orientation.srcY. destruct invert; lia. Qed.

Lemma copy_pixel_filled y x bufs :
  0 <= y < H -> 0 <= x < W ->
  filled y x bufs ->
  exists bufs', copy_pixel mirror W y (srcY y) x bufs = Done bufs'
                /\ filled y (x + 1) bufs'.
Proof.
  intros Hy Hx (Hpx & Hfl & Hrel).
  pose proof (srcX_range x Hx) as HsX.
  pose proof (srcY_range y Hy) as HsY.
  unfold copy_pixel. rewrite Hpx.
  destruct (vec_at_in_range px (srcY y * W + srcX x)) as (v & Hv & Hat);
    [nia|].
  rewrite Hat. cbn [ebind].
  rewrite vec_set_in_range by (rewrite Hfl; nia).
  cbn [ebind]. eexists. split; [reflexivity|].
  split; [reflexivity|]. cbn [pixels flipped].
  split; [rewrite length_insert; exact Hfl|].
  intros y' x' Hx' Hy' Hreg.
  destruct (decide (y' = y /\ x' = x)) as [[-> ->]|Hne].
  - rewrite list_lookup_insert_eq by nia. symmetry. exact Hv.
  - rewrite list_lookup_insert_ne by nia. apply Hrel; [lia | lia | lia].
Qed.

Lemma copy_row_filled y bufs :
  0 <= y < H ->
  filled y 0 bufs ->
  exists bufs', copy_row mirror invert W H y bufs = Done bufs'
                /\ filled (y + 1) 0 bufs'.
Proof.
  intros Hy Hf. unfold copy_row.
  destruct (foldM_seqZ_inv (copy_pixel mirror W y (srcY y))
              (filled y) (Z.to_nat W) 0 bufs Hf) as (bufs' & Hrun & Hf').
  - intros x b Hx Hb. apply copy_pixel_filled; [lia | lia | exact Hb].
  - rewrite Z2Nat.id in Hrun, Hf' by lia.
    exists bufs'. split; [exact Hrun|].
    destruct Hf' as (Hpx & Hfl & Hrel).
    split; [exact Hpx|]. split; [exact Hfl|].
    intros y' x' Hx' Hy' Hreg. apply Hrel; lia.
Qed.

Lemma flip_filled :
  exists bufs, flip mirror invert W H px = Done bufs /\ filled H 0 bufs.
Proof.
  unfold flip.
  destruct (foldM_seqZ_inv (copy_row mirror invert W H)
              (fun y => filled y 0) (Z.to_nat H) 0
              {| pixels := px; flipped := replicate (length px) 0 |})
    as (bufs & Hrun & Hf).
  - split; [reflexivity|]. split; [apply length_replicate|].
    intros; lia.
  - intros y b Hy Hb. apply copy_row_filled; [lia | exact Hb].
  - rewrite Z2Nat.id in Hrun, Hf by lia. exists bufs. auto.
Qed.

End Flip.

End OrientationFacts.

(** ** Byte order *)

(** Decide, by the range of its index, every bit of the mask [255]. *)
Ltac mask_bits :=
  change 255 with (Z.ones 8);
  repeat match goal with
         | |- context [Z.testbit (Z.ones 8) ?m] =>
             first [ rewrite (Z.testbit_neg_r (Z.ones 8) m) by lia
                   | rewrite (Z.ones_spec_low 8 m) by lia
                   | rewrite (Z.ones_spec_high 8 m) by lia ]
         end;
  rewrite ?andb_true_r, ?andb_false_r, ?orb_false_r, ?orb_false_l.

Lemma byte_of_byteswap (v : Z) (k : Z) :
  k = 0 \/ k = 8 \/ k = 16 \/ k = 24 ->
  Z.land (Z.shiftr (_byteswap_ulong v) k) 255
  = Z.land (Z.shiftr v (24 - k)) 255.
Proof.
  intros Hk. unfold _byteswap_ulong.
  apply Z.bits_inj'. intros n Hn.
  rewrite !Z.land_spec.
  destruct (Z.lt_ge_cases n 8) as [Hlow|Hhigh].
  2:{ change 255 with (Z.ones 8). rewrite (Z.ones_spec_high 8 n) by lia.
      rewrite !andb_false_r. reflexivity. }
  repeat (rewrite ?Z.land_spec, ?Z.lor_spec, ?Z.shiftl_spec, ?Z.shiftr_spec
            by lia).
  destruct Hk as [->|[->|[->| ->]]]; mask_bits;
    rewrite ?Z.shiftr_spec by lia; f_equal; lia.
Qed.

Lemma mem_of_byteswap (v : Z) :
  mem_u32 (_byteswap_ulong v) = be32_bytes v.
Proof.
  unfold mem_u32, be32_bytes.
  rewrite <- (Z.shiftr_0_r (_byteswap_ulong v)) at 1.
  rewrite !byte_of_byteswap by lia.
  change 255 with (Z.ones 8). rewrite !Z.land_ones by lia.
  rewrite !Z.shiftr_div_pow2 by lia.
  change (24 - 0) with 24. change (24 - 8) with 16. change (24 - 16) with 8.
  change (24 - 24) with 0. change (2 ^ 0) with 1. rewrite Z.div_1_r.
  reflexivity.
Qed.

Lemma be32_of_bytes (v : Z) :
  0 <= v < 2 ^ 32 -> be32 (be32_bytes v) = v.
Proof.
  intros Hv. unfold be32, be32_bytes.
  change (2 ^ 32) with 4294967296 in Hv.
  change (2 ^ 24) with 16777216. change (2 ^ 16) with 65536.
  change (2 ^ 8) with 256.
  Z.div_mod_to_equations. lia.
Qed.

(** ** PNG chunks *)
Module PNGFacts.
Import PNG PNGReference.

Lemma vec_slice_prefix {A} (v : list A) (n : Z) :
  0 <= n <= Z.of_nat (length v) ->
  vec_slice v 0 n = Done (take (Z.to_nat n) v).
Proof.
  intros Hn. unfold vec_slice.
  destruct (0 <=? n) eqn:E1; [|lia].
  destruct (0 + n <=? Z.of_nat (length v)) eqn:E2; [|lia].
  reflexivity.
Qed.

(** [write_PNG_Chunk] appends one frame. *)
Lemma write_chunk_frame buffer type d len :
  length (bytes_of_string type) = 4%nat ->
  0 <= len <= Z.of_nat (length d) ->
  write_PNG_Chunk buffer type (Some d) len
  = Done (buffer ++ frame (bytes_of_string type) (take (Z.to_nat len) d)
                         (stored_crc type (take (Z.to_nat len) d))).
Proof.
  intros Ht Hlen. unfold write_PNG_Chunk, frame, stored_crc.
  rewrite !mem_of_byteswap.
  rewrite (take_ge (bytes_of_string type)) by lia.
  rewrite length_take_le by lia. rewrite Z2Nat.id by lia.
  destruct (0 <? len) eqn:E.
  - rewrite vec_slice_prefix by lia. cbn [ebind].
    rewrite ?mem_of_byteswap, <- !app_assoc. reflexivity.
  - assert (len = 0) as -> by lia. cbn [ebind Z.to_nat take].
    rewrite ?mem_of_byteswap, <- !app_assoc. reflexivity.
Qed.

Lemma write_chunk_empty buffer type :
  length (bytes_of_string type) = 4%nat ->
  write_PNG_Chunk buffer type None 0
  = Done (buffer ++ frame (bytes_of_string type) [] (stored_crc type [])).
Proof.
  intros Ht. unfold write_PNG_Chunk, frame, stored_crc.
  rewrite !mem_of_byteswap.
  rewrite (take_ge (bytes_of_string type)) by lia.
  cbn [ebind length Z.of_nat Z.ltb Z.compare].
  rewrite ?mem_of_byteswap, <- !app_assoc. reflexivity.
Qed.

(** A reader takes a frame off the front of the bytes. *)
Lemma read_chunks_frame fuel type data crc rest :
  length type = 4%nat ->
  Z.of_nat (length data) < 2 ^ 32 ->
  read_chunks (S fuel) (frame type data crc ++ rest)
  = match read_chunks fuel rest with
    | Some cs => Some ({| chunk_type := type; chunk_data := data;
                          chunk_crc := be32 (be32_bytes crc) |} :: cs)
    | None => None
    end.
Proof.
  intros Ht Hd.
  destruct type as [|t0 [|t1 [|t2 [|t3 [|]]]]]; try discriminate.
  unfold frame.
  set (n := length data).
  assert (Hbe : be32 (be32_bytes (Z.of_nat n)) = Z.of_nat n)
    by (apply be32_of_bytes; lia).
  unfold be32_bytes at 1.
  cbn [app read_chunks take].
  fold (be32_bytes (Z.of_nat n)). rewrite Hbe, Nat2Z.id.
  cbn [length drop].
  assert (Hc : length (be32_bytes crc) = 4%nat) by reflexivity.
  rewrite <- (app_assoc data).
  remember (data ++ be32_bytes crc ++ rest) as tail eqn:Htail.
  assert (Hlt : (S (S (S (S (S (S (S (S (length tail)))))))) <? 12 + n)%nat
                = false).
  { apply Nat.ltb_ge. rewrite Htail, !length_app. fold n. lia. }
  rewrite Hlt.
  change (12 + n)%nat with (S (S (S (S (S (S (S (S (4 + n)))))))))%nat.
  change (8 + n)%nat with (S (S (S (S (S (S (S (S n))))))))%nat.
  cbn [drop take].
  assert (Hdata : take n tail = data)
    by (rewrite Htail; apply take_app_length'; reflexivity).
  assert (Hcrc : take 4 (drop n tail) = be32_bytes crc).
  { rewrite Htail. rewrite drop_app_length' by reflexivity.
    apply take_app_length'. reflexivity. }
  assert (Hrest : drop (4 + n) tail = rest).
  { rewrite Htail. rewrite app_assoc. apply drop_app_length'.
    rewrite length_app. fold n. lia. }
  rewrite take_0, drop_0, Hdata, Hcrc, Hrest. reflexivity.
Qed.

End PNGFacts.

(** ** The assembled PNG buffer *)
Module AssembleFacts.
Import PNG PNGReference PNGFacts.

Lemma vec_slice_Done {A} (v : list A) lo n (l : list A) :
  vec_slice v lo n = Done l ->
  0 <= lo /\ 0 <= n /\ lo + n <= Z.of_nat (length v) /\
  l = take (Z.to_nat n) (drop (Z.to_nat lo) v).
Proof.
  unfold vec_slice.
  destruct (0 <=? lo) eqn:E1; [|discriminate].
  destruct (0 <=? n) eqn:E2; [|discriminate].
  destruct (lo + n <=? Z.of_nat (length v)) eqn:E3; [|discriminate].
  intros [= <-]. repeat split; lia.
Qed.

(** Whatever [write_PNG_Chunk] returns normally is the buffer plus one
    frame of [len] payload bytes. *)
Lemma write_chunk_Done buffer type d len b :
  length (bytes_of_string type) = 4%nat ->
  0 <= len ->
  write_PNG_Chunk buffer type (Some d) len = Done b ->
  exists payload,
    b = buffer ++ frame (bytes_of_string type) payload
                        (stored_crc type payload) /\
    payload = take (Z.to_nat len) d /\
    Z.of_nat (length payload) = len.
Proof.
  intros Ht Hlen Hw.
  assert (Hle : len <= Z.of_nat (length d)).
  { unfold write_PNG_Chunk in Hw.
    destruct (0 <? len) eqn:E; [|lia].
    destruct (vec_slice d 0 len) as [l| | |] eqn:Hs; try discriminate.
    apply vec_slice_Done in Hs. lia. }
  rewrite write_chunk_frame in Hw by lia. injection Hw as <-.
  eexists. split; [reflexivity|]. split; [reflexivity|].
  rewrite length_take_le by lia. lia.
Qed.

Lemma read_chunks_nil fuel : read_chunks fuel [] = Some [].
Proof. destruct fuel; reflexivity. Qed.

(** A reader recovers, in order, the chunks of a sequence of frames. *)
Lemma read_frames (fs : list (list Z * list Z * Z)) : forall fuel,
  (length fs <= fuel)%nat ->
  Forall (fun f => length (f.1.1) = 4%nat
                   /\ Z.of_nat (length (f.1.2)) < 2 ^ 32) fs ->
  read_chunks fuel (concat (map frame_bytes fs)) = Some (map as_read fs).
Proof.
  induction fs as [|[[t d] c] fs IH]; intros fuel Hfuel Hall.
  - apply read_chunks_nil.
  - destruct fuel as [|fuel]; [simpl in Hfuel; lia|].
    apply Forall_cons in Hall as [[Ht Hd] Hall]. cbn [fst snd] in Ht, Hd.
    cbn [map concat frame_bytes].
    rewrite read_chunks_frame by assumption.
    rewrite IH by (simpl in Hfuel; assumption || lia).
    reflexivity.
Qed.

Lemma read_png_frames (fs : list (list Z * list Z * Z)) :
  (length fs <= 8)%nat ->
  Forall (fun f => length (f.1.1) = 4%nat
                   /\ Z.of_nat (length (f.1.2)) < 2 ^ 32) fs ->
  read_png (signature ++ concat (map frame_bytes fs)) = Some (map as_read fs).
Proof.
  intros Hn Hall. unfold read_png.
  rewrite take_app_length' by reflexivity.
  destruct (decide (signature = png_signature)) as [_|Hne];
    [|exfalso; apply Hne; reflexivity].
  rewrite drop_app_length' by reflexivity.
  apply read_frames; [|exact Hall].
  rewrite length_app. simpl. lia.
Qed.

End AssembleFacts.

Module LayoutFacts.
Import PNG PNGReference PNGFacts AssembleFacts.

(** Take the next [write_PNG_Chunk] of [assemble] apart. *)
Ltac next_chunk H name :=
  match type of H with
  | ebind (write_PNG_Chunk ?buf ?t (Some ?d) ?len) _ = Done _ =>
      let Hw := fresh "Hw" in
      let Hp := fresh "Hp" in
      let Hl := fresh "Hl" in
      destruct (write_PNG_Chunk buf t (Some d) len) as [?png| | |] eqn:Hw;
      try discriminate H;
      apply write_chunk_Done in Hw as (name & -> & Hp & Hl);
      [cbn [ebind] in H | reflexivity | try lia]
  end.

Lemma to_u32_range v : 0 <= to_u32 v < 2 ^ 32.
Proof. unfold to_u32. apply Z.mod_pos_bound. lia. Qed.

(** The buffer [assemble] returns is the signature followed by the frames
    of [layout]. *)
Lemma assemble_layout mode zlib px W H pal tr buf :
  assemble mode zlib px W H pal tr = Done buf ->
  exists ihdr plte idat,
    buf = signature
          ++ concat (map frame_bytes (layout mode tr ihdr plte idat)) /\
    Z.of_nat (length ihdr) = 13 /\
    Z.of_nat (length plte) = 768 /\
    Z.of_nat (length idat) < 2 ^ 32.
Proof.
  unfold assemble. intros Ha.
  next_chunk Ha ihdr.
  destruct (palette_chunks mode _ pal tr) as [png2| | |] eqn:Hpal;
    try discriminate Ha. cbn [ebind] in Ha.
  destruct (idat_bytes mode px W H pal tr) as [raw| | |] eqn:Hidat;
    try discriminate Ha. cbn [ebind] in Ha.
  destruct (deflateInit_ok zlib); try discriminate Ha. cbn [ebind] in Ha.
  pose proof (to_u32_range (Z.of_nat (length (deflate zlib raw)))) as Hu.
  next_chunk Ha idat.
  rewrite write_chunk_empty in Ha by reflexivity. injection Ha as <-.
  unfold palette_chunks in Hpal. unfold layout.
  remember signature as sig eqn:Hsig.
  destruct mode.
  - destruct (plte_bytes pal) as [plte0| | |] eqn:Hplte;
      try discriminate Hpal. cbn [ebind] in Hpal.
    next_chunk Hpal plte.
    destruct tr.
    + rewrite write_chunk_frame in Hpal
        by (reflexivity || (vm_compute; split; discriminate)).
      change (take (Z.to_nat 256) trns_bytes) with trns_bytes in Hpal.
      injection Hpal as <-.
      exists ihdr, plte, idat. repeat split; try lia.
      cbn [map concat app frame_bytes written].
      rewrite <- !app_assoc, app_nil_r. reflexivity.
    + injection Hpal as <-.
      exists ihdr, plte, idat. repeat split; try lia.
      cbn [map concat app frame_bytes written].
      rewrite <- !app_assoc, app_nil_r. reflexivity.
  - injection Hpal as <-.
    exists ihdr, (replicate 768 0), idat.
    repeat split; try lia.
    cbn [map concat app frame_bytes written].
    rewrite <- !app_assoc, app_nil_r. reflexivity.
  - injection Hpal as <-.
    exists ihdr, (replicate 768 0), idat.
    repeat split; try lia.
    cbn [map concat app frame_bytes written].
    rewrite <- !app_assoc, app_nil_r. reflexivity.
Qed.


(** *** The encoder runs to the end on a valid raster *)

Lemma plte_bytes_total pal :
  length pal = 256%nat ->
  exists plte, plte_bytes pal = Done plte /\ length plte = 768%nat.
Proof.
  intros Hpal. unfold plte_bytes.
  destruct (foldM_seqZ_inv (plte_entry pal)
              (fun _ plte => length plte = 768%nat) 256 0
              (replicate 768 0)) as (plte & Hrun & Hlen).
  - apply length_replicate.
  - intros i plte Hi Hlen. unfold plte_entry.
    destruct (vec_at_in_range pal i) as (c & _ & ->); [lia|].
    cbn [ebind].
    rewrite vec_set_in_range by lia. cbn [ebind].
    rewrite vec_set_in_range by (rewrite length_insert; lia). cbn [ebind].
    rewrite vec_set_in_range by (rewrite !length_insert; lia).
    eexists. split; [reflexivity|]. rewrite !length_insert. exact Hlen.
  - exists plte. split; [exact Hrun | exact Hlen].
Qed.

Section Rows.

Variables (px : list Z) (W H : Z) (pal : list Color).
Hypothesis Hvalid : valid_raster px W H pal.

Lemma pixel_lookup y x :
  0 <= y < H -> 0 <= x < W ->
  exists p c, vec_at px (y * W + x) = Done p /\ vec_at pal p = Done c.
Proof.
  destruct Hvalid as (HW & HH & Hlen & Hpal & Hbytes & _).
  intros Hy Hx.
  destruct (vec_at_in_range px (y * W + x)) as (p & Hp & Hat); [nia|].
  pose proof (Forall_lookup_1 _ _ _ _ Hbytes Hp) as Hrange.
  cbv beta in Hrange.
  destruct (vec_at_in_range pal p) as (c & _ & Hc); [lia|].
  exists p, c. split; assumption.
Qed.

(** The row loops of the 24- and 32-bit modes. *)
Lemma rows_total (pixel : Z -> Z -> list Z -> exec (list Z)) :
  (forall y x idat, 0 <= y < H -> 0 <= x < W ->
                    exists idat', pixel y x idat = Done idat') ->
  exists raw, rows pixel W H = Done raw.
Proof.
  destruct Hvalid as (HW & HH & _).
  intros Hpixel. unfold rows.
  destruct (foldM_seqZ_inv
              (fun y idat => foldM (pixel y) (seqZ 0 W) (idat ++ [0]))
              (fun _ _ => True) (Z.to_nat H) 0 []) as (raw & Hrun & _).
  - exact I.
  - intros y idat Hy _.
    destruct (foldM_seqZ_inv (pixel y) (fun _ _ => True) (Z.to_nat W) 0
                (idat ++ [0])) as (row & Hrow & _).
    + exact I.
    + intros x acc Hx _.
      destruct (Hpixel y x acc) as (acc' & ->); [lia | lia |].
      eexists. split; [reflexivity | exact I].
    + rewrite Z2Nat.id in Hrow by lia. exists row. split; [exact Hrow | exact I].
  - rewrite Z2Nat.id in Hrun by lia. exists raw. exact Hrun.
Qed.

Lemma idat_bytes_total mode tr :
  exists raw, idat_bytes mode px W H pal tr = Done raw.
Proof.
  pose proof Hvalid as (HW & HH & Hlen & Hpal & Hbytes & Hint).
  assert (Hok : forall v, 0 <= v <= W * H * 4 + H -> int_val v = Done v).
  { intros v Hv. unfold int_val, int_ok, INT_MIN.
    destruct (- 2 ^ 31 <=? v) eqn:E1; [|lia].
    destruct (v <=? INT_MAX) eqn:E2; [|lia]. reflexivity. }
  destruct mode; cbn [idat_bytes].
  - destruct (foldM_seqZ_inv (row_8 px W) (fun _ _ => True) (Z.to_nat H) 0
                []) as (raw & Hrun & _).
    + exact I.
    + intros y idat Hy _. unfold row_8, vec_slice.
      destruct (0 <=? y * W) eqn:E1; [|nia].
      destruct (0 <=? (y + 1) * W - y * W) eqn:E2; [|nia].
      destruct (y * W + ((y + 1) * W - y * W) <=? Z.of_nat (length px))
        eqn:E3; [|nia].
      eexists. split; [reflexivity | exact I].
    + rewrite Z2Nat.id in Hrun by lia. exists raw. exact Hrun.
  - rewrite !Hok by nia. cbn [ebind]. rewrite !Hok by nia. cbn [ebind].
    rewrite !Hok by nia. cbn [ebind].
    apply rows_total. intros y x idat Hy Hx. unfold pixel_24.
    destruct (pixel_lookup y x Hy Hx) as (p & c & -> & Hc).
    cbn [ebind]. rewrite Hc. eexists. reflexivity.
  - rewrite !Hok by nia. cbn [ebind]. rewrite !Hok by nia. cbn [ebind].
    rewrite !Hok by nia. cbn [ebind].
    apply rows_total. intros y x idat Hy Hx. unfold pixel_32.
    destruct (pixel_lookup y x Hy Hx) as (p & c & -> & Hc).
    cbn [ebind]. rewrite Hc. eexists. reflexivity.
Qed.

Lemma assemble_total mode zlib tr :
  deflateInit_ok zlib = true ->
  exists buf, assemble mode zlib px W H pal tr = Done buf.
Proof.
  pose proof Hvalid as (HW & HH & Hlen & Hpal & Hbytes & Hint).
  intros Hinit. unfold assemble.
  rewrite write_chunk_frame
    by (reflexivity || (cbn [length ihdr_bytes mem_u32 app]; simpl; lia)).
  cbn [ebind].
  assert (Hpc : exists png, palette_chunks mode
            (signature ++ frame (bytes_of_string "IHDR")
               (take (Z.to_nat 13) (ihdr_bytes W H (color_type mode)))
               (stored_crc "IHDR"
                  (take (Z.to_nat 13) (ihdr_bytes W H (color_type mode)))))
            pal tr = Done png).
  { unfold palette_chunks. destruct mode; try (eexists; reflexivity).
    destruct (plte_bytes_total pal Hpal) as (plte & -> & Hl).
    cbn [ebind].
    rewrite write_chunk_frame by (reflexivity || lia). cbn [ebind].
    destruct tr; [|eexists; reflexivity].
    rewrite write_chunk_frame
      by (reflexivity || (vm_compute; split; discriminate)).
    eexists; reflexivity. }
  destruct Hpc as (png & ->). cbn [ebind].
  destruct (idat_bytes_total mode tr) as (raw & ->). cbn [ebind].
  rewrite Hinit. cbn [ebind].
  pose proof (to_u32_range (Z.of_nat (length (deflate zlib raw)))) as Hu.
  rewrite write_chunk_frame.
  - cbn [ebind]. rewrite write_chunk_empty by reflexivity.
    eexists; reflexivity.
  - reflexivity.
  - split; [lia|]. unfold to_u32.
    apply Z.mod_le; lia.
Qed.

End Rows.

End LayoutFacts.

(** ** What a normal end of a loop or of a sequence tells *)

Lemma foldM_Done_elem {V} (body : Z -> V -> exec V) (l : list Z) :
  forall s s', foldM body l s = Done s' ->
  forall i, i ∈ l -> exists s1 s2, body i s1 = Done s2.
Proof.
  induction l as [|j l IH]; intros s s' Hrun i Hi.
  - apply elem_of_nil in Hi. contradiction.
  - cbn [foldM] in Hrun.
    destruct (body j s) as [s1| | |] eqn:Hb; try discriminate Hrun.
    cbn [ebind] in Hrun.
    apply elem_of_cons in Hi as [->|Hi]; [eauto | eapply IH; eauto].
Qed.

Lemma foldM_not_Ret {V} (body : Z -> V -> exec V) (l : list Z) :
  (forall i s c, body i s <> Ret c) ->
  forall s c, foldM body l s <> Ret c.
Proof.
  intros Hbody. induction l as [|j l IH]; intros s c; cbn [foldM].
  - discriminate.
  - destruct (body j s) as [s1| | |] eqn:Hb; cbn [ebind];
      try discriminate; [apply IH | exfalso; eapply Hbody; eauto].
Qed.

Lemma ebind_Done {A B} (m : exec A) (k : A -> exec B) b :
  ebind m k = Done b -> exists a, m = Done a /\ k a = Done b.
Proof. destruct m; try discriminate. cbn [ebind]. eauto. Qed.

Lemma ebind_Ret {A B} (m : exec A) (k : A -> exec B) c :
  ebind m k = Ret c -> m = Ret c \/ exists a, m = Done a /\ k a = Ret c.
Proof.
  destruct m; try discriminate; cbn [ebind]; intros Hk;
    [right; eauto | left; injection Hk as ->; reflexivity].
Qed.

Lemma bindM_Done {A B} (m : M A) (k : A -> M B) s b s' :
  bindM m k s = (Done b, s') ->
  exists a s1, m s = (Done a, s1) /\ k a s1 = (Done b, s').
Proof.
  unfold bindM. destruct (m s) as [[a| | |] s1]; try discriminate. eauto.
Qed.

Lemma bindM_Ret {A B} (m : M A) (k : A -> M B) s c s' :
  bindM m k s = (Ret c, s') ->
  m s = (Ret c, s') \/
  exists a s1, m s = (Done a, s1) /\ k a s1 = (Ret c, s').
Proof.
  unfold bindM. destruct (m s) as [[a| | |] s1]; try discriminate.
  - right. eauto.
  - intros [= -> ->]. left. reflexivity.
Qed.

Lemma forM_Done_elem {V} (body : Z -> V -> M V) (l : list Z) :
  forall v s v' s', forM body l v s = (Done v', s') ->
  forall i, i ∈ l -> exists v1 s1 v2 s2, body i v1 s1 = (Done v2, s2).
Proof.
  induction l as [|j l IH]; intros v s v' s' Hrun i Hi.
  - apply elem_of_nil in Hi. contradiction.
  - cbn [forM] in Hrun.
    apply bindM_Done in Hrun as (v1 & s1 & Hb & Hrest).
    apply elem_of_cons in Hi as [->|Hi]; [eauto 6 | eapply IH; eauto].
Qed.

Lemma forM_Ret {V} (body : Z -> V -> M V) (l : list Z) (code : Z) :
  (forall i v s c s', body i v s = (Ret c, s') -> c = code) ->
  forall v s c s', forM body l v s = (Ret c, s') -> c = code.
Proof.
  intros Hbody. induction l as [|j l IH]; intros v s c s' Hrun;
    cbn [forM] in Hrun.
  - discriminate Hrun.
  - apply bindM_Ret in Hrun as [Hb | (v1 & s1 & _ & Hrest)];
      [eapply Hbody | eapply IH]; eauto.
Qed.

Lemma write_or_fail_Ret buf s c s' :
  write_or_fail buf s = (Ret c, s') -> c = 1.
Proof.
  unfold write_or_fail, bindM, dst_write, retM, returnM.
  destruct (Wrapper.write s buf) as [n s1].
  destruct (n =? Z.of_nat (length buf)); [discriminate|].
  intros [= <- _]. reflexivity.
Qed.

Lemma seek_abs_or_fail_Ret off s c s' :
  seek_abs_or_fail off s = (Ret c, s') -> c = 1.
Proof.
  unfold seek_abs_or_fail.
  destruct (Wrapper.seek_abs s off) as [[|] s1]; [discriminate|].
  intros [= <- _]. reflexivity.
Qed.

Lemma lift_Ret {A} (e : exec A) s c s' :
  lift e s = (Ret c, s') -> e = Ret c.
Proof. unfold lift. intros [= -> _]. reflexivity. Qed.

Lemma lift_Done {A} (e : exec A) s x s' :
  lift e s = (Done x, s') -> e = Done x.
Proof. unfold lift. intros [= -> _]. reflexivity. Qed.

Lemma int_val_not_Ret v c : int_val v <> Ret c.
Proof. unfold int_val. destruct (int_ok v); discriminate. Qed.

Lemma vec_at_not_Ret {A} (v : list A) i c : vec_at v i <> Ret c.
Proof.
  unfold vec_at. destruct (0 <=? i); [|discriminate].
  destruct (v !! Z.to_nat i); discriminate.
Qed.

Lemma vec_set_not_Ret {A} (v : list A) i x c : vec_set v i x <> Ret c.
Proof. unfold vec_set. destruct (_ && _); discriminate. Qed.

Lemma vec_slice_not_Ret {A} (v : list A) lo n c : vec_slice v lo n <> Ret c.
Proof. unfold vec_slice. destruct (_ && _); discriminate. Qed.

(** Peel the first step off a sequence that ended in [return 0]: the step
    itself cannot have returned 0, so it ran to its end. *)
Ltac peel H :=
  let Hstep := fresh "Hstep" in
  apply bindM_Ret in H as [H | (? & ? & Hstep & H)];
  [ exfalso;
    first
      [ apply write_or_fail_Ret in H; discriminate H
      | apply seek_abs_or_fail_Ret in H; discriminate H
      | apply lift_Ret in H; revert H;
        first [ apply int_val_not_Ret | apply vec_at_not_Ret
              | apply vec_slice_not_Ret ] ]
  | ].

(** ** The encoders read every pixel of the raster *)
Module EncoderFacts.

Section InRange.

Variables (px : list Z) (W H : Z) (pal : list Color) (tr : bool).
Hypothesis HW : 0 < W.
Hypothesis HH : 0 < H.

Lemma last_pixel_read (p : Z) :
  vec_at px ((H - 1) * W + (W - 1)) = Done p ->
  W * H <= Z.of_nat (length px).
Proof. intros Hat. apply vec_at_Done in Hat as [Hr _]. nia. Qed.

Lemma last_row_read (row : list Z) :
  vec_slice px ((H - 1) * W) W = Done row ->
  W * H <= Z.of_nat (length px).
Proof.
  intros Hs. apply AssembleFacts.vec_slice_Done in Hs as (_ & _ & Hr & _).
  nia.
Qed.

Lemma last_row_in : H - 1 ∈ seqZ 0 H.
Proof. apply elem_of_seqZ. lia. Qed.

Lemma last_column_in : W - 1 ∈ seqZ 0 W.
Proof. apply elem_of_seqZ. lia. Qed.

Lemma SaveToBMP_reads_all s s' :
  BMP.SaveToBMP px W H pal tr s = (Ret 0, s') ->
  W * H <= Z.of_nat (length px).
Proof.
  unfold BMP.SaveToBMP, BMP.write_u32, BMP.write_u16, BMP.write_s32,
    BMP.write_u32.
  intros Hrun.
  do 19 peel Hrun.
  apply bindM_Ret in Hrun as [Hrun | (row & s1 & Hloop & _)].
  { apply (forM_Ret _ _ 1) in Hrun; [discriminate Hrun|].
    intros y row0 s0 c s0' Hrow. unfold BMP.write_row in Hrow.
    apply bindM_Ret in Hrow as [Hrow | (row' & s1' & _ & Hrow)].
    - apply lift_Ret in Hrow. exfalso. revert Hrow.
      apply (foldM_not_Ret (BMP.fill_pixel px W
               (bake_transparency pal tr) y) (seqZ 0 W)).
      intros col r0 c0. unfold BMP.fill_pixel.
      destruct (vec_at px (y * W + col)) as [idx| | |] eqn:E1;
        try discriminate; [|exfalso; eapply vec_at_not_Ret; eauto].
      cbn [ebind].
      destruct (vec_at (bake_transparency pal tr) idx) as [c1| | |] eqn:E2;
        try discriminate; [|exfalso; eapply vec_at_not_Ret; eauto].
      cbn [ebind].
      destruct (vec_set r0 (col * 3 + 0) (b c1)) as [r1| | |] eqn:E3;
        try discriminate; [|exfalso; eapply vec_set_not_Ret; eauto].
      cbn [ebind].
      destruct (vec_set r1 (col * 3 + 1) (g c1)) as [r2| | |] eqn:E4;
        try discriminate; [|exfalso; eapply vec_set_not_Ret; eauto].
      cbn [ebind]. apply vec_set_not_Ret.
    - apply bindM_Ret in Hrow as [Hrow | (? & ? & _ & Hrow)];
        [apply write_or_fail_Ret in Hrow; exact Hrow | discriminate Hrow]. }
  destruct (forM_Done_elem _ _ _ _ _ _ Hloop (H - 1))
    as (row1 & s2 & row2 & s3 & Hrow).
  { apply elem_of_reverse. exact last_row_in. }
  unfold BMP.write_row in Hrow.
  apply bindM_Done in Hrow as (row3 & s4 & Hfill & _).
  apply lift_Done in Hfill.
  destruct (foldM_Done_elem _ _ _ _ Hfill (W - 1) last_column_in)
    as (r1 & r2 & Hpix).
  unfold BMP.fill_pixel in Hpix.
  destruct (vec_at px ((H - 1) * W + (W - 1))) as [idx| | |] eqn:Hat;
    try discriminate Hpix.
  eapply last_pixel_read; eauto.
Qed.


Lemma SaveToTGA_reads_all s s' :
  TGA.SaveToTGA px W H pal tr s = (Ret 0, s') ->
  W * H <= Z.of_nat (length px).
Proof.
  unfold TGA.SaveToTGA, TGA.write_u8, TGA.write_u16.
  intros Hrun.
  do 12 peel Hrun.
  apply bindM_Ret in Hrun as [Hrun | (? & ? & _ & Hrun)].
  { apply (forM_Ret _ _ 1) in Hrun; [discriminate Hrun|].
    intros i u s0 c s0' Hent. unfold TGA.write_entry in Hent.
    apply bindM_Ret in Hent as [Hent | (? & ? & _ & Hent)].
    - apply lift_Ret in Hent. exfalso. revert Hent. apply vec_at_not_Ret.
    - apply write_or_fail_Ret in Hent. exact Hent. }
  apply bindM_Ret in Hrun as [Hrun | (u & s1 & Hloop & _)].
  { apply (forM_Ret _ _ 1) in Hrun; [discriminate Hrun|].
    intros y u s0 c s0' Hrow. unfold TGA.write_row in Hrow.
    apply bindM_Ret in Hrow as [Hrow | (? & ? & _ & Hrow)].
    - apply lift_Ret in Hrow. exfalso. revert Hrow.
      apply vec_slice_not_Ret.
    - apply write_or_fail_Ret in Hrow. exact Hrow. }
  destruct (forM_Done_elem _ _ _ _ _ _ Hloop (H - 1) last_row_in)
    as (u1 & s2 & u2 & s3 & Hrow).
  unfold TGA.write_row in Hrow.
  apply bindM_Done in Hrow as (row & s4 & Hslice & _).
  apply lift_Done in Hslice.
  eapply last_row_read; eauto.
Qed.

Lemma rows_read_all (pixel : Z -> Z -> list Z -> exec (list Z)) raw :
  (forall idat idat',
      pixel (H - 1) (W - 1) idat = Done idat' ->
      W * H <= Z.of_nat (length px)) ->
  PNG.rows pixel W H = Done raw ->
  W * H <= Z.of_nat (length px).
Proof.
  intros Hpixel Hrows. unfold PNG.rows in Hrows.
  destruct (foldM_Done_elem _ _ _ _ Hrows (H - 1) last_row_in)
    as (i1 & i2 & Hrow).
  destruct (foldM_Done_elem _ _ _ _ Hrow (W - 1) last_column_in)
    as (i3 & i4 & Hpix).
  eapply Hpixel; eauto.
Qed.

Lemma idat_bytes_reads_all mode raw :
  PNG.idat_bytes mode px W H pal tr = Done raw ->
  W * H <= Z.of_nat (length px).
Proof.
  destruct mode; cbn [PNG.idat_bytes]; intros Hrun.
  - destruct (foldM_Done_elem _ _ _ _ Hrun (H - 1) last_row_in)
      as (i1 & i2 & Hrow).
    unfold PNG.row_8 in Hrow.
    apply ebind_Done in Hrow as (row & Hslice & _).
    apply AssembleFacts.vec_slice_Done in Hslice as (_ & _ & Hr & _).
    nia.
  - apply ebind_Done in Hrun as (? & _ & Hrun).
    apply ebind_Done in Hrun as (? & _ & Hrun).
    apply ebind_Done in Hrun as (? & _ & Hrun).
    eapply rows_read_all; [|exact Hrun].
    intros idat idat' Hpix. unfold PNG.pixel_24 in Hpix.
    apply ebind_Done in Hpix as (p & Hat & _).
    eapply last_pixel_read; eauto.
  - apply ebind_Done in Hrun as (? & _ & Hrun).
    apply ebind_Done in Hrun as (? & _ & Hrun).
    apply ebind_Done in Hrun as (? & _ & Hrun).
    eapply rows_read_all; [|exact Hrun].
    intros idat idat' Hpix. unfold PNG.pixel_32 in Hpix.
    apply ebind_Done in Hpix as (p & Hat & _).
    eapply last_pixel_read; eauto.
Qed.

Lemma write_chunk_not_Ret buffer type d len c :
  PNG.write_PNG_Chunk buffer type d len <> Ret c.
Proof.
  unfold PNG.write_PNG_Chunk. intros Hw.
  apply ebind_Ret in Hw as [Hw | (? & _ & Hw)]; [|discriminate Hw].
  destruct d as [d|]; [|discriminate Hw].
  destruct (0 <? len); [|discriminate Hw].
  revert Hw. apply vec_slice_not_Ret.
Qed.

Lemma plte_bytes_not_Ret c : PNG.plte_bytes pal <> Ret c.
Proof.
  unfold PNG.plte_bytes. apply foldM_not_Ret.
  intros i plte c0 Hent. unfold PNG.plte_entry in Hent.
  repeat (apply ebind_Ret in Hent as [Hent | (? & _ & Hent)];
          [revert Hent; (apply vec_at_not_Ret || apply vec_set_not_Ret)|]).
  revert Hent. apply vec_set_not_Ret.
Qed.

Lemma rows_not_Ret (pixel : Z -> Z -> list Z -> exec (list Z)) c :
  (forall y x idat c0, pixel y x idat <> Ret c0) ->
  PNG.rows pixel W H <> Ret c.
Proof.
  intros Hpixel. unfold PNG.rows. apply foldM_not_Ret.
  intros y idat c0. apply foldM_not_Ret. intros x acc c1. apply Hpixel.
Qed.

Lemma idat_bytes_not_Ret mode c :
  PNG.idat_bytes mode px W H pal tr <> Ret c.
Proof.
  destruct mode; cbn [PNG.idat_bytes]; intros Hrun.
  - revert Hrun. apply foldM_not_Ret. intros y idat c0 Hrow.
    unfold PNG.row_8 in Hrow.
    apply ebind_Ret in Hrow as [Hrow | (? & _ & Hrow)];
      [revert Hrow; apply vec_slice_not_Ret | discriminate Hrow].
  - repeat (apply ebind_Ret in Hrun as [Hrun | (? & _ & Hrun)];
            [revert Hrun; apply int_val_not_Ret|]).
    revert Hrun. apply rows_not_Ret. intros row col idat c0 Hpix.
    unfold PNG.pixel_24 in Hpix.
    repeat (apply ebind_Ret in Hpix as [Hpix | (? & _ & Hpix)];
            [revert Hpix; apply vec_at_not_Ret|]).
    discriminate Hpix.
  - repeat (apply ebind_Ret in Hrun as [Hrun | (? & _ & Hrun)];
            [revert Hrun; apply int_val_not_Ret|]).
    revert Hrun. apply rows_not_Ret. intros row col idat c0 Hpix.
    unfold PNG.pixel_32 in Hpix.
    repeat (apply ebind_Ret in Hpix as [Hpix | (? & _ & Hpix)];
            [revert Hpix; apply vec_at_not_Ret|]).
    discriminate Hpix.
Qed.

(** The only [return] inside the assembly is [return 1]. *)
Lemma assemble_Ret mode zlib c :
  PNG.assemble mode zlib px W H pal tr = Ret c -> c = 1.
Proof.
  unfold PNG.assemble. intros Hrun.
  apply ebind_Ret in Hrun as [Hrun | (png1 & _ & Hrun)];
    [exfalso; revert Hrun; apply write_chunk_not_Ret|].
  apply ebind_Ret in Hrun as [Hrun | (png2 & _ & Hrun)].
  { exfalso. unfold PNG.palette_chunks in Hrun.
    destruct mode; try discriminate Hrun.
    apply ebind_Ret in Hrun as [Hrun | (plte & _ & Hrun)];
      [revert Hrun; apply plte_bytes_not_Ret|].
    apply ebind_Ret in Hrun as [Hrun | (png3 & _ & Hrun)];
      [revert Hrun; apply write_chunk_not_Ret|].
    destruct tr; [revert Hrun; apply write_chunk_not_Ret
                 | discriminate Hrun]. }
  apply ebind_Ret in Hrun as [Hrun | (raw & _ & Hrun)];
    [exfalso; revert Hrun; apply idat_bytes_not_Ret|].
  apply ebind_Ret in Hrun as [Hrun | (? & _ & Hrun)].
  { destruct (PNG.deflateInit_ok zlib); [discriminate Hrun|].
    injection Hrun as <-. reflexivity. }
  exfalso.
  apply ebind_Ret in Hrun as [Hrun | (png4 & _ & Hrun)];
    revert Hrun; apply write_chunk_not_Ret.
Qed.

Lemma SaveToPNG_reads_all mode zlib s s' :
  PNG.SaveToPNG mode zlib px W H pal tr s = (Ret 0, s') ->
  W * H <= Z.of_nat (length px).
Proof.
  unfold PNG.SaveToPNG. intros Hrun.
  apply bindM_Ret in Hrun as [Hrun | (png & s1 & Hasm & _)].
  { apply lift_Ret in Hrun. apply assemble_Ret in Hrun.
    discriminate Hrun. }
  apply lift_Done in Hasm. unfold PNG.assemble in Hasm.
  apply ebind_Done in Hasm as (png1 & _ & Hasm).
  apply ebind_Done in Hasm as (png2 & _ & Hasm).
  apply ebind_Done in Hasm as (raw & Hidat & _).
  eapply idat_bytes_reads_all; eauto.
Qed.

End InRange.

End EncoderFacts.

(** ** The front end of [ConvertPID] *)
Module ConvertFacts.
Import Convert.

Lemma foldM_preserves {V} (body : Z -> V -> exec V) (P : V -> Prop)
    (l : list Z) :
  (forall i s s', P s -> body i s = Done s' -> P s') ->
  forall s s', P s -> foldM body l s = Done s' -> P s'.
Proof.
  intros Hbody. induction l as [|j l IH]; intros s s' HP Hrun;
    cbn [foldM] in Hrun.
  - injection Hrun as <-. exact HP.
  - apply ebind_Done in Hrun as (s1 & Hb & Hrest). eauto.
Qed.

Lemma copy_pixel_not_Ret mirror W y sy x bufs c :
  Orientation.copy_pixel mirror W y sy x bufs <> Ret c.
Proof.
  unfold Orientation.copy_pixel. intros Hc.
  apply ebind_Ret in Hc as [Hc | (? & _ & Hc)];
    [revert Hc; apply vec_at_not_Ret|].
  apply ebind_Ret in Hc as [Hc | (? & _ & Hc)];
    [revert Hc; apply vec_set_not_Ret | discriminate Hc].
Qed.

Lemma transform_not_Ret mirror invert W H px c :
  Orientation.transform mirror invert W H px <> Ret c.
Proof.
  unfold Orientation.transform, Orientation.flip.
  destruct (mirror || invert); [|discriminate].
  intros Hc. apply ebind_Ret in Hc as [Hc | (? & _ & Hc)];
    [|discriminate Hc].
  revert Hc. apply foldM_not_Ret. intros y bufs c0.
  unfold Orientation.copy_row. apply foldM_not_Ret.
  intros x b0 c1. apply copy_pixel_not_Ret.
Qed.

Lemma transform_length mirror invert W H px px' :
  Orientation.transform mirror invert W H px = Done px' ->
  length px' = length px.
Proof.
  unfold Orientation.transform, Orientation.flip.
  destruct (mirror || invert); [|intros [= <-]; reflexivity].
  intros Hrun. apply ebind_Done in Hrun as (bufs & Hflip & [= <-]).
  revert Hflip.
  apply (foldM_preserves _
           (fun b => length (Orientation.flipped b) = length px)).
  - intros y b0 b1 Hlen. unfold Orientation.copy_row.
    apply (foldM_preserves _
             (fun b => length (Orientation.flipped b) = length px));
      [|exact Hlen].
    intros x b2 b3 Hlen2 Hcopy. unfold Orientation.copy_pixel in Hcopy.
    apply ebind_Done in Hcopy as (v & _ & Hcopy).
    apply ebind_Done in Hcopy as (f & Hset & [= <-]).
    cbn [Orientation.flipped]. unfold vec_set in Hset.
    destruct (_ && _); [|discriminate Hset]. injection Hset as <-.
    rewrite length_insert. exact Hlen2.
  - cbn [Orientation.flipped]. apply length_replicate.
Qed.

Lemma to_int_range v : - 2 ^ 31 <= to_int v < 2 ^ 31.
Proof.
  unfold to_int, to_u32.
  pose proof (Z.mod_pos_bound v (2 ^ 32) ltac:(lia)) as Hm.
  destruct (v mod 2 ^ 32 <? 2 ^ 31) eqn:E; lia.
Qed.

(** What is known once the front end got as far as the pixel data. *)
Lemma prepare_Done src hdr n pal s :
  prepare src = Done (hdr, n, pal, s) ->
  position s = 32 /\
  n = pixel_count hdr /\ 0 <= n <= 2 ^ 30 /\
  ID hdr = 10 /\
  0 < Width hdr < 2 ^ 31 /\ 0 < Height hdr < 2 ^ 31.
Proof.
  unfold prepare. intros Hp.
  apply ebind_Done in Hp as ([hdr0 s0] & Hread & Hp).
  apply ebind_Done in Hp as ([] & Hval & Hp).
  apply ebind_Done in Hp as (n0 & Hguard & Hp).
  apply ebind_Done in Hp as ([s1 pal0] & _ & Hp).
  unfold Wrapper.seek, Host.Seek in Hp.
  destruct (host_seek_faulty s1); [discriminate Hp|].
  change (to_int 32) with 32 in Hp. cbn [Z.ltb Z.compare] in Hp.
  injection Hp as <- <- <- <-.
  unfold read_header in Hread.
  destruct (Wrapper.read src 32) as [hb s2].
  destruct (Z.of_nat (length hb) =? 32); [|discriminate Hread].
  injection Hread as <- <-.
  unfold validate in Hval. cbn [ID Width Height] in *.
  destruct (field hb 0 =? 10) eqn:EID; [|discriminate Hval].
  cbn [negb] in Hval.
  destruct (field hb 8 <=? 0) eqn:EW; [discriminate Hval|].
  destruct (field hb 12 <=? 0) eqn:EH; [discriminate Hval|].
  unfold guard_pixel_count in Hguard.
  destruct (2 ^ 30 <? pixel_count _) eqn:EG; [discriminate Hguard|].
  injection Hguard as <-.
  pose proof (to_int_range
                (nth 8 hb 0 + Z.shiftl (nth (8 + 1) hb 0) 8
                 + Z.shiftl (nth (8 + 2) hb 0) 16
                 + Z.shiftl (nth (8 + 3) hb 0) 24)) as HWr.
  pose proof (to_int_range
                (nth 12 hb 0 + Z.shiftl (nth (12 + 1) hb 0) 8
                 + Z.shiftl (nth (12 + 2) hb 0) 16
                 + Z.shiftl (nth (12 + 3) hb 0) 24)) as HHr.
  fold (load_int (nth 8 hb 0) (nth (8 + 1) hb 0) (nth (8 + 2) hb 0)
          (nth (8 + 3) hb 0)) in HWr.
  fold (load_int (nth 12 hb 0) (nth (12 + 1) hb 0) (nth (12 + 2) hb 0)
          (nth (12 + 3) hb 0)) in HHr.
  fold (field hb 8) in HWr. fold (field hb 12) in HHr.
  assert (Hpc : 0 <= pixel_count
                       {| ID := field hb 0; Flags := field hb 4;
                          Width := field hb 8; Height := field hb 12 |}).
  { unfold pixel_count, to_size_t. apply Z.mod_pos_bound.
    unfold size_bits. lia. }
  repeat split; try reflexivity; lia.
Qed.

(** Without wrap-around the product of the dimensions is [pixel_count]. *)
Lemma pixel_count_exact hdr :
  0 < Width hdr < 2 ^ 31 -> 0 < Height hdr < 2 ^ 31 ->
  Width hdr * Height hdr < 2 ^ 32 ->
  pixel_count hdr = Width hdr * Height hdr.
Proof.
  intros HW HH Hprod. unfold pixel_count, to_size_t, size_bits.
  rewrite (Z.mod_small (Width hdr)) by lia.
  rewrite (Z.mod_small (Height hdr)) by lia.
  apply Z.mod_small. nia.
Qed.

Lemma decode_after_prepare src hdr n pal s :
  prepare src = Done (hdr, n, pal, s) ->
  decode src
  = ebind (Decompress.decompress (flag hdr 32) n s)
      (fun px =>
         ebind (Orientation.transform (flag hdr 8) (flag hdr 16)
                  (Width hdr) (Height hdr) px)
           (fun px' =>
              Done {| header := hdr; useTransparency := flag hdr 1;
                      palette := pal; pixels := px' |})).
Proof. intros Hp. unfold decode. rewrite Hp. reflexivity. Qed.

Lemma decompress_Ret rle n s c :
  0 <= position s -> 0 <= n < SIZE_MAX ->
  Decompress.decompress rle n s = Ret c -> c = 1.
Proof.
  intros Hs Hn.
  destruct (DecompressFacts.run_spec rle n s Hs Hn) as (st & Hrun & _).
  unfold Decompress.decompress, Decompress.check. rewrite Hrun.
  cbn [ebind]. destruct (_ =? _); [discriminate|].
  intros [= <-]. reflexivity.
Qed.

Lemma call_Done (m : M Z) s c s' :
  call m s = (Done c, s') -> m s = (Ret c, s') \/ m s = (Done c, s').
Proof.
  unfold call. destruct (m s) as [[v|c0| |] s1]; intros [= <- <-]; auto.
Qed.

Lemma call_not_Ret (m : M Z) s c s' : call m s <> (Ret c, s').
Proof. unfold call. destruct (m s) as [[v|c0| |] s1]; discriminate. Qed.

(** The encoders leave through a [return]. *)
Lemma SaveToBMP_returns px W H pal tr s v s' :
  BMP.SaveToBMP px W H pal tr s <> (Done v, s').
Proof.
  unfold BMP.SaveToBMP. intros Hrun.
  repeat (apply bindM_Done in Hrun as (? & ? & _ & Hrun)).
  discriminate Hrun.
Qed.

Lemma SaveToTGA_returns px W H pal tr s v s' :
  TGA.SaveToTGA px W H pal tr s <> (Done v, s').
Proof.
  unfold TGA.SaveToTGA. intros Hrun.
  repeat (apply bindM_Done in Hrun as (? & ? & _ & Hrun)).
  discriminate Hrun.
Qed.

Lemma SaveToPNG_returns mode zlib px W H pal tr s v s' :
  PNG.SaveToPNG mode zlib px W H pal tr s <> (Done v, s').
Proof.
  unfold PNG.SaveToPNG. intros Hrun.
  repeat (apply bindM_Done in Hrun as (? & ? & _ & Hrun)).
  discriminate Hrun.
Qed.

(** A conversion that reports success went through an encoder that read
    the whole [Width * Height] raster. *)
Lemma encode_success mode zlib cnv d s s' :
  0 < Width (header d) -> 0 < Height (header d) ->
  encode mode zlib cnv d s = (Ret 0, s') ->
  Width (header d) * Height (header d) <= Z.of_nat (length (pixels d)).
Proof.
  intros HW HH. unfold encode. intros Hrun.
  apply bindM_Ret in Hrun as [Hrun | (res & s1 & Hres & Hrun)].
  { exfalso.
    destruct (String.eqb cnv "BMP");
      [eapply call_not_Ret; eauto|].
    destruct (String.eqb cnv "TGA8" || String.eqb cnv "TGA");
      [eapply call_not_Ret; eauto|].
    destruct (String.eqb cnv "PNG");
      [eapply call_not_Ret; eauto | discriminate Hrun]. }
  destruct (res =? 0) eqn:E; [|discriminate Hrun].
  assert (res = 0) as -> by lia. clear Hrun E.
  destruct (String.eqb cnv "BMP").
  { apply call_Done in Hres as [Hres|Hres];
      [eapply EncoderFacts.SaveToBMP_reads_all; eauto
      | exfalso; eapply SaveToBMP_returns; eauto]. }
  destruct (String.eqb cnv "TGA8" || String.eqb cnv "TGA").
  { apply call_Done in Hres as [Hres|Hres];
      [eapply EncoderFacts.SaveToTGA_reads_all; eauto
      | exfalso; eapply SaveToTGA_returns; eauto]. }
  destruct (String.eqb cnv "PNG").
  { apply call_Done in Hres as [Hres|Hres];
      [eapply EncoderFacts.SaveToPNG_reads_all; eauto
      | exfalso; eapply SaveToPNG_returns; eauto]. }
  discriminate Hres.
Qed.

Lemma encode_returns mode zlib cnv d s v s' :
  encode mode zlib cnv d s <> (Done v, s').
Proof.
  unfold encode. intros Hrun.
  apply bindM_Done in Hrun as (res & s1 & _ & Hrun).
  destruct (negb (res =? 0)); discriminate Hrun.
Qed.

End ConvertFacts.

(** ** Short writes in the BMP and TGA encoders *)
Module FailFast.

Lemma quiet {A} (m : M A) :
  (forall s r s', m s = (r, s') -> write_log s' = write_log s) ->
  fail_fast m.
Proof.
  intros Hq s r s' Hrun. exists []. rewrite app_nil_r.
  split; [eapply Hq; eauto|].
  intros Hex. apply Exists_nil in Hex. contradiction.
Qed.

Lemma ff_ret {A} (x : A) : fail_fast (retM x).
Proof. apply quiet. intros s r s' [= _ <-]. reflexivity. Qed.

Lemma ff_return {A} c : fail_fast (@returnM A c).
Proof. apply quiet. intros s r s' [= _ <-]. reflexivity. Qed.

Lemma ff_lift {A} (e : exec A) : fail_fast (lift e).
Proof. apply quiet. intros s r s' [= _ <-]. reflexivity. Qed.

Lemma ff_seek off : fail_fast (seek_abs_or_fail off).
Proof.
  apply quiet. intros s r s'.
  unfold seek_abs_or_fail, Wrapper.seek_abs, Host.Seek.
  destruct (host_seek_faulty s); cbn.
  - intros [= _ <-]. reflexivity.
  - destruct (0 <=? to_int off); intros [= _ <-]; reflexivity.
Qed.

Lemma ff_bind {A B} (m : M A) (k : A -> M B) :
  fail_fast m -> (forall x, fail_fast (k x)) -> fail_fast (bindM m k).
Proof.
  intros Hm Hk s r s' Hrun. unfold bindM in Hrun.
  destruct (m s) as [r1 s1] eqn:Hms.
  destruct (Hm _ _ _ Hms) as (new1 & Hlog1 & Hshort1).
  destruct r1 as [x|c| |].
  - destruct (Hk x _ _ _ Hrun) as (new2 & Hlog2 & Hshort2).
    exists (new1 ++ new2). rewrite Hlog2, Hlog1, app_assoc.
    split; [reflexivity|].
    intros Hex. apply Exists_app in Hex as [Hex|Hex];
      [specialize (Hshort1 Hex); discriminate Hshort1 | auto].
  - injection Hrun as <- <-. exists new1. split; [exact Hlog1|].
    intros Hex. specialize (Hshort1 Hex). injection Hshort1 as ->.
    reflexivity.
  - injection Hrun as <- <-. exists new1. split; [exact Hlog1|].
    intros Hex. specialize (Hshort1 Hex). discriminate Hshort1.
  - injection Hrun as <- <-. exists new1. split; [exact Hlog1|].
    intros Hex. specialize (Hshort1 Hex). discriminate Hshort1.
Qed.

Lemma ff_forM {V} (body : Z -> V -> M V) (l : list Z) :
  (forall i v, fail_fast (body i v)) ->
  forall v, fail_fast (forM body l v).
Proof.
  intros Hbody. induction l as [|i l IH]; intros v; cbn [forM].
  - apply ff_ret.
  - apply ff_bind; [apply Hbody | exact IH].
Qed.

(** The checked write: a short report is a [return 1]. *)
Lemma ff_write buf : fail_fast (write_or_fail buf).
Proof.
  intros s r s'.
  unfold write_or_fail, bindM, dst_write, Wrapper.write, Host.Write,
    retM, returnM.
  set (count := Z.of_nat (length buf)).
  destruct (count =? 0) eqn:E0.
  - cbn [Z.eqb length Z.of_nat]. subst count.
    assert (Hnil : buf = []) by (destruct buf; [reflexivity | simpl in E0; lia]).
    subst buf. cbn. intros [= <- <-]. exists []. rewrite app_nil_r.
    split; [reflexivity|]. intros Hex. apply Exists_nil in Hex.
    contradiction.
  - set (reported := host_accepts s (length (write_log s))
                       (Wrapper.clamp_count count)).
    destruct ((if reported <? 0 then 0 else reported) =? count) eqn:En;
      intros [= <- <-]; cbn [write_log];
      exists [(Wrapper.clamp_count count, reported)];
      (split; [reflexivity|]); [|reflexivity].
    intros Hex. exfalso.
    apply Exists_cons in Hex as [Hshort|Hex];
      [|apply Exists_nil in Hex; exact Hex].
    unfold short_write in Hshort. cbn [fst snd] in Hshort.
    unfold Wrapper.clamp_count in Hshort.
    destruct (reported <? 0) eqn:Er;
      destruct (INT_MAX <? count) eqn:Ec; unfold INT_MAX in *; lia.
Qed.

Ltac ff :=
  cbv beta zeta;
  repeat first
    [ apply ff_write | apply ff_lift | apply ff_seek | apply ff_return
    | apply ff_ret
    | apply ff_forM; intros ? ?; cbv beta zeta
    | apply ff_bind; [|intros ?; cbv beta zeta] ].

(** In the BMP encoder every short write ends the encoder with 1. *)
Lemma SaveToBMP_fail_fast px W H pal tr :
  fail_fast (BMP.SaveToBMP px W H pal tr).
Proof.
  unfold BMP.SaveToBMP, BMP.write_u32, BMP.write_u16, BMP.write_s32,
    BMP.write_u32, BMP.write_row.
  ff.
Qed.

(** And so it is in the TGA encoder. *)
Lemma SaveToTGA_fail_fast px W H pal tr :
  fail_fast (TGA.SaveToTGA px W H pal tr).
Proof.
  unfold TGA.SaveToTGA, TGA.write_u8, TGA.write_u16, TGA.write_entry,
    TGA.write_row.
  ff.
Qed.

(** The PNG encoder returns 0 whatever its single write reports. *)
Lemma SaveToPNG_ignores_write mode zlib px W H pal tr buf s :
  PNG.assemble mode zlib px W H pal tr = Done buf ->
  (PNG.SaveToPNG mode zlib px W H pal tr s).1 = Ret 0.
Proof.
  intros Hbuf. unfold PNG.SaveToPNG, bindM, lift, dst_write, returnM.
  rewrite Hbuf. destruct (Wrapper.write s buf). reflexivity.
Qed.

End FailFast.

(** ** The CRC of a chunk *)
Module CRCFacts.
Import PNG.

Lemma not32_involutive v : not32 (not32 v) = v.
Proof.
  unfold not32. rewrite Z.lxor_assoc, Z.lxor_nilpotent. apply Z.lxor_0_r.
Qed.

(** [crc32_png] over zero bytes complements the running value. *)
Lemma crc32_png_no_bytes data crc : crc32_png data 0 crc = not32 crc.
Proof. reflexivity. Qed.

(** The CRC stored with a chunk runs the table-driven update over the
    type followed by the payload, complemented at both ends. *)
Lemma stored_crc_chains type payload :
  length (bytes_of_string type) = 4%nat ->
  stored_crc type payload
  = not32 (fold_left crc_step (bytes_of_string type ++ payload) (not32 0)).
Proof.
  intros Ht. unfold stored_crc, crc32_png.
  change (4 =? 0) with false. cbn iota.
  rewrite (take_ge (bytes_of_string type)) by lia.
  destruct payload as [|p payload].
  - rewrite app_nil_r. reflexivity.
  - set (n := Z.of_nat (length (p :: payload))).
    assert (Hn : 0 < n) by (unfold n; simpl; lia).
    destruct (0 <? n) eqn:E; [|lia].
    destruct (n =? 0) eqn:E0; [lia|].
    rewrite not32_involutive. unfold n. rewrite Nat2Z.id, firstn_all.
    rewrite fold_left_app. reflexivity.
Qed.

(** The reference CRC has the same shape over the reference table. *)
Lemma reference_crc_shape buf :
  PNGReference.crc buf
  = not32 (PNGReference.update_crc (not32 0) buf).
Proof. reflexivity. Qed.

End CRCFacts.

(** ** The guard on the pixel count *)
Module GuardFacts.
Import Convert.

(** As long as the product of the dimensions fits [size_t], the guard
    rejects what exceeds the ceiling. *)
Lemma guard_rejects_large hdr :
  0 < Width hdr < 2 ^ 31 -> 0 < Height hdr < 2 ^ 31 ->
  2 ^ 30 < Width hdr * Height hdr < 2 ^ 32 ->
  guard_pixel_count hdr = Ret 1.
Proof.
  intros HW HH Hprod. unfold guard_pixel_count.
  rewrite ConvertFacts.pixel_count_exact by lia.
  destruct (2 ^ 30 <? Width hdr * Height hdr) eqn:E; [reflexivity | lia].
Qed.

(** What the guard tests is the product reduced modulo [2^32]. *)
Lemma guard_tests_wrapped hdr :
  0 < Width hdr < 2 ^ 31 -> 0 < Height hdr < 2 ^ 31 ->
  guard_pixel_count hdr
  = let wrapped := (Width hdr * Height hdr) mod 2 ^ 32 in
    if 2 ^ 30 <? wrapped then Ret 1 else Done wrapped.
Proof.
  intros HW HH. unfold guard_pixel_count, pixel_count, to_size_t, size_bits.
  rewrite (Z.mod_small (Width hdr)) by lia.
  rewrite (Z.mod_small (Height hdr)) by lia.
  reflexivity.
Qed.

End GuardFacts.


(** ** Writing to a cooperative destination *)
Module Emit.

Lemma emits_ret {A} (x : A) : emits (retM x) x [].
Proof.
  intros s Hs. exists s. rewrite app_nil_r. repeat split; try apply Hs.
Qed.

Lemma emits_lift {A} (e : exec A) (x : A) : e = Done x -> emits (lift e) x [].
Proof.
  intros -> s Hs. exists s. rewrite app_nil_r. repeat split; try apply Hs.
Qed.

Lemma emits_bind {A B} (m : M A) (k : A -> M B) x y bs1 bs2 :
  emits m x bs1 -> emits (k x) y bs2 -> emits (bindM m k) y (bs1 ++ bs2).
Proof.
  intros Hm Hk s Hs.
  destruct (Hm s Hs) as (s1 & Hrun1 & Hc1 & Hs1).
  destruct (Hk s1 Hs1) as (s2 & Hrun2 & Hc2 & Hs2).
  exists s2. unfold bindM. rewrite Hrun1, Hrun2, Hc2, Hc1, app_assoc.
  repeat split; apply Hs2.
Qed.

Lemma emits_lift_bind {A B} (e : exec A) (k : A -> M B) x y bs :
  e = Done x -> emits (k x) y bs -> emits (bindM (lift e) k) y bs.
Proof.
  intros He Hk. change bs with ([] ++ bs).
  eapply emits_bind; [apply emits_lift; exact He | exact Hk].
Qed.

Lemma returns_lift_bind {A B} (e : exec A) (k : A -> M B) x c bs rw :
  e = Done x -> returns (k x) c bs rw -> returns (bindM (lift e) k) c bs rw.
Proof.
  intros -> Hk s Hs. destruct (Hk s Hs) as (s' & Hrun & Hrest).
  exists s'. split; [exact Hrun | exact Hrest].
Qed.

Lemma emits_then_ret {A B} (m : M A) (x : A) (y : B) bs :
  emits m x bs -> emits (bindM m (fun _ => retM y)) y bs.
Proof.
  intros Hm. rewrite <- (app_nil_r bs).
  eapply emits_bind; [exact Hm | apply emits_ret].
Qed.

(** A write of at most [INT_MAX] bytes is taken whole. *)
Lemma emits_write buf :
  Z.of_nat (length buf) <= INT_MAX -> emits (write_or_fail buf) tt buf.
Proof.
  intros Hlen s (Hacc & Hseek & Hpos).
  unfold write_or_fail, bindM, dst_write, Wrapper.write, Host.Write,
    Wrapper.clamp_count, retM.
  destruct (Z.of_nat (length buf) =? 0) eqn:E0.
  - assert (buf = []) as -> by (destruct buf; [reflexivity | simpl in E0; lia]).
    cbn. exists s. rewrite app_nil_r. repeat split; assumption.
  - destruct (INT_MAX <? Z.of_nat (length buf)) eqn:Ec; [lia|].
    rewrite Hacc.
    destruct (Z.of_nat (length buf) <? 0) eqn:En; [lia|].
    rewrite Z.eqb_refl. eexists. split; [reflexivity|].
    cbn [content position host_accepts host_seek_faulty].
    rewrite Nat2Z.id, firstn_all, Hpos, Nat2Z.id, firstn_all.
    rewrite drop_ge by lia. rewrite app_nil_r.
    split; [reflexivity|]. split; [exact Hacc|]. split; [exact Hseek|].
    cbn [content position]. rewrite length_app. lia.
Qed.

(** A loop whose iterations each append their own bytes. *)
Lemma emits_forM {V} (body : Z -> V -> M V) (P : V -> Prop)
    (next : Z -> V) (out : Z -> list Z) (l : list Z) :
  (forall i v, i ∈ l -> P v -> emits (body i v) (next i) (out i)
                               /\ P (next i)) ->
  forall v, P v ->
    exists v', emits (forM body l v) v' (concat (map out l)) /\ P v'.
Proof.
  induction l as [|i l IH]; intros Hbody v Hv.
  - exists v. split; [apply emits_ret | exact Hv].
  - destruct (Hbody i v) as [Hi Hn]; [apply elem_of_cons; left; reflexivity | exact Hv |].
    destruct (IH (fun j w Hj => Hbody j w (proj2 (elem_of_cons l j i) (or_intror Hj)))
                 (next i) Hn) as (v' & Hrest & Hv').
    exists v'. split; [|exact Hv'].
    cbn [forM map concat]. eapply emits_bind; eauto.
Qed.

Lemma returns_bind {A B} (m : M A) (k : A -> M B) x c bs1 bs2 rw :
  emits m x bs1 -> returns (k x) c bs2 rw ->
  returns (bindM m k) c (bs1 ++ bs2) rw.
Proof.
  intros Hm Hk s Hs.
  destruct (Hm s Hs) as (s1 & Hrun1 & Hc1 & Hs1).
  destruct (Hk s1 Hs1) as (s2 & Hrun2 & Hc2 & Hp2).
  exists s2. unfold bindM. rewrite Hrun1, Hrun2, Hc2, Hc1, app_assoc.
  split; [reflexivity|]. split; [reflexivity|].
  rewrite Hp2, Hc2, Hc1. reflexivity.
Qed.

(** [if (!dst.seek_abs(0)) return 1; return 0;] *)
Lemma returns_rewind {A} c :
  returns (bindM (seek_abs_or_fail 0) (fun _ => @returnM A c)) c [] true.
Proof.
  intros s (Hacc & Hseek & Hpos).
  unfold bindM, seek_abs_or_fail, Wrapper.seek_abs, Host.Seek, returnM.
  rewrite Hseek. cbn. eexists. split; [reflexivity|].
  cbn [content position]. rewrite app_nil_r. split; reflexivity.
Qed.

Lemma returns_here {A} c : returns (@returnM A c) c [] false.
Proof.
  intros s (Hacc & Hseek & Hpos). exists s. unfold returnM.
  rewrite app_nil_r. repeat split. exact Hpos.
Qed.

End Emit.
Import Emit.

Lemma land_255 v : Z.land v 255 = v mod 256.
Proof. change 255 with (Z.ones 8). rewrite Z.land_ones by lia. reflexivity. Qed.

Lemma shiftr_land_255 v n : 0 <= n -> Z.land (Z.shiftr v n) 255 = (v / 2 ^ n) mod 256.
Proof. intros Hn. rewrite land_255, Z.shiftr_div_pow2 by lia. reflexivity. Qed.

Lemma to_u16_le16 v :
  [Z.land (to_u16 v) 255; Z.land (Z.shiftr (to_u16 v) 8) 255] = le16 v.
Proof.
  unfold le16, to_u16. rewrite land_255, shiftr_land_255 by lia.
  change (2 ^ 8) with 256. change (2 ^ 16) with 65536.
  f_equal; [|f_equal]; Z.div_mod_to_equations; lia.
Qed.

Lemma map_nth_seqZ {A} (l : list A) (d : A) :
  map (fun i => nth (Z.to_nat i) l d) (seqZ 0 (Z.of_nat (length l))) = l.
Proof.
  apply list_eq. intros i.
  rewrite list_lookup_fmap.
  destruct (l !! i) as [x|] eqn:E.
  - pose proof (lookup_lt_Some _ _ _ E) as Hlt.
    rewrite (lookup_seqZ_lt 0 (Z.of_nat (length l)) i) by lia.
    cbn. rewrite Z.add_0_l, Nat2Z.id. f_equal.
    apply nth_lookup_Some with (d := d) in E. exact E.
  - pose proof (lookup_ge_None_1 _ _ E) as Hge.
    rewrite lookup_seqZ_ge by lia. reflexivity.
Qed.

Lemma concat_slices {A} (l : list A) (W H : Z) :
  0 <= W -> 0 <= H -> Z.of_nat (length l) = W * H ->
  concat (map (fun y => take (Z.to_nat W) (drop (Z.to_nat (y * W)) l))
              (seqZ 0 H)) = l.
Proof.
  intros HW HH. revert l.
  pattern H. apply natlike_ind; [| |exact HH]; clear H HH.
  - intros l Hl. destruct l; [reflexivity | simpl in Hl; lia].
  - intros H HH IH l Hl.
    rewrite seqZ_cons by lia. cbn [map concat].
    rewrite Z.mul_0_l. cbn [Z.to_nat drop].
    etransitivity; [|apply (take_drop (Z.to_nat W) l)]. f_equal.
    replace (Z.pred (Z.succ H)) with H by lia.
    etransitivity; [|apply (IH (drop (Z.to_nat W) l)); rewrite length_drop; nia].
    change (Z.succ 0) with (1 + 0).
    rewrite <- (fmap_add_seqZ 1 0 H).
    f_equal. change (@map) with (@fmap list _).
    rewrite <- list_fmap_compose. apply list_fmap_ext.
    intros i y Hy. apply lookup_seqZ in Hy as [-> Hi]. cbn.
    rewrite drop_drop. do 2 f_equal. nia.
Qed.


(** ** The layout of the TGA and BMP files *)
Lemma bake_transparency_length pal tr :
  length (bake_transparency pal tr) = length pal.
Proof. destruct tr, pal; reflexivity. Qed.

Lemma vec_at_nth {A} (v : list A) (i : Z) (d : A) :
  0 <= i < Z.of_nat (length v) -> vec_at v i = Done (nth (Z.to_nat i) v d).
Proof.
  intros Hi. unfold vec_at.
  destruct (0 <=? i) eqn:E; [|lia].
  destruct (v !! Z.to_nat i) as [x|] eqn:El.
  - f_equal. symmetry. apply nth_lookup_Some with (d := d) in El. exact El.
  - apply lookup_ge_None_1 in El. lia.
Qed.

Module TGAFacts.

Lemma int_max_small n : n <= 4 -> n <= INT_MAX.
Proof. unfold INT_MAX. cbn. lia. Qed.

Lemma emits_tga_u8 v : emits (TGA.write_u8 v) tt [v].
Proof. apply emits_write. cbn. vm_compute. discriminate. Qed.

Lemma emits_tga_u16 v : emits (TGA.write_u16 (to_u16 v)) tt (le16 v).
Proof.
  unfold TGA.write_u16. rewrite to_u16_le16.
  apply emits_write. vm_compute. discriminate.
Qed.

Lemma emits_tga_u16_const v : 0 <= v < 65536 -> emits (TGA.write_u16 v) tt (le16 v).
Proof.
  intros Hv. replace v with (to_u16 v) at 1; [apply emits_tga_u16|].
  unfold to_u16. apply Z.mod_small. exact Hv.
Qed.

Lemma emits_map pal :
  length pal = 256%nat ->
  emits (forM (TGA.write_entry pal) (seqZ 0 256) tt) tt (bgr_map pal).
Proof.
  intros Hpal.
  destruct (emits_forM (TGA.write_entry pal) (fun _ => True) (fun _ => tt)
              (fun i => let c := nth (Z.to_nat i) pal (rgba 0 0 0 0) in
                        [b c; g c; r c])
              (seqZ 0 256)) with (v := tt) as ([] & Hrun & _).
  - intros i [] Hi _. split; [|exact I].
    apply elem_of_seqZ in Hi. unfold TGA.write_entry.
    eapply emits_lift_bind.
    + apply (vec_at_nth _ _ (rgba 0 0 0 0)). lia.
    + apply emits_write. vm_compute. discriminate.
  - exact I.
  - unfold bgr_map.
    rewrite <- (map_nth_seqZ pal (rgba 0 0 0 0)) at 2.
    rewrite Hpal. change (Z.of_nat 256) with 256.
    rewrite map_map. exact Hrun.
Qed.

Lemma emits_rows px W H :
  0 <= W -> 0 <= H -> Z.of_nat (length px) = W * H -> W <= INT_MAX ->
  emits (forM (TGA.write_row px W) (seqZ 0 H) tt) tt px.
Proof.
  intros HW HH Hpx Hmax.
  destruct (emits_forM (TGA.write_row px W) (fun _ => True) (fun _ => tt)
              (fun y => take (Z.to_nat W) (drop (Z.to_nat (y * W)) px))
              (seqZ 0 H)) with (v := tt) as ([] & Hrun & _).
  - intros y [] Hy _. split; [|exact I].
    apply elem_of_seqZ in Hy. unfold TGA.write_row.
    eapply emits_lift_bind.
    + unfold vec_slice.
      destruct ((0 <=? y * W) && (0 <=? W) && (y * W + W <=? Z.of_nat (length px)))
        eqn:E; [reflexivity|].
      rewrite !andb_false_iff in E. destruct E as [[E|E]|E]; nia.
    + apply emits_write. rewrite length_take. lia.
  - exact I.
  - rewrite concat_slices in Hrun by assumption. exact Hrun.
Qed.

Lemma SaveToTGA_layout px W H pal tr :
  0 <= W -> 0 <= H -> Z.of_nat (length px) = W * H ->
  length pal = 256%nat -> W <= INT_MAX ->
  returns (TGA.SaveToTGA px W H pal tr) 0
          (tga_header W H ++ bgr_map (bake_transparency pal tr) ++ px) true.
Proof.
  intros HW HH Hpx Hpal Hmax.
  enough (Hgen : returns (TGA.SaveToTGA px W H pal tr) 0
            ([0] ++ [1] ++ [1] ++ le16 0 ++ le16 256 ++ [24] ++ le16 0
             ++ le16 0 ++ le16 W ++ le16 H ++ [8] ++ [32]
             ++ bgr_map (bake_transparency pal tr) ++ px ++ []) true).
  { rewrite app_nil_r in Hgen. exact Hgen. }
  unfold TGA.SaveToTGA. cbv zeta.
  do 3 (eapply returns_bind; [apply emits_tga_u8|]).
  do 2 (eapply returns_bind; [apply emits_tga_u16_const; lia|]).
  eapply returns_bind; [apply emits_tga_u8|].
  do 2 (eapply returns_bind; [apply emits_tga_u16_const; lia|]).
  do 2 (eapply returns_bind; [apply emits_tga_u16|]).
  do 2 (eapply returns_bind; [apply emits_tga_u8|]).
  eapply returns_bind.
  { apply emits_map. rewrite bake_transparency_length. exact Hpal. }
  eapply returns_bind.
  { apply emits_rows; assumption. }
  apply returns_rewind.
Qed.

End TGAFacts.

Lemma land_lnot_3 v : Z.land v (Z.lnot 3) = 4 * (v / 4).
Proof.
  rewrite <- Z.ldiff_land. change 3 with (Z.ones 2).
  rewrite Z.ldiff_ones_r by lia.
  rewrite Z.shiftl_mul_pow2, Z.shiftr_div_pow2 by lia.
  change (2 ^ 2) with 4. lia.
Qed.

Lemma byte_of_low_bits v k :
  0 <= k <= 24 -> ((v mod 2 ^ 32) / 2 ^ k) mod 256 = (v / 2 ^ k) mod 256.
Proof.
  intros Hk. change 256 with (2 ^ 8).
  rewrite <- !Z.shiftr_div_pow2, <- !Z.land_ones by lia.
  apply Z.bits_inj'. intros n Hn.
  rewrite !Z.land_spec, !Z.shiftr_spec by lia.
  destruct (Z.ltb_spec n 8) as [Hlt|Hge].
  - rewrite Z.land_spec.
    rewrite (Z.ones_spec_low 32) by lia. rewrite andb_true_r. reflexivity.
  - rewrite (Z.ones_spec_high 8) by lia. rewrite !andb_false_r. reflexivity.
Qed.

Lemma bytes_u32_le32 v : BMP.bytes_u32 (to_u32 v) = le32 v.
Proof.
  unfold BMP.bytes_u32, le32, to_u32.
  rewrite land_255, !shiftr_land_255 by lia.
  rewrite !byte_of_low_bits by lia.
  pose proof (byte_of_low_bits v 0 ltac:(lia)) as H0.
  change (2 ^ 0) with 1 in H0. rewrite !Z.div_1_r in H0.
  rewrite H0. reflexivity.
Qed.

Lemma bytes_u16_le16 v : BMP.bytes_u16 (to_u16 v) = le16 v.
Proof. apply to_u16_le16. Qed.

Lemma to_u32_small v : 0 <= v < 2 ^ 32 -> to_u32 v = v.
Proof. intros Hv. unfold to_u32. apply Z.mod_small. exact Hv. Qed.

Lemma to_u16_small v : 0 <= v < 2 ^ 16 -> to_u16 v = v.
Proof. intros Hv. unfold to_u16. apply Z.mod_small. exact Hv. Qed.

Lemma int_val_Done v : INT_MIN <= v <= INT_MAX -> int_val v = Done v.
Proof.
  intros Hv. unfold int_val, int_ok.
  destruct (INT_MIN <=? v) eqn:E1; [|lia].
  destruct (v <=? INT_MAX) eqn:E2; [reflexivity|lia].
Qed.

Lemma concat_triples_length {A} (f : A -> list Z) (l : list A) :
  (forall x, length (f x) = 3%nat) ->
  length (concat (map f l)) = (3 * length l)%nat.
Proof.
  intros Hf. induction l as [|x l IH]; [reflexivity|].
  cbn [map concat]. rewrite length_app, Hf, IH. cbn [length]. lia.
Qed.

Lemma insert_triple (pre row0 : list Z) (n : nat) (x y z : Z) :
  length pre = n -> (n + 3 <= length row0)%nat ->
  <[(n + 2)%nat := z]> (<[(n + 1)%nat := y]> (<[n := x]> (pre ++ drop n row0)))
  = (pre ++ [x; y; z]) ++ drop (n + 3) row0.
Proof.
  intros Hpre Hlen.
  destruct (drop n row0) as [|x0 [|x1 [|x2 rest]]] eqn:E;
    try (apply (f_equal length) in E; rewrite length_drop in E;
         cbn [length] in E; lia).
  assert (Hrest : drop (n + 3) row0 = rest).
  { rewrite <- drop_drop, E. reflexivity. }
  rewrite Hrest, <- app_assoc. subst n.
  rewrite (insert_app_r_alt pre _ (length pre)) by lia.
  rewrite (insert_app_r_alt pre _ (length pre + 1)) by lia.
  rewrite (insert_app_r_alt pre _ (length pre + 2)) by lia.
  replace (length pre - length pre)%nat with 0%nat by lia.
  replace (length pre + 1 - length pre)%nat with 1%nat by lia.
  replace (length pre + 2 - length pre)%nat with 2%nat by lia.
  reflexivity.
Qed.

Lemma pixel_in_range (px : list Z) (W H y x : Z) :
  Z.of_nat (length px) = W * H ->
  0 <= y < H -> 0 <= x < W -> 0 <= y * W + x < Z.of_nat (length px).
Proof. intros Hpx Hy Hx. rewrite Hpx. nia. Qed.

Lemma pixel_at_range (px : list Z) (W H y x : Z) :
  Z.of_nat (length px) = W * H ->
  Forall (fun p => 0 <= p < 256) px ->
  0 <= y < H -> 0 <= x < W -> 0 <= pixel_at px W y x < 256.
Proof.
  intros Hpx Hidx Hy Hx. unfold pixel_at.
  pose proof (pixel_in_range px W H y x Hpx Hy Hx) as Hr.
  destruct (px !! Z.to_nat (y * W + x)) as [p|] eqn:E.
  - rewrite (nth_lookup_Some _ _ 0 _ E).
    exact (proj1 (Forall_lookup _ _) Hidx _ _ E).
  - apply lookup_ge_None_1 in E. lia.
Qed.

Module BMPFacts.

Lemma row_size_bounds W : W * 3 <= bmp_row_size W <= W * 3 + 3.
Proof. unfold bmp_row_size. Z.div_mod_to_equations. lia. Qed.

Section Row.

Variables (px : list Z) (W H : Z) (pal : list Color).
Hypothesis HW : 0 <= W.
Hypothesis Hpx : Z.of_nat (length px) = W * H.
Hypothesis Hpal : length pal = 256%nat.
Hypothesis Hidx : Forall (fun p => 0 <= p < 256) px.

Local Abbreviation triple y :=
  (fun x => let c := color_of pal (pixel_at px W y x) in [b c; g c; r c]).

(** The [x] loop overwrites the first [3 * W] bytes of the row buffer. *)
Lemma fill_row y row0 :
  0 <= y < H -> W * 3 <= Z.of_nat (length row0) ->
  foldM (BMP.fill_pixel px W pal y) (seqZ 0 W) row0
  = Done (concat (map (triple y) (seqZ 0 W)) ++ drop (Z.to_nat (W * 3)) row0).
Proof.
  intros Hy Hlen.
  destruct (foldM_seqZ_inv (BMP.fill_pixel px W pal y)
              (fun x row => 0 <= x <= W /\
                 row = concat (map (triple y) (seqZ 0 x))
                       ++ drop (Z.to_nat (x * 3)) row0)
              (Z.to_nat W) 0 row0) as (row & Hrun & _ & Hrow).
  - split; [lia|]. reflexivity.
  - intros x row Hx [_ ->]. rewrite Z2Nat.id in Hx by lia.
    unfold BMP.fill_pixel.
    rewrite (vec_at_nth px _ 0) by (apply (pixel_in_range px W H); (assumption || lia)).
    cbn [ebind]. fold (pixel_at px W y x).
    pose proof (pixel_at_range px W H y x Hpx Hidx Hy ltac:(lia)) as Hp.
    rewrite (vec_at_nth pal _ (rgba 0 0 0 0)) by lia.
    cbn [ebind]. fold (color_of pal (pixel_at px W y x)).
    set (c := color_of pal (pixel_at px W y x)).
    set (pre := concat (map (triple y) (seqZ 0 x))).
    assert (Hpre : length pre = Z.to_nat (x * 3)).
    { unfold pre. rewrite concat_triples_length by reflexivity.
      rewrite length_seqZ. lia. }
    assert (Hlen' : Z.of_nat (length (pre ++ drop (Z.to_nat (x * 3)) row0))
                    = Z.of_nat (length row0)).
    { rewrite length_app, length_drop, Hpre. lia. }
    rewrite vec_set_in_range by lia. cbn [ebind].
    rewrite vec_set_in_range by (rewrite length_insert; lia). cbn [ebind].
    rewrite vec_set_in_range by (rewrite !length_insert; lia).
    eexists. split; [reflexivity|]. split; [lia|].
    replace (Z.to_nat (x * 3 + 0)) with (Z.to_nat (x * 3)) by lia.
    replace (Z.to_nat (x * 3 + 1)) with (Z.to_nat (x * 3) + 1)%nat by lia.
    replace (Z.to_nat (x * 3 + 2)) with (Z.to_nat (x * 3) + 2)%nat by lia.
    rewrite insert_triple by (try exact Hpre; lia).
    replace (Z.to_nat ((x + 1) * 3)) with (Z.to_nat (x * 3) + 3)%nat by lia.
    f_equal. unfold pre.
    rewrite (seqZ_app 0 x 1) by lia.
    rewrite map_app, concat_app. f_equal.
  - rewrite Z2Nat.id in Hrun by lia. rewrite Hrun.
    rewrite Z.add_0_l, Z2Nat.id in Hrow by lia.
    rewrite Hrow. reflexivity.
Qed.

Lemma bmp_row_buffer y : row_buffer W (bmp_row px W pal y).
Proof.
  pose proof (row_size_bounds W) as Hb.
  unfold row_buffer, bmp_row. split.
  - rewrite length_app, length_replicate.
    rewrite concat_triples_length by reflexivity. rewrite length_seqZ. lia.
  - rewrite drop_app_length'; [reflexivity|].
    rewrite concat_triples_length by reflexivity. rewrite length_seqZ. lia.
Qed.

Lemma emits_row y row :
  0 <= y < H -> row_buffer W row -> bmp_row_size W <= INT_MAX ->
  emits (BMP.write_row px W pal y row) (bmp_row px W pal y) (bmp_row px W pal y).
Proof.
  intros Hy [Hlen Hpad] Hmax. pose proof (row_size_bounds W) as Hb.
  unfold BMP.write_row.
  eapply emits_lift_bind.
  { rewrite fill_row by (try exact Hy; lia). rewrite Hpad. reflexivity. }
  fold (bmp_row px W pal y).
  apply (emits_then_ret _ tt).
  apply emits_write. rewrite (proj1 (bmp_row_buffer y)). exact Hmax.
Qed.

Lemma emits_bmp_rows :
  bmp_row_size W <= INT_MAX ->
  exists row,
    emits (forM (BMP.write_row px W pal) (reverse (seqZ 0 H))
                (replicate (Z.to_nat (bmp_row_size W)) 0))
          row
          (concat (map (bmp_row px W pal) (reverse (seqZ 0 H)))).
Proof.
  intros Hmax. pose proof (row_size_bounds W) as Hb.
  destruct (emits_forM (BMP.write_row px W pal) (row_buffer W)
              (bmp_row px W pal) (bmp_row px W pal) (reverse (seqZ 0 H)))
    with (v := replicate (Z.to_nat (bmp_row_size W)) 0) as (row & Hrun & _).
  - intros y row Hy Hrow. apply elem_of_reverse, elem_of_seqZ in Hy.
    split; [apply emits_row; (assumption || lia) | apply bmp_row_buffer].
  - split.
    + rewrite length_replicate. lia.
    + rewrite drop_replicate. f_equal. lia.
  - exists row. exact Hrun.
Qed.

End Row.
Lemma emits_u32 v : emits (BMP.write_u32 (to_u32 v)) tt (le32 v).
Proof.
  unfold BMP.write_u32. rewrite bytes_u32_le32.
  apply emits_write. vm_compute. discriminate.
Qed.

Lemma emits_u32_const v :
  0 <= v < 2 ^ 32 -> emits (BMP.write_u32 v) tt (le32 v).
Proof.
  intros Hv. rewrite <- (to_u32_small v) at 1 by exact Hv. apply emits_u32.
Qed.

Lemma emits_s32 v : emits (BMP.write_s32 v) tt (le32 v).
Proof. apply emits_u32. Qed.

Lemma emits_u16 v : emits (BMP.write_u16 (to_u16 v)) tt (le16 v).
Proof.
  unfold BMP.write_u16. rewrite bytes_u16_le16.
  apply emits_write. vm_compute. discriminate.
Qed.

Lemma emits_u16_const v :
  0 <= v < 2 ^ 16 -> emits (BMP.write_u16 v) tt (le16 v).
Proof.
  intros Hv. rewrite <- (to_u16_small v) at 1 by exact Hv. apply emits_u16.
Qed.

Lemma SaveToBMP_layout px W H pal tr :
  0 < W -> 0 < H -> Z.of_nat (length px) = W * H ->
  length pal = 256%nat -> Forall (fun p => 0 <= p < 256) px ->
  bmp_row_size W * H <= INT_MAX ->
  returns (BMP.SaveToBMP px W H pal tr) 0
          (bmp_header W H
           ++ concat (map (bmp_row px W (bake_transparency pal tr))
                          (reverse (seqZ 0 H))))
          true.
Proof.
  intros HW HH Hpx Hpal Hidx Hmax.
  pose proof (row_size_bounds W) as Hb.
  assert (Hmul : exists q, bmp_row_size W = 4 * q).
  { eexists. reflexivity. }
  assert (Hrow : bmp_row_size W <= INT_MAX - 3).
  { destruct Hmul as [q Hq]. unfold INT_MAX in *. nia. }
  unfold INT_MAX in *.
  enough (Hgen : returns (BMP.SaveToBMP px W H pal tr) 0
            ([66; 77] ++ le32 (54 + bmp_row_size W * H) ++ le16 0 ++ le16 0
             ++ le32 54 ++ le32 40 ++ le32 W ++ le32 H ++ le16 1 ++ le16 24
             ++ le32 0 ++ le32 (bmp_row_size W * H) ++ le32 0 ++ le32 0
             ++ le32 0 ++ le32 0
             ++ concat (map (bmp_row px W (bake_transparency pal tr))
                            (reverse (seqZ 0 H))) ++ []) true).
  { rewrite app_nil_r in Hgen. unfold bmp_header. rewrite <- !app_assoc.
    exact Hgen. }
  unfold BMP.SaveToBMP. cbv zeta.
  eapply returns_lift_bind.
  { apply int_val_Done. unfold INT_MIN, INT_MAX. lia. }
  eapply returns_lift_bind.
  { apply int_val_Done. unfold INT_MIN, INT_MAX. lia. }
  rewrite land_lnot_3. fold (bmp_row_size W).
  eapply returns_lift_bind.
  { apply int_val_Done. unfold INT_MIN, INT_MAX. nia. }
  rewrite (to_u32_small (bmp_row_size W * H)) by nia.
  change (to_u32 (14 + 40 + 0)) with 54.
  eapply returns_bind.
  { apply emits_write. vm_compute. discriminate. }
  eapply returns_bind; [apply emits_u32|].
  do 2 (eapply returns_bind; [apply emits_u16_const; lia|]).
  do 2 (eapply returns_bind; [apply emits_u32_const; lia|]).
  do 2 (eapply returns_bind; [apply emits_s32|]).
  eapply returns_bind; [apply emits_u16_const; lia|].
  eapply returns_bind; [apply emits_u16|].
  eapply returns_bind; [apply emits_u32_const; lia|].
  eapply returns_bind; [apply emits_u32_const; nia|].
  do 2 (eapply returns_bind; [apply emits_s32|]).
  do 2 (eapply returns_bind; [apply emits_u32_const; lia|]).
  destruct (emits_bmp_rows px W H (bake_transparency pal tr)) as (row & Hrows);
    try assumption; try lia.
  { rewrite bake_transparency_length. exact Hpal. }
  { unfold INT_MAX. lia. }
  eapply returns_bind; [exact Hrows|].
  apply returns_rewind.
Qed.

End BMPFacts.


(** ** The front end of [ConvertPID] *)
Lemma mem_u32_le32 v : mem_u32 v = le32 v.
Proof.
  unfold mem_u32, le32. rewrite land_255, !shiftr_land_255 by lia.
  reflexivity.
Qed.

(** Four little-endian bytes loaded as an [int]. *)
Lemma load_le32 v :
  load_int (v mod 256) ((v / 2 ^ 8) mod 256) ((v / 2 ^ 16) mod 256)
           ((v / 2 ^ 24) mod 256) = to_int v.
Proof.
  unfold load_int.
  rewrite !Z.shiftl_mul_pow2 by lia.
  assert (Hx : forall x, 0 <= x < 2 ^ 32 ->
            x mod 256 + (x / 2 ^ 8) mod 256 * 2 ^ 8
            + (x / 2 ^ 16) mod 256 * 2 ^ 16 + (x / 2 ^ 24) mod 256 * 2 ^ 24 = x).
  { intros x Hx.
    pose proof (Z.div_mod x 256 ltac:(lia)) as H0.
    pose proof (Z.div_mod (x / 256) 256 ltac:(lia)) as H1.
    pose proof (Z.div_mod (x / 256 / 256) 256 ltac:(lia)) as H2.
    rewrite (Z.div_div x 256 256) in H1, H2 by lia.
    rewrite (Z.div_div x (256 * 256) 256) in H2 by lia.
    change (2 ^ 8) with 256. change (2 ^ 16) with (256 * 256).
    change (2 ^ 24) with (256 * 256 * 256).
    assert (H3 : x / (256 * 256 * 256) < 256).
    { apply Z.div_lt_upper_bound; lia. }
    assert (H4 : 0 <= x / (256 * 256 * 256)) by (apply Z.div_pos; lia).
    rewrite (Z.mod_small (x / (256 * 256 * 256))) by lia.
    lia. }
  pose proof (Z.mod_pos_bound v (2 ^ 32) ltac:(lia)) as Hm.
  pose proof (Hx (v mod 2 ^ 32) Hm) as Hsum.
  rewrite !byte_of_low_bits in Hsum by lia.
  pose proof (byte_of_low_bits v 0 ltac:(lia)) as H0.
  change (2 ^ 0) with 1 in H0. rewrite !Z.div_1_r in H0.
  rewrite H0 in Hsum. rewrite Hsum.
  unfold to_int, to_u32. rewrite Z.mod_mod by lia. reflexivity.
Qed.

Lemma to_int_small v : INT_MIN <= v <= INT_MAX -> to_int v = v.
Proof.
  unfold INT_MIN, INT_MAX, to_int, to_u32. intros Hv.
  destruct (Z_lt_le_dec v 0) as [Hneg|Hpos].
  - replace (v mod 2 ^ 32) with (v + 2 ^ 32).
    + destruct (v + 2 ^ 32 <? 2 ^ 31) eqn:E; lia.
    + symmetry. rewrite <- (Z.mod_small (v + 2 ^ 32) (2 ^ 32)) by lia.
      rewrite <- Z.add_mod_idemp_r by lia. rewrite Z.mod_same by lia.
      rewrite Z.add_0_r. reflexivity.
  - rewrite Z.mod_small by lia. destruct (v <? 2 ^ 31) eqn:E; lia.
Qed.

Lemma foldM_Ret_code {V} (body : Z -> V -> exec V) (l : list Z) (k : Z) :
  (forall i s c, body i s = Ret c -> c = k) ->
  forall s c, foldM body l s = Ret c -> c = k.
Proof.
  intros Hbody. induction l as [|j l IH]; intros s c; cbn [foldM].
  - discriminate.
  - intros Hrun. apply ebind_Ret in Hrun as [Hrun | (s1 & _ & Hrun)]; eauto.
Qed.

Lemma foldM_not_Fuel {V} (body : Z -> V -> exec V) (l : list Z) :
  (forall i s, body i s <> Fuel) ->
  forall s, foldM body l s <> Fuel.
Proof.
  intros Hbody. induction l as [|j l IH]; intros s; cbn [foldM].
  - discriminate.
  - destruct (body j s) as [s1| | |] eqn:Hb; cbn [ebind];
      try discriminate; [apply IH | exfalso; eapply Hbody; eauto].
Qed.

Lemma ebind_Fuel {A B} (m : exec A) (k : A -> exec B) :
  ebind m k = Fuel -> m = Fuel \/ exists a, m = Done a /\ k a = Fuel.
Proof.
  destruct m; try discriminate; cbn [ebind]; intros Hk;
    [right; eauto | left; reflexivity].
Qed.

Module FrontEnd.
Import Convert.

Lemma read_header_short src :
  (length (remaining src) < 32)%nat -> read_header src = Ret 1.
Proof.
  intros Hlen. unfold read_header, Wrapper.read, Host.Read.
  change (32 =? 0) with false. cbv iota.
  change (Wrapper.clamp_count 32) with 32.
  destruct ((0 <=? position src) && (0 <=? 32)); [|reflexivity].
  destruct (0 <? stream_size src - position src); [|reflexivity].
  destruct (Z.of_nat (length (take _ (remaining src))) =? 32) eqn:E;
    [|reflexivity].
  apply Z.eqb_eq in E. rewrite length_take in E. lia.
Qed.

Lemma read_header_Ret src c : read_header src = Ret c -> c = 1.
Proof.
  unfold read_header. destruct (Wrapper.read src 32) as [hb s].
  destruct (_ =? 32); [discriminate|]. intros [= <-]. reflexivity.
Qed.

Lemma validate_Ret hdr c : validate hdr = Ret c -> c = 1.
Proof.
  unfold validate. destruct (negb _); [intros [= <-]; reflexivity|].
  destruct (_ || _); [intros [= <-]; reflexivity | discriminate].
Qed.

Lemma guard_Ret hdr c : guard_pixel_count hdr = Ret c -> c = 1.
Proof.
  unfold guard_pixel_count.
  destruct (_ <? _); [intros [= <-]; reflexivity | discriminate].
Qed.

Lemma read_entry_Ret tr i st c : read_entry tr i st = Ret c -> c = 1.
Proof.
  unfold read_entry. destruct st as [s pal].
  destruct (Wrapper.read_byte s) as [[cr|] s1]; [|intros [= <-]; reflexivity].
  destruct (Wrapper.read_byte s1) as [[cg|] s2]; [|intros [= <-]; reflexivity].
  destruct (Wrapper.read_byte s2) as [[cb|] s3]; [|intros [= <-]; reflexivity].
  discriminate.
Qed.

Lemma read_entry_not_Fuel tr i st : read_entry tr i st <> Fuel.
Proof.
  unfold read_entry. destruct st as [s pal].
  destruct (Wrapper.read_byte s) as [[cr|] s1]; [|discriminate].
  destruct (Wrapper.read_byte s1) as [[cg|] s2]; [|discriminate].
  destruct (Wrapper.read_byte s2) as [[cb|] s3]; discriminate.
Qed.

Lemma resolve_palette_Ret hp tr s c :
  resolve_palette hp tr s = Ret c -> c = 1.
Proof.
  unfold resolve_palette. destruct hp; [|discriminate].
  destruct (Wrapper.seek s (-768) soFromEnd) as [p s'].
  destruct (p <? 0); [intros [= <-]; reflexivity|].
  apply foldM_Ret_code. intros i st c0. apply read_entry_Ret.
Qed.

Lemma resolve_palette_not_Fuel hp tr s : resolve_palette hp tr s <> Fuel.
Proof.
  unfold resolve_palette. destruct hp; [|discriminate].
  destruct (Wrapper.seek s (-768) soFromEnd) as [p s'].
  destruct (p <? 0); [discriminate|].
  apply foldM_not_Fuel. intros i st. apply read_entry_not_Fuel.
Qed.

Lemma prepare_Ret src c : prepare src = Ret c -> c = 1.
Proof.
  unfold prepare. intros Hp.
  apply ebind_Ret in Hp as [Hp | ([hdr s] & _ & Hp)];
    [eapply read_header_Ret; eauto|].
  apply ebind_Ret in Hp as [Hp | ([] & _ & Hp)];
    [eapply validate_Ret; eauto|].
  apply ebind_Ret in Hp as [Hp | (n & _ & Hp)];
    [eapply guard_Ret; eauto|].
  apply ebind_Ret in Hp as [Hp | ([s1 pal] & _ & Hp)];
    [eapply resolve_palette_Ret; eauto|].
  destruct (Wrapper.seek s1 32 soFromBeginning) as [p s2].
  destruct (p <? 0); [|discriminate Hp].
  injection Hp as <-. reflexivity.
Qed.

Lemma prepare_not_Fuel src : prepare src <> Fuel.
Proof.
  unfold prepare. intros Hp.
  apply ebind_Fuel in Hp as [Hp | ([hdr s] & _ & Hp)].
  { unfold read_header in Hp. destruct (Wrapper.read src 32) as [hb s].
    destruct (_ =? 32); discriminate Hp. }
  apply ebind_Fuel in Hp as [Hp | ([] & _ & Hp)].
  { unfold validate in Hp. destruct (negb _); [discriminate Hp|].
    destruct (_ || _); discriminate Hp. }
  apply ebind_Fuel in Hp as [Hp | (n & _ & Hp)].
  { unfold guard_pixel_count in Hp. destruct (_ <? _); discriminate Hp. }
  apply ebind_Fuel in Hp as [Hp | ([s1 pal] & _ & Hp)].
  { revert Hp. apply resolve_palette_not_Fuel. }
  destruct (Wrapper.seek s1 32 soFromBeginning) as [p s2].
  destruct (p <? 0); discriminate Hp.
Qed.

Lemma transform_not_Fuel mirror invert W H px :
  Orientation.transform mirror invert W H px <> Fuel.
Proof.
  unfold Orientation.transform, Orientation.flip.
  destruct (mirror || invert); [|discriminate].
  intros Hc. apply ebind_Fuel in Hc as [Hc | (? & _ & Hc)];
    [|discriminate Hc].
  revert Hc. apply foldM_not_Fuel. intros y bufs.
  unfold Orientation.copy_row. apply foldM_not_Fuel.
  intros x bufs'. unfold Orientation.copy_pixel, vec_at, vec_set.
  destruct (0 <=? _); [|discriminate].
  destruct (_ !! _); [|discriminate]. cbn [ebind].
  destruct (_ && _); discriminate.
Qed.

(** The decoder fails with [return 1] only, and never for lack of fuel. *)
Lemma decode_outcome src :
  (exists d, decode src = Done d) \/ decode src = Ret 1 \/ decode src = UB.
Proof.
  destruct (prepare src) as [[[[hdr n] pal] s]|c| |] eqn:Hp.
  - pose proof (ConvertFacts.prepare_Done _ _ _ _ _ Hp)
      as (Hpos & Hn & Hrange & _ & HW & HH).
    assert (Hmax : 2 ^ 30 < SIZE_MAX) by (vm_compute; reflexivity).
    rewrite (ConvertFacts.decode_after_prepare _ _ _ _ _ Hp).
    destruct (DecompressFacts.run_spec (flag hdr 32) n s) as (st & Hrun & _);
      [lia | lia |].
    destruct (Decompress.decompress (flag hdr 32) n s) as [px|c| |] eqn:Hd;
      cbn [ebind]; auto.
    + destruct (Orientation.transform _ _ _ _ px) as [px'|c| |] eqn:Ht;
        cbn [ebind]; eauto.
      * exfalso. revert Ht. apply ConvertFacts.transform_not_Ret.
      * exfalso. revert Ht. apply transform_not_Fuel.
    + apply ConvertFacts.decompress_Ret in Hd; [subst c; auto|lia|lia].
    + exfalso. unfold Decompress.decompress in Hd. rewrite Hrun in Hd.
      cbn [ebind] in Hd. unfold Decompress.check in Hd.
      destruct (_ =? _); discriminate Hd.
  - apply prepare_Ret in Hp as Hc. subst c.
    unfold decode. rewrite Hp. auto.
  - unfold decode. rewrite Hp. auto.
  - exfalso. revert Hp. apply prepare_not_Fuel.
Qed.

(** A decoder that stops leaves the destination as it was. *)
Lemma ConvertPID_decode_Ret mode zlib src dst cnv :
  decode src = Ret 1 -> ConvertPID mode zlib src dst cnv = (Done 1, dst).
Proof.
  intros Hd. unfold ConvertPID, call, bindM, lift. rewrite Hd. reflexivity.
Qed.

Lemma ConvertPID_decode_UB mode zlib src dst cnv :
  decode src = UB -> ConvertPID mode zlib src dst cnv = (UB, dst).
Proof.
  intros Hd. unfold ConvertPID, call, bindM, lift. rewrite Hd. reflexivity.
Qed.

Lemma ConvertPID_short_header mode zlib src dst cnv :
  (length (remaining src) < 32)%nat ->
  ConvertPID mode zlib src dst cnv = (Done 1, dst).
Proof.
  intros Hlen. apply ConvertPID_decode_Ret.
  unfold decode, prepare. rewrite read_header_short by exact Hlen.
  reflexivity.
Qed.

Lemma ConvertPID_unknown_format mode zlib src dst cnv :
  cnv <> "BMP"%string -> cnv <> "TGA8"%string -> cnv <> "TGA"%string ->
  cnv <> "PNG"%string ->
  ConvertPID mode zlib src dst cnv = (Done 1, dst)
  \/ ConvertPID mode zlib src dst cnv = (UB, dst).
Proof.
  intros H1 H2 H3 H4.
  destruct (decode_outcome src) as [[d Hd] | [Hd | Hd]].
  - left. unfold ConvertPID, call, bindM, lift. rewrite Hd.
    unfold encode.
    apply String.eqb_neq in H1, H2, H3, H4.
    rewrite H1, H2, H3, H4. reflexivity.
  - left. apply ConvertPID_decode_Ret. exact Hd.
  - right. apply ConvertPID_decode_UB. exact Hd.
Qed.

End FrontEnd.

Module HeaderFacts.
Import Convert.

(** The header the front end reads from a file that starts with four
    little-endian words. *)
Lemma read_header_words id flags w h rest :
  (16 <= length rest)%nat ->
  read_header (memory_stream (le32 id ++ le32 flags ++ le32 w ++ le32 h
                              ++ rest))
  = Done ({| ID := to_int id; Flags := to_int flags;
             Width := to_int w; Height := to_int h |},
          set_position
            (memory_stream (le32 id ++ le32 flags ++ le32 w ++ le32 h
                            ++ rest)) 32).
Proof.
  intros Hrest.
  destruct rest as [|r0 [|r1 [|r2 [|r3 [|r4 [|r5 [|r6 [|r7 [|r8 [|r9 [|r10
    [|r11 [|r12 [|r13 [|r14 [|r15 rest]]]]]]]]]]]]]]]];
    try (cbn [length] in Hrest; lia).
  unfold read_header, Wrapper.read, Host.Read, memory_stream, stream_size,
    remaining, le32.
  cbn [content position app length].
  change (32 =? 0) with false. cbv iota.
  change (Wrapper.clamp_count 32) with 32.
  change ((0 <=? 0) && (0 <=? 32)) with true. cbv iota.
  set (n := Z.of_nat _).
  assert (Hn : 32 <= n) by (subst n; lia).
  destruct (0 <? n - 0) eqn:E; [|lia].
  rewrite Z.sub_0_r, Z.min_r by lia.
  change (Z.to_nat 32) with 32%nat. change (Z.to_nat 0) with 0%nat.
  cbn [drop take length Z.of_nat Pos.of_succ_nat Pos.succ Z.eqb Pos.eqb].
  unfold field. cbn [nth Nat.add].
  rewrite !load_le32. unfold set_position. cbn [content position write_log
    host_accepts host_seek_faulty]. reflexivity.
Qed.

Lemma ConvertPID_bad_header mode zlib id flags w h rest dst cnv :
  (16 <= length rest)%nat ->
  INT_MIN <= id <= INT_MAX -> INT_MIN <= w <= INT_MAX ->
  INT_MIN <= h <= INT_MAX ->
  id <> 10 \/ w <= 0 \/ h <= 0 ->
  ConvertPID mode zlib
    (memory_stream (le32 id ++ le32 flags ++ le32 w ++ le32 h ++ rest))
    dst cnv
  = (Done 1, dst).
Proof.
  intros Hrest Hid Hw Hh Hbad.
  apply FrontEnd.ConvertPID_decode_Ret.
  unfold decode, prepare. rewrite read_header_words by exact Hrest.
  cbn [ebind]. unfold validate. cbn [ID Width Height].
  rewrite !to_int_small by assumption.
  destruct (id =? 10) eqn:Eid; cbn [negb]; [|reflexivity].
  destruct (w <=? 0) eqn:Ew; cbn [orb]; [reflexivity|].
  destruct (h <=? 0) eqn:Eh; cbn [orb]; [reflexivity|].
  lia.
Qed.

End HeaderFacts.

Lemma drop_nth (l : list Z) (n : nat) :
  (n < length l)%nat -> drop n l = nth n l 0 :: drop (S n) l.
Proof.
  intros Hn. destruct (lookup_lt_is_Some_2 l n Hn) as [x Hx].
  rewrite (nth_lookup_Some _ _ 0 _ Hx). apply drop_S. exact Hx.
Qed.

Module PaletteFacts.
Import Convert.

Section Embedded.

Variables (s : TStream) (tr : bool).
Hypothesis Hseek : host_seek_faulty s = false.
Hypothesis Hlen : (768 <= length (content s))%nat.

Local Abbreviation base := (Z.of_nat (length (content s)) - 768).
Local Abbreviation tail := (drop (length (content s) - 768) (content s)).
Local Abbreviation entry :=
  (fun i => rgba (nth (Z.to_nat (3 * i)) tail 0)
                 (nth (Z.to_nat (3 * i + 1)) tail 0)
                 (nth (Z.to_nat (3 * i + 2)) tail 0)
                 (if tr && (i =? 0) then 0 else 255)).

Lemma byte_at k :
  0 <= k < 768 ->
  Wrapper.read_byte (set_position s (base + k))
  = (Some (nth (Z.to_nat k) tail 0), set_position s (base + k + 1)).
Proof.
  intros Hk.
  rewrite (read_byte_cons (set_position s (base + k)))
    with (b := nth (Z.to_nat k) tail 0)
         (rest := drop (S (Z.to_nat (base + k))) (content s)).
  - reflexivity.
  - cbn [position set_position]. lia.
  - unfold remaining. cbn [content position set_position].
    rewrite drop_nth by lia. f_equal.
    rewrite !nth_lookup, lookup_drop. do 2 f_equal. lia.
Qed.

Lemma read_entry_at i pal :
  0 <= i < 256 ->
  read_entry tr i (set_position s (base + 3 * i), pal)
  = Done (set_position s (base + 3 * (i + 1)), pal ++ [entry i]).
Proof.
  intros Hi. unfold read_entry.
  rewrite (byte_at (3 * i)) by lia.
  replace (base + 3 * i + 1) with (base + (3 * i + 1)) by lia.
  rewrite (byte_at (3 * i + 1)) by lia.
  replace (base + (3 * i + 1) + 1) with (base + (3 * i + 2)) by lia.
  rewrite (byte_at (3 * i + 2)) by lia.
  replace (base + (3 * i + 2) + 1) with (base + 3 * (i + 1)) by lia.
  reflexivity.
Qed.

Lemma resolve_embedded :
  resolve_palette true tr s
  = Done (set_position s (Z.of_nat (length (content s))),
          embedded_palette (content s) tr).
Proof.
  unfold resolve_palette, Wrapper.seek, Host.Seek. rewrite Hseek.
  change (to_int (-768)) with (-768). unfold stream_size.
  destruct (Z.of_nat (length (content s)) + -768 <? 0) eqn:E; [lia|].
  destruct (foldM_seqZ_inv (read_entry tr)
              (fun i st => 0 <= i <= 256 /\
                 st = (set_position s (base + 3 * i),
                       map entry (seqZ 0 i)))
              256 0
              (set_position s (Z.of_nat (length (content s)) + -768), []))
    as (st & Hrun & _ & Hst).
  - split; [lia|]. f_equal. unfold set_position. f_equal. lia.
  - intros i st Hi [_ ->]. eexists. split.
    + apply read_entry_at. lia.
    + split; [lia|]. f_equal.
      rewrite (seqZ_app 0 i 1) by lia. rewrite map_app. reflexivity.
  - change (Z.of_nat 256) with 256 in Hrun. rewrite Hrun, Hst.
    f_equal. f_equal. unfold set_position. f_equal. lia.
Qed.

End Embedded.

(** A file too short to hold a palette, or a host that fails the seek. *)
Lemma resolve_short s tr :
  (length (content s) < 768)%nat \/ host_seek_faulty s = true ->
  resolve_palette true tr s = Ret 1.
Proof.
  intros Hs. unfold resolve_palette, Wrapper.seek, Host.Seek.
  destruct (host_seek_faulty s) eqn:Hf; [reflexivity|].
  destruct Hs as [Hs|Hs]; [|discriminate Hs].
  change (to_int (-768)) with (-768). unfold stream_size.
  destruct (_ <? 0) eqn:E; [reflexivity | lia].
Qed.

End PaletteFacts.


(** ** The oriented raster and the decoder as a whole *)
Module OrientedFacts.
Import Orientation.

Section Raster.

Variables (W H : Z).
Hypothesis HW : 0 < W.
Hypothesis HH : 0 < H.

Lemma row_col y x :
  0 <= x < W -> 0 <= y -> (y * W + x) / W = y /\ (y * W + x) mod W = x.
Proof.
  intros Hx Hy. split.
  - rewrite Z.add_comm, Z.div_add by lia. rewrite Z.div_small by lia. lia.
  - rewrite Z.add_comm, Z.mod_add by lia. apply Z.mod_small. lia.
Qed.

Lemma oriented_length m i px : Z.of_nat (length (oriented m i W H px)) = W * H.
Proof. unfold oriented. rewrite length_map, length_seqZ. nia. Qed.

Lemma oriented_lookup m i px k :
  0 <= k < W * H ->
  oriented m i W H px !! Z.to_nat k
  = Some (pixel_at px W (srcY i H (k / W)) (srcX m W (k mod W))).
Proof.
  intros Hk. unfold oriented.
  change (@map) with (@fmap list _). rewrite list_lookup_fmap.
  rewrite (lookup_seqZ_lt 0 (W * H)) by lia.
  cbn. rewrite Z2Nat.id by lia. reflexivity.
Qed.

Lemma pixel_at_oriented m i px y x :
  0 <= x < W -> 0 <= y < H ->
  pixel_at (oriented m i W H px) W y x
  = pixel_at px W (srcY i H y) (srcX m W x).
Proof.
  intros Hx Hy. unfold pixel_at at 1.
  assert (Hk : 0 <= y * W + x < W * H) by nia.
  pose proof (oriented_lookup m i px _ Hk) as Hl.
  rewrite (nth_lookup_Some _ _ 0 _ Hl).
  destruct (row_col y x Hx ltac:(lia)) as [-> ->]. reflexivity.
Qed.

(** The flags compose by exclusive or. *)
Lemma oriented_compose m1 i1 m2 i2 px :
  oriented m2 i2 W H (oriented m1 i1 W H px)
  = oriented (xorb m1 m2) (xorb i1 i2) W H px.
Proof.
  unfold oriented at 1 3. apply map_ext_in. intros k Hk.
  apply list_elem_of_In, elem_of_seqZ in Hk.
  assert (Hx : 0 <= k mod W < W) by (apply Z.mod_pos_bound; lia).
  assert (Hy : 0 <= k / W < H).
  { split; [apply Z.div_pos; lia | apply Z.div_lt_upper_bound; lia]. }
  cbv zeta.
  fold (srcY i2 H (k / W)). fold (srcX m2 W (k mod W)).
  rewrite pixel_at_oriented.
  - unfold srcX, srcY. destruct m1, m2, i1, i2; cbn [xorb]; f_equal; lia.
  - unfold srcX. destruct m2; lia.
  - unfold srcY. destruct i2; lia.
Qed.

Lemma oriented_id px :
  Z.of_nat (length px) = W * H -> oriented false false W H px = px.
Proof.
  intros Hlen. unfold oriented. rewrite <- Hlen.
  rewrite <- (map_nth_seqZ px 0) at 2.
  apply map_ext_in. intros k Hk.
  apply list_elem_of_In, elem_of_seqZ in Hk.
  cbv zeta. unfold pixel_at. do 2 f_equal.
  rewrite Z.mul_comm. symmetry. apply Z.div_mod. lia.
Qed.

Variable px : list Z.
Hypothesis Hlen : Z.of_nat (length px) = W * H.

Lemma flip_oriented m i :
  exists bufs, flip m i W H px = Done bufs /\
               flipped bufs = oriented m i W H px.
Proof.
  destruct (OrientationFacts.flip_filled m i W H px HW HH Hlen)
    as (bufs & Hrun & _ & Hfl & Hrel).
  exists bufs. split; [exact Hrun|].
  apply list_eq. intros n.
  destruct (decide (Z.of_nat n < W * H)) as [Hn|Hn].
  - replace n with (Z.to_nat (Z.of_nat n)) by lia.
    rewrite oriented_lookup by lia.
    assert (Hx : 0 <= Z.of_nat n mod W < W) by (apply Z.mod_pos_bound; lia).
    assert (Hy : 0 <= Z.of_nat n / W < H).
    { split; [apply Z.div_pos; lia | apply Z.div_lt_upper_bound; lia]. }
    pose proof (Z.div_mod (Z.of_nat n) W ltac:(lia)) as Hdm.
    replace (Z.of_nat n) with (Z.of_nat n / W * W + Z.of_nat n mod W) at 1
      by lia.
    rewrite Hrel by lia.
    unfold pixel_at.
    assert (Hsx : 0 <= srcX m W (Z.of_nat n mod W) < W).
    { unfold srcX. destruct m; lia. }
    assert (Hsy : 0 <= srcY i H (Z.of_nat n / W) < H).
    { unfold srcY. destruct i; lia. }
    destruct (lookup_lt_is_Some_2 px
                (Z.to_nat (srcY i H (Z.of_nat n / W) * W
                           + srcX m W (Z.of_nat n mod W)))) as [v Hv];
      [nia|].
    rewrite Hv. f_equal. symmetry. apply nth_lookup_Some with (d := 0) in Hv.
    exact Hv.
  - rewrite !lookup_ge_None_2; [reflexivity | |].
    + pose proof (oriented_length m i px). lia.
    + lia.
Qed.

Lemma transform_oriented m i :
  transform m i W H px = Done (oriented m i W H px).
Proof.
  unfold transform.
  destruct (m || i) eqn:E.
  - destruct (flip_oriented m i) as (bufs & -> & <-). reflexivity.
  - apply orb_false_iff in E as [-> ->]. rewrite oriented_id by exact Hlen.
    reflexivity.
Qed.

End Raster.

End OrientedFacts.

Module PipelineFacts.
Import Convert.

Lemma flag_of_word tr mi inv rle own :
  let hdr := {| ID := 10; Flags := flags_word tr mi inv rle own;
                Width := 0; Height := 0 |} in
  flag hdr 1 = tr /\ flag hdr 8 = mi /\ flag hdr 16 = inv /\
  flag hdr 32 = rle /\ flag hdr 128 = own.
Proof. destruct tr, mi, inv, rle, own; vm_compute; repeat split. Qed.

Lemma flag_indep id w h id' w' h' fl mask :
  flag {| ID := id; Flags := fl; Width := w; Height := h |} mask
  = flag {| ID := id'; Flags := fl; Width := w'; Height := h' |} mask.
Proof. reflexivity. Qed.

Lemma flags_word_range tr mi inv rle own :
  0 <= flags_word tr mi inv rle own < 256.
Proof. destruct tr, mi, inv, rle, own; vm_compute; split; congruence. Qed.

Lemma file_length flags W H reserved data :
  length reserved = 16%nat ->
  length (pid_file flags W H reserved data) = (32 + length data)%nat.
Proof.
  intros Hres. unfold pid_file. rewrite !length_app, Hres. reflexivity.
Qed.

Lemma file_data flags W H reserved data :
  length reserved = 16%nat ->
  drop 32 (pid_file flags W H reserved data) = data.
Proof.
  intros Hres. unfold pid_file.
  rewrite !app_assoc. apply drop_app_length'.
  rewrite !length_app, Hres. reflexivity.
Qed.

Section File.

Variables (tr mi inv rle own : bool) (W H : Z) (reserved data : list Z).
Hypothesis Hres : length reserved = 16%nat.
Hypothesis HW : 0 < W.
Hypothesis HH : 0 < H.
Hypothesis Hsize : W * H <= 2 ^ 30.
Hypothesis Hown : own = true -> (736 <= length data)%nat.

Local Abbreviation file :=
  (pid_file (flags_word tr mi inv rle own) W H reserved data).
Local Abbreviation hdr :=
  {| ID := 10; Flags := flags_word tr mi inv rle own;
     Width := W; Height := H |}.

Lemma prepare_file :
  exists s,
    prepare (memory_stream file)
    = Done (hdr, W * H, pid_palette file tr own, s) /\
    position s = 32 /\ content s = file.
Proof.
  pose proof (flags_word_range tr mi inv rle own) as Hfl.
  assert (HWr : W < 2 ^ 31 /\ H < 2 ^ 31) by nia.
  unfold prepare.
  unfold pid_file at 1. rewrite !mem_u32_le32.
  rewrite HeaderFacts.read_header_words
    by (rewrite length_app, Hres; lia).
  cbn [ebind].
  rewrite !to_int_small by (unfold INT_MIN, INT_MAX; lia).
  unfold validate. cbn [ID Width Height negb Z.eqb Pos.eqb].
  destruct (W <=? 0) eqn:EW; [lia|].
  destruct (H <=? 0) eqn:EH; [lia|]. cbn [orb ebind].
  unfold guard_pixel_count.
  rewrite ConvertFacts.pixel_count_exact by (cbn [Width Height]; lia).
  cbn [Width Height].
  destruct (2 ^ 30 <? W * H) eqn:EG; [lia|]. cbn [ebind].
  destruct (flag_of_word tr mi inv rle own) as (Htr & _ & _ & _ & Hpal).
  cbv zeta in Htr, Hpal.
  rewrite (flag_indep 10 W H 10 0 0 _ 1), Htr.
  rewrite (flag_indep 10 W H 10 0 0 _ 128), Hpal.
  rewrite <- !mem_u32_le32. fold file.
  destruct own.
  - rewrite PaletteFacts.resolve_embedded.
    + cbn [ebind]. unfold Wrapper.seek, Host.Seek.
      cbn [host_seek_faulty set_position memory_stream].
      change (to_int 32) with 32. cbn [Z.ltb Z.compare].
      eexists. split; [reflexivity|]. split; reflexivity.
    + reflexivity.
    + cbn [content set_position memory_stream].
      rewrite file_length by exact Hres. specialize (Hown eq_refl). lia.
  - unfold resolve_palette. cbn [ebind].
    unfold Wrapper.seek, Host.Seek.
    cbn [host_seek_faulty set_position memory_stream].
    change (to_int 32) with 32. cbn [Z.ltb Z.compare].
    unfold pid_palette.
    destruct tr; (eexists; split; [reflexivity | split; reflexivity]).
Qed.

Hypothesis Hdata : W * H <= Z.of_nat (length (expand rle data)).

Lemma decode_file :
  decode (memory_stream file)
  = Done {| header := hdr; useTransparency := tr;
            palette := pid_palette file tr own;
            pixels := oriented mi inv W H
                        (take (Z.to_nat (W * H)) (expand rle data)) |}.
Proof.
  destruct prepare_file as (s & Hprep & Hpos & Hcont).
  rewrite (ConvertFacts.decode_after_prepare _ _ _ _ _ Hprep).
  destruct (flag_of_word tr mi inv rle own) as (Htr & Hmi & Hinv & Hrle & _).
  cbv zeta in Htr, Hmi, Hinv, Hrle.
  rewrite (flag_indep 10 W H 10 0 0 _ 1), Htr.
  rewrite (flag_indep 10 W H 10 0 0 _ 8), Hmi.
  rewrite (flag_indep 10 W H 10 0 0 _ 16), Hinv.
  rewrite (flag_indep 10 W H 10 0 0 _ 32), Hrle.
  assert (Hrem : remaining s = data).
  { unfold remaining. rewrite Hpos, Hcont. apply file_data. exact Hres. }
  assert (Hmax : 2 ^ 30 < SIZE_MAX) by (vm_compute; reflexivity).
  rewrite DecompressFacts.decompress_ok; rewrite ?Hrem; try lia.
  cbn [ebind Width Height].
  rewrite OrientedFacts.transform_oriented; try assumption.
  - reflexivity.
  - rewrite length_take. lia.
Qed.

End File.

End PipelineFacts.


(** ** The layout of the PNG file *)
(** A loop whose iterations each append their own bytes to the vector. *)
Lemma foldM_append (body : Z -> list Z -> exec (list Z)) (out : Z -> list Z)
    (l : list Z) :
  (forall i acc, i ∈ l -> body i acc = Done (acc ++ out i)) ->
  forall acc, foldM body l acc = Done (acc ++ concat (map out l)).
Proof.
  induction l as [|i l IH]; intros Hbody acc; cbn [foldM map concat].
  - rewrite app_nil_r. reflexivity.
  - rewrite Hbody by (apply elem_of_cons; left; reflexivity).
    cbn [ebind]. rewrite IH.
    + rewrite <- app_assoc. reflexivity.
    + intros j acc' Hj. apply Hbody. apply elem_of_cons. right. exact Hj.
Qed.

Module PNGFileFacts.
Import PNG.

Lemma plte_bytes_map pal :
  length pal = 256%nat -> plte_bytes pal = Done (rgb_map pal).
Proof.
  intros Hpal. unfold plte_bytes.
  set (triple := fun i : Z =>
         let c := nth (Z.to_nat i) pal (rgba 0 0 0 0) in [r c; g c; b c]).
  destruct (foldM_seqZ_inv (plte_entry pal)
              (fun i plte => 0 <= i <= 256 /\
                 plte = concat (map triple (seqZ 0 i))
                        ++ drop (Z.to_nat (i * 3)) (replicate 768 0))
              256 0 (replicate 768 0)) as (plte & Hrun & _ & Hplte).
  - split; [lia | reflexivity].
  - intros i plte Hi [_ ->]. change (Z.of_nat 256) with 256 in Hi.
    unfold plte_entry.
    rewrite (vec_at_nth pal _ (rgba 0 0 0 0)) by lia. cbn [ebind].
    set (c := nth (Z.to_nat i) pal (rgba 0 0 0 0)).
    set (pre := concat (map triple (seqZ 0 i))).
    assert (Hpre : length pre = Z.to_nat (i * 3)).
    { unfold pre. rewrite concat_triples_length by reflexivity.
      rewrite length_seqZ. lia. }
    assert (Hlen : Z.of_nat (length (pre ++ drop (Z.to_nat (i * 3))
                                              (replicate 768 0))) = 768).
    { rewrite length_app, length_drop, length_replicate, Hpre. lia. }
    rewrite vec_set_in_range by lia. cbn [ebind].
    rewrite vec_set_in_range by (rewrite length_insert; lia). cbn [ebind].
    rewrite vec_set_in_range by (rewrite !length_insert; lia).
    eexists. split; [reflexivity|]. split; [lia|].
    replace (Z.to_nat (i * 3 + 0)) with (Z.to_nat (i * 3)) by lia.
    replace (Z.to_nat (i * 3 + 1)) with (Z.to_nat (i * 3) + 1)%nat by lia.
    replace (Z.to_nat (i * 3 + 2)) with (Z.to_nat (i * 3) + 2)%nat by lia.
    rewrite insert_triple
      by (try exact Hpre; rewrite length_replicate; lia).
    replace (Z.to_nat ((i + 1) * 3)) with (Z.to_nat (i * 3) + 3)%nat by lia.
    f_equal. unfold pre.
    rewrite (seqZ_app 0 i 1) by lia.
    rewrite map_app, concat_app. f_equal.
  - change (Z.of_nat 256) with 256 in Hrun, Hplte. rewrite Hrun, Hplte.
    change (Z.to_nat ((0 + 256) * 3)) with 768%nat.
    rewrite drop_replicate. cbn [Nat.sub replicate]. rewrite app_nil_r.
    f_equal. unfold rgb_map.
    rewrite <- (map_nth_seqZ pal (rgba 0 0 0 0)).
    rewrite Hpal, map_map. reflexivity.
Qed.

Section Rows.

Variables (px : list Z) (W H : Z) (pal : list Color).
Hypothesis Hvalid : valid_raster px W H pal.

Lemma row_slice y :
  0 <= y < H ->
  take (Z.to_nat W) (drop (Z.to_nat (y * W)) px)
  = concat (map (fun x => [pixel_at px W y x]) (seqZ 0 W)).
Proof.
  destruct Hvalid as (HW & HH & Hlen & _).
  intros Hy. apply list_eq. intros n.
  destruct (decide (Z.of_nat n < W)) as [Hn|Hn].
  - rewrite lookup_take_lt by lia. rewrite lookup_drop.
    assert (Hc : forall l : list Z, concat (map (fun p => [p]) l) = l).
    { induction l as [|p l IH]; [reflexivity|]. cbn. rewrite IH. reflexivity. }
    rewrite <- (map_map (fun x => pixel_at px W y x) (fun p => [p])), Hc.
    change (@map) with (@fmap list _). rewrite list_lookup_fmap.
    rewrite (lookup_seqZ_lt 0 W n) by lia. cbn.
    unfold pixel_at.
    destruct (lookup_lt_is_Some_2 px (Z.to_nat (y * W) + n)) as [p Hp];
      [nia|].
    rewrite Hp. f_equal. symmetry.
    replace (Z.to_nat (y * W + (0 + Z.of_nat n)))
      with (Z.to_nat (y * W) + n)%nat by lia.
    apply nth_lookup_Some with (d := 0) in Hp. exact Hp.
  - rewrite !lookup_ge_None_2; [reflexivity | |].
    + assert (Hl : forall l : list Z,
                length (concat (map (fun x => [pixel_at px W y x]) l))
                = length l).
      { induction l as [|p l IH]; [reflexivity|]. cbn. rewrite IH.
        reflexivity. }
      rewrite Hl, length_seqZ. lia.
    + rewrite length_take. lia.
Qed.

Lemma idat_scanlines mode tr :
  idat_bytes mode px W H pal tr = Done (scanlines mode px W H pal tr).
Proof.
  pose proof Hvalid as (HW & HH & Hlen & Hpal & Hbytes & Hint).
  assert (Hok : forall v, 0 <= v <= W * H * 4 + H -> int_val v = Done v).
  { intros v Hv. apply int_val_Done. unfold INT_MIN. lia. }
  assert (Hpix : forall y x, 0 <= y < H -> 0 <= x < W ->
            vec_at px (y * W + x) = Done (pixel_at px W y x) /\
            vec_at pal (pixel_at px W y x)
            = Done (color_of pal (pixel_at px W y x))).
  { intros y x Hy Hx.
    pose proof (pixel_at_range px W H y x Hlen Hbytes Hy Hx) as Hr.
    split.
    - apply vec_at_nth. nia.
    - apply vec_at_nth. lia. }
  unfold scanlines.
  destruct mode; cbn [idat_bytes].
  - rewrite (foldM_append _
               (fun y => 0 :: concat (map (fun x => png_sample PNG_8 pal tr
                                                      (pixel_at px W y x))
                                          (seqZ 0 W)))).
    + reflexivity.
    + intros y acc Hy. apply elem_of_seqZ in Hy.
      unfold row_8, vec_slice.
      replace ((y + 1) * W - y * W) with W by lia.
      destruct ((0 <=? y * W) && (0 <=? W)
                && (y * W + W <=? Z.of_nat (length px))) eqn:E.
      2:{ rewrite !andb_false_iff in E. destruct E as [[E|E]|E]; nia. }
      cbn [ebind]. rewrite row_slice by lia.
      rewrite <- app_assoc. reflexivity.
  - do 3 (rewrite Hok by nia; cbn [ebind]). unfold rows.
    rewrite (foldM_append _
               (fun y => 0 :: concat (map (fun x => png_sample PNG_24 pal tr
                                                      (pixel_at px W y x))
                                          (seqZ 0 W)))).
    + reflexivity.
    + intros y acc Hy. apply elem_of_seqZ in Hy.
      rewrite (foldM_append _
                 (fun x => png_sample PNG_24 pal tr (pixel_at px W y x))).
      * rewrite <- app_assoc. reflexivity.
      * intros x acc' Hx. apply elem_of_seqZ in Hx.
        unfold pixel_24.
        destruct (Hpix y x) as [-> Hc]; [lia | lia |]. cbn [ebind].
        rewrite Hc. reflexivity.
  - do 3 (rewrite Hok by nia; cbn [ebind]). unfold rows.
    rewrite (foldM_append _
               (fun y => 0 :: concat (map (fun x => png_sample PNG_32 pal tr
                                                      (pixel_at px W y x))
                                          (seqZ 0 W)))).
    + reflexivity.
    + intros y acc Hy. apply elem_of_seqZ in Hy.
      rewrite (foldM_append _
                 (fun x => png_sample PNG_32 pal tr (pixel_at px W y x))).
      * rewrite <- app_assoc. reflexivity.
      * intros x acc' Hx. apply elem_of_seqZ in Hx.
        unfold pixel_32.
        destruct (Hpix y x) as [-> Hc]; [lia | lia |]. cbn [ebind].
        rewrite Hc. reflexivity.
Qed.

End Rows.

End PNGFileFacts.

Module PNGAssembly.
Import PNG.

Lemma frame_chunk type data :
  PNGReference.frame (bytes_of_string type) data (stored_crc type data)
  = png_chunk type data.
Proof. reflexivity. Qed.

Lemma rgb_map_length pal : length (rgb_map pal) = (3 * length pal)%nat.
Proof.
  unfold rgb_map. apply concat_triples_length. reflexivity.
Qed.

Lemma assemble_file mode zlib px W H pal tr :
  valid_raster px W H pal ->
  deflateInit_ok zlib = true ->
  Z.of_nat (length (deflate zlib (scanlines mode px W H pal tr))) < 2 ^ 32 ->
  assemble mode zlib px W H pal tr
  = Done (png_file mode zlib px W H pal tr).
Proof.
  intros Hvalid Hinit Hsize.
  pose proof Hvalid as (HW & HH & Hlen & Hpal & Hbytes & Hint).
  unfold INT_MAX in Hint.
  unfold assemble.
  rewrite PNGFacts.write_chunk_frame
    by (reflexivity || (cbn [length ihdr_bytes mem_u32 app]; simpl; lia)).
  cbn [ebind].
  assert (Hihdr : take (Z.to_nat 13) (ihdr_bytes W H (color_type mode))
                  = be32_bytes W ++ be32_bytes H
                    ++ [8; match mode with
                           | PNG_8 => 3 | PNG_24 => 2 | PNG_32 => 6
                           end; 0; 0; 0]).
  { unfold ihdr_bytes. rewrite !mem_of_byteswap.
    rewrite !to_u32_small by nia.
    rewrite take_ge by (cbn [length app be32_bytes]; lia).
    destruct mode; reflexivity. }
  rewrite Hihdr, frame_chunk.
  rewrite (PNGFileFacts.idat_scanlines px W H pal Hvalid).
  assert (Hpc : palette_chunks mode
                  (signature ++ png_chunk "IHDR"
                     (be32_bytes W ++ be32_bytes H
                      ++ [8; match mode with
                             | PNG_8 => 3 | PNG_24 => 2 | PNG_32 => 6
                             end; 0; 0; 0]))
                  pal tr
                = Done (signature ++ png_chunk "IHDR"
                          (be32_bytes W ++ be32_bytes H
                           ++ [8; match mode with
                                  | PNG_8 => 3 | PNG_24 => 2 | PNG_32 => 6
                                  end; 0; 0; 0])
                        ++ match mode with
                           | PNG_8 =>
                               png_chunk "PLTE" (rgb_map pal)
                               ++ (if tr
                                   then png_chunk "tRNS"
                                          (0 :: replicate 255 255)
                                   else [])
                           | _ => []
                           end)).
  { unfold palette_chunks. destruct mode;
      try (rewrite app_nil_r; reflexivity).
    rewrite PNGFileFacts.plte_bytes_map by exact Hpal. cbn [ebind].
    rewrite PNGFacts.write_chunk_frame
      by (reflexivity || (rewrite rgb_map_length, Hpal; lia)).
    cbn [ebind].
    rewrite take_ge by (rewrite rgb_map_length, Hpal; lia).
    rewrite frame_chunk.
    destruct tr.
    - rewrite PNGFacts.write_chunk_frame
        by (reflexivity || (vm_compute; split; discriminate)).
      change (take (Z.to_nat 256) trns_bytes) with (0 :: replicate 255 255).
      rewrite frame_chunk, <- !app_assoc. reflexivity.
    - rewrite app_nil_r, <- !app_assoc. reflexivity. }
  rewrite Hpc. cbn [ebind]. rewrite Hinit. cbn [ebind].
  rewrite to_u32_small by lia.
  rewrite PNGFacts.write_chunk_frame by (reflexivity || lia).
  cbn [ebind].
  rewrite Nat2Z.id, firstn_all, frame_chunk.
  rewrite PNGFacts.write_chunk_empty by reflexivity.
  rewrite frame_chunk. unfold png_file.
  change signature with [137; 80; 78; 71; 13; 10; 26; 10].
  rewrite <- !app_assoc. reflexivity.
Qed.

Lemma SaveToPNG_layout mode zlib px W H pal tr :
  valid_raster px W H pal ->
  deflateInit_ok zlib = true ->
  Z.of_nat (length (png_file mode zlib px W H pal tr)) <= INT_MAX ->
  returns (SaveToPNG mode zlib px W H pal tr) 0
          (png_file mode zlib px W H pal tr) false.
Proof.
  intros Hvalid Hinit Hsize.
  assert (Hdefl : Z.of_nat (length (deflate zlib
                                      (scanlines mode px W H pal tr)))
                  < 2 ^ 32).
  { unfold png_file, png_chunk in Hsize. rewrite !length_app in Hsize.
    unfold INT_MAX in Hsize. lia. }
  unfold SaveToPNG.
  eapply returns_lift_bind.
  { apply assemble_file; assumption. }
  intros s Hs.
  destruct (emits_write (png_file mode zlib px W H pal tr) Hsize s Hs)
    as (s' & Hrun & Hcont & Hs').
  unfold write_or_fail, bindM in Hrun.
  unfold bindM, returnM.
  destruct (dst_write (png_file mode zlib px W H pal tr) s)
    as [[n| | |] s1] eqn:Hw; try discriminate Hrun.
  exists s1.
  assert (s1 = s') as ->.
  { destruct (n =? _); cbv [retM returnM] in Hrun; congruence. }
  split; [reflexivity|]. split; [exact Hcont|]. apply Hs'.
Qed.

End PNGAssembly.


(** ** The plugin interface *)
Module DUCIFacts.
Import DUCI.

Lemma string_length_list s :
  String.length s = length (list_ascii_of_string s).
Proof. induction s as [|c s IH]; [reflexivity|]. cbn. rewrite IH. reflexivity. Qed.

Lemma list_length_string l :
  String.length (string_of_list_ascii l) = length l.
Proof. induction l as [|c l IH]; [reflexivity|]. cbn. rewrite IH. reflexivity. Qed.

(** The characters a [ShortString] can take from a C string. *)
Local Abbreviation fits src :=
  (take 255 (list_ascii_of_string (c_str src))).

Lemma WriteShortString_len dst src :
  len (WriteShortString dst (Some src)) = Z.of_nat (length (fits src)).
Proof.
  unfold WriteShortString, strlen. cbn [len].
  rewrite length_take, string_length_list.
  set (n := length (list_ascii_of_string (c_str src))).
  unfold to_u8. change (2 ^ 8) with 256.
  destruct (255 <? Z.of_nat n) eqn:E.
  - rewrite Z.mod_small by lia. lia.
  - rewrite Z.mod_small by lia. lia.
Qed.

Lemma WriteShortString_data dst src :
  well_formed dst ->
  data (WriteShortString dst (Some src))
  = let n := length (fits src) in
    let copied := fits src ++ drop n (data dst) in
    if (n <? 255)%nat then <[n := zero]> copied else copied.
Proof.
  intros [Hlen Hdata].
  pose proof (WriteShortString_len dst src) as Hl.
  unfold WriteShortString in *. cbn [len data] in *.
  set (l := to_u8 _) in *. rewrite Hl. clearbody l. subst l.
  cbv zeta. rewrite Nat2Z.id.
  assert (Htake : take (length (fits src)) (list_ascii_of_string (c_str src))
                  = fits src).
  { rewrite length_take.
    destruct (Nat.le_gt_cases 255 (length (list_ascii_of_string (c_str src)))).
    - rewrite Nat.min_l by lia. reflexivity.
    - rewrite Nat.min_r by lia. rewrite !take_ge by lia. reflexivity. }
  rewrite Htake.
  assert (Hcopied :
            (if negb (Z.of_nat (length (fits src)) =? 0)
             then fits src ++ drop (length (fits src)) (data dst)
             else data dst)
            = fits src ++ drop (length (fits src)) (data dst)).
  { destruct (Z.of_nat (length (fits src)) =? 0) eqn:E; [|reflexivity].
    cbn [negb]. apply Z.eqb_eq in E.
    destruct (fits src) as [|c rest]; [reflexivity | cbn [length] in E; lia]. }
  rewrite Hcopied.
  destruct (Z.of_nat (length (fits src)) <? 255) eqn:E1;
    destruct (length (fits src) <? 255)%nat eqn:E2; try reflexivity.
  - apply Nat.ltb_ge in E2. lia.
  - apply Nat.ltb_lt in E2. lia.
Qed.

Lemma fits_length src : (length (fits src) <= 255)%nat.
Proof. rewrite length_take. lia. Qed.

Lemma WriteShortString_well_formed dst src :
  well_formed dst -> well_formed (WriteShortString dst src).
Proof.
  intros Hwf. destruct src as [src|].
  - pose proof (fits_length src) as Hf. split.
    + rewrite WriteShortString_len. lia.
    + rewrite WriteShortString_data by exact Hwf. cbv zeta.
      destruct Hwf as [_ Hdata].
      destruct (_ <? _)%nat; rewrite ?length_insert, length_app, length_drop;
        lia.
  - destruct Hwf as [_ Hdata]. split; [cbn; lia | exact Hdata].
Qed.

Lemma ShortStringToString_write dst src :
  well_formed dst ->
  ShortStringToString (WriteShortString dst (Some src))
  = string_of_list_ascii (fits src).
Proof.
  intros Hwf. pose proof (fits_length src) as Hf.
  unfold ShortStringToString.
  rewrite WriteShortString_len, WriteShortString_data by exact Hwf.
  cbv zeta.
  destruct (255 <? Z.of_nat (length (fits src))) eqn:E; [lia|].
  rewrite Nat2Z.id. f_equal.
  destruct (_ <? _)%nat.
  - rewrite take_insert_ge by lia. apply take_app_length.
  - apply take_app_length.
Qed.

Lemma ShortStringToString_null dst :
  ShortStringToString (WriteShortString dst None) = EmptyString.
Proof. reflexivity. Qed.

(** The terminator [WriteShortString] stores after a short string. *)
Lemma WriteShortString_terminator dst src :
  well_formed dst ->
  (length (fits src) < 255)%nat ->
  data (WriteShortString dst (Some src)) !! length (fits src) = Some zero.
Proof.
  intros Hwf Hshort. rewrite WriteShortString_data by exact Hwf. cbv zeta.
  destruct (Nat.ltb_spec (length (fits src)) 255) as [_|Hge]; [|lia].
  apply list_lookup_insert_eq.
  destruct Hwf as [_ Hdata]. rewrite length_app, length_drop. lia.
Qed.

Lemma c_str_no_nul s :
  (forall c, In c (list_ascii_of_string s) -> c <> zero) -> c_str s = s.
Proof.
  induction s as [|c s IH]; intros Hs; [reflexivity|].
  cbn [c_str]. destruct (Ascii.eqb c zero) eqn:E.
  - apply Ascii.eqb_eq in E. exfalso. apply (Hs c); [left; reflexivity | exact E].
  - rewrite IH; [reflexivity|]. intros c' Hc'. apply Hs. right. exact Hc'.
Qed.

End DUCIFacts.

Module NameFacts.
Import DUCI.

Lemma rfind_None s c :
  rfind s c = None <-> ~ In c (list_ascii_of_string s).
Proof.
  induction s as [|x s IH]; cbn [rfind list_ascii_of_string In].
  - tauto.
  - destruct (rfind s c) as [i|].
    + split; [discriminate|]. intros Hn. exfalso. apply Hn. right.
      destruct (in_dec ascii_dec c (list_ascii_of_string s)) as [Hin|Hin];
        [exact Hin|]. apply IH in Hin. discriminate Hin.
    + destruct (Ascii.eqb x c) eqn:E.
      * apply Ascii.eqb_eq in E. split; [discriminate|]. intros Hn.
        exfalso. apply Hn. left. exact E.
      * apply Ascii.eqb_neq in E. split; [|reflexivity].
        intros _ [Hx|Hin]; [exact (E Hx)|].
        exact (proj1 IH eq_refl Hin).
Qed.

(** [rfind] and [substr] split a string at its last [c]. *)
Lemma rfind_Some s c i :
  rfind s c = Some i ->
  exists pre post,
    s = (pre ++ String c post)%string /\ rfind post c = None /\
    substr s i = String c post.
Proof.
  revert i. induction s as [|x s IH]; intros i; cbn [rfind]; [discriminate|].
  destruct (rfind s c) as [j|] eqn:Hr.
  - intros [= <-]. destruct (IH j eq_refl) as (pre & post & -> & Hpost & Hsub).
    exists (String x pre), post. repeat split; assumption.
  - destruct (Ascii.eqb x c) eqn:E; [|discriminate].
    apply Ascii.eqb_eq in E. subst x. intros [= <-].
    exists EmptyString, s. repeat split. exact Hr.
Qed.

Lemma rfind_split pre post c :
  rfind post c = None ->
  exists i, rfind (pre ++ String c post) c = Some i /\
            substr (pre ++ String c post) i = String c post.
Proof.
  intros Hpost. induction pre as [|x pre IH].
  - cbn [append rfind]. rewrite Hpost, Ascii.eqb_refl.
    exists 0%nat. split; reflexivity.
  - destruct IH as (i & Hi & Hsub). cbn [append rfind]. rewrite Hi.
    exists (S i). split; [reflexivity | exact Hsub].
Qed.

Lemma N_of_ascii_inj c1 c2 : N_of_ascii c1 = N_of_ascii c2 -> c1 = c2.
Proof.
  intros H. rewrite <- (ascii_N_embedding c1), <- (ascii_N_embedding c2), H.
  reflexivity.
Qed.

Lemma stricmp_cons c1 r1 c2 r2 :
  _stricmp (String c1 r1) (String c2 r2) = 0
  <-> tolower c1 = tolower c2 /\ _stricmp r1 r2 = 0.
Proof.
  cbn [_stricmp].
  destruct (N.ltb_spec (N_of_ascii (tolower c1)) (N_of_ascii (tolower c2)))
    as [Hlt|Hge].
  - split; [discriminate|]. intros [He _]. rewrite He in Hlt. lia.
  - destruct (N.ltb_spec (N_of_ascii (tolower c2)) (N_of_ascii (tolower c1)))
      as [Hlt'|Hge'].
    + split; [discriminate|]. intros [He _]. rewrite He in Hlt'. lia.
    + split.
      * intros Hr. split; [|exact Hr]. apply N_of_ascii_inj. lia.
      * intros [_ Hr]. exact Hr.
Qed.

Lemma stricmp_nil s : _stricmp s EmptyString = 0 <-> s = EmptyString.
Proof. destruct s; cbn; split; (discriminate || reflexivity). Qed.

Ltac by_cases c :=
  destruct c as [[] [] [] [] [] [] [] []]; vm_compute;
  split; intros Hc; try discriminate Hc;
  try (left; reflexivity); try (right; reflexivity);
  try (destruct Hc as [Hc|Hc]; discriminate Hc); try reflexivity.

Lemma tolower_dot c : tolower c = "."%char <-> c = "."%char.
Proof.
  destruct c as [[] [] [] [] [] [] [] []]; vm_compute;
    split; intros Hc; try discriminate Hc; reflexivity.
Qed.

Lemma tolower_p c : tolower c = "p"%char <-> c = "p"%char \/ c = "P"%char.
Proof. by_cases c. Qed.

Lemma tolower_i c : tolower c = "i"%char <-> c = "i"%char \/ c = "I"%char.
Proof. by_cases c. Qed.

Lemma tolower_d c : tolower c = "d"%char <-> c = "d"%char \/ c = "D"%char.
Proof. by_cases c. Qed.

End NameFacts.

Module CompatFacts.
Import DUCI NameFacts.

Lemma c_str_nil s :
  c_str s = EmptyString <-> s = EmptyString \/ exists r, s = String zero r.
Proof.
  destruct s as [|c s]; cbn [c_str].
  - split; [left; reflexivity | reflexivity].
  - destruct (Ascii.eqb c zero) eqn:E.
    + apply Ascii.eqb_eq in E. subst c.
      split; [right; eauto | reflexivity].
    + apply Ascii.eqb_neq in E. split; [discriminate|].
      intros [H | (r & [= Hc _])]; [discriminate H | contradiction].
Qed.

Lemma c_str_cons c s :
  c <> zero -> c_str (String c s) = String c (c_str s).
Proof.
  intros Hc. cbn [c_str]. apply Ascii.eqb_neq in Hc. rewrite Hc. reflexivity.
Qed.

(** A C string compares equal to [".pid"] exactly when it is a dot and the
    three letters, in either case. *)
Lemma stricmp_pid s :
  _stricmp (c_str s) ".pid" = 0 <->
  exists c1 c2 c3 rest,
    s = String "." (String c1 (String c2 (String c3 rest))) /\
    (c1 = "p" \/ c1 = "P")%char /\ (c2 = "i" \/ c2 = "I")%char /\
    (c3 = "d" \/ c3 = "D")%char /\
    (rest = EmptyString \/ exists r, rest = String zero r).
Proof.
  split.
  - intros H.
    destruct s as [|c0 s]; [discriminate H|].
    cbn [c_str] in H. destruct (Ascii.eqb c0 zero); [discriminate H|].
    apply stricmp_cons in H as [H0 H].
    change (tolower ".") with "."%char in H0. apply (proj1 (tolower_dot _)) in H0.
    destruct s as [|c1 s]; [discriminate H|].
    cbn [c_str] in H. destruct (Ascii.eqb c1 zero); [discriminate H|].
    apply stricmp_cons in H as [H1 H].
    change (tolower "p") with "p"%char in H1. apply (proj1 (tolower_p _)) in H1.
    destruct s as [|c2 s]; [discriminate H|].
    cbn [c_str] in H. destruct (Ascii.eqb c2 zero); [discriminate H|].
    apply stricmp_cons in H as [H2 H].
    change (tolower "i") with "i"%char in H2. apply (proj1 (tolower_i _)) in H2.
    destruct s as [|c3 s]; [discriminate H|].
    cbn [c_str] in H. destruct (Ascii.eqb c3 zero); [discriminate H|].
    apply stricmp_cons in H as [H3 H].
    change (tolower "d") with "d"%char in H3. apply (proj1 (tolower_d _)) in H3.
    apply stricmp_nil, c_str_nil in H.
    subst c0. exists c1, c2, c3, s. repeat split; assumption.
  - intros (c1 & c2 & c3 & rest & -> & H1 & H2 & H3 & Hrest).
    apply c_str_nil in Hrest.
    rewrite c_str_cons by discriminate.
    rewrite c_str_cons by (destruct H1 as [-> | ->]; discriminate).
    rewrite c_str_cons by (destruct H2 as [-> | ->]; discriminate).
    rewrite c_str_cons by (destruct H3 as [-> | ->]; discriminate).
    rewrite Hrest.
    apply stricmp_cons. split; [reflexivity|].
    apply stricmp_cons. split; [apply tolower_p; exact H1|].
    apply stricmp_cons. split; [apply tolower_i; exact H2|].
    apply stricmp_cons. split; [apply tolower_d; exact H3|].
    reflexivity.
Qed.

Lemma stricmp_upper s : _stricmp s ".PID" = _stricmp s ".pid".
Proof.
  destruct s as [|c0 [|c1 [|c2 [|c3 [|c4 s]]]]]; reflexivity.
Qed.

Lemma append_nonempty pre c post :
  String.length (pre ++ String c post) <> 0%nat.
Proof. destruct pre; cbn; discriminate. Qed.

Lemma in_append c pre post :
  In c (list_ascii_of_string (pre ++ post))
  <-> In c (list_ascii_of_string pre) \/ In c (list_ascii_of_string post).
Proof.
  induction pre as [|x pre IH]; cbn [append list_ascii_of_string In].
  - tauto.
  - rewrite IH. tauto.
Qed.

(** The extension test shared by [IsFileCompatible] and [GetFileConvert]. *)
Lemma extension_test nam :
  (exists i, rfind nam "." = Some i /\
             _stricmp (c_str (substr nam i)) ".pid" = 0)
  <-> exists stem ext, nam = (stem ++ ext)%string /\ pid_extension ext.
Proof.
  split.
  - intros (i & Hr & Hcmp).
    apply rfind_Some in Hr as (pre & post & -> & Hpost & Hsub).
    rewrite Hsub in Hcmp.
    apply stricmp_pid in Hcmp
      as (c1 & c2 & c3 & rest & [= ->] & H1 & H2 & H3 & Hrest).
    apply rfind_None in Hpost. cbn [list_ascii_of_string In] in Hpost.
    exists pre, (String "." (String c1 (String c2 (String c3 rest)))).
    split; [reflexivity|].
    exists c1, c2, c3, rest. repeat split; try assumption.
    intros Hin. apply Hpost. right. right. right. exact Hin.
  - intros (stem & ext & -> & c1 & c2 & c3 & rest & -> & H1 & H2 & H3
            & Hrest & Hdot).
    destruct (rfind_split stem (String c1 (String c2 (String c3 rest))) ".")
      as (i & Hi & Hsub).
    { apply rfind_None. cbn [list_ascii_of_string In].
      intros [Hc | [Hc | [Hc | Hc]]]; [| | |exact (Hdot Hc)].
      - destruct H1 as [-> | ->]; discriminate Hc.
      - destruct H2 as [-> | ->]; discriminate Hc.
      - destruct H3 as [-> | ->]; discriminate Hc. }
    exists i. split; [exact Hi|]. rewrite Hsub.
    apply stricmp_pid. exists c1, c2, c3, rest. repeat split; assumption.
Qed.

Lemma IsFileCompatible_spec nam_ss fmt_ss :
  IsFileCompatible nam_ss fmt_ss = true
  <-> exists stem ext,
        ShortStringPtrToString nam_ss = (stem ++ ext)%string
        /\ pid_extension ext.
Proof.
  rewrite <- extension_test. unfold IsFileCompatible.
  set (nam := ShortStringPtrToString nam_ss).
  destruct (String.length nam =? 0)%nat eqn:E.
  - apply Nat.eqb_eq in E. destruct nam; [|discriminate E].
    split; [discriminate|]. intros (i & Hi & _). discriminate Hi.
  - destruct (rfind nam ".") as [i|].
    + split.
      * intros H. apply Z.eqb_eq in H. eauto.
      * intros (j & [= <-] & H). apply Z.eqb_eq. exact H.
    + split; [discriminate|]. intros (i & Hi & _). discriminate Hi.
Qed.

Lemma GetFileConvert_count mode nam_ss fmt_ss fmt_ss' :
  NumFormats (GetFileConvert mode nam_ss fmt_ss)
  = if IsFileCompatible nam_ss fmt_ss' then 3 else 0.
Proof.
  unfold GetFileConvert, IsFileCompatible.
  set (nam := ShortStringPtrToString nam_ss).
  destruct (String.length nam =? 0)%nat eqn:E.
  - apply Nat.eqb_eq in E. destruct nam; [|discriminate E]. reflexivity.
  - destruct (rfind nam ".") as [i|]; [|reflexivity].
    rewrite stricmp_upper.
    destruct (_stricmp _ _ =? 0); reflexivity.
Qed.

End CompatFacts.

Module StreamEntryFacts.
Import DUCI NameFacts CompatFacts.

(** The list [GetFileConvert] returns for a compatible name. *)
Local Abbreviation formats mode :=
  (fill_entry
     (fill_entry
        (fill_entry {| NumFormats := 3; List := List zero_list |} 0
           "BMP - Windows Bitmap (24bpp)" "bmp" "BMP")
        1 "TGA - Targa (8bpp Colormap)" "tga" "TGA8")
     2 ("PNG - Portable Network Graphics (" ++ mode_digits mode ++ "bpp)")
     "png" "PNG").

Lemma GetFileConvert_compatible mode nam_ss fmt_ss :
  IsFileCompatible nam_ss fmt_ss = true ->
  GetFileConvert mode nam_ss fmt_ss = formats mode.
Proof.
  unfold GetFileConvert, IsFileCompatible.
  set (nam := ShortStringPtrToString nam_ss).
  destruct (String.length nam =? 0)%nat; [discriminate|].
  destruct (rfind nam ".") as [i|]; [|discriminate].
  rewrite stricmp_upper. intros ->. reflexivity.
Qed.

Lemma formats_entries mode :
  exists e0 e1 e2,
    take 3 (List (formats mode)) = [e0; e1; e2] /\
    ShortStringToString (ID e0) = "BMP"%string /\
    ShortStringToString (ID e1) = "TGA8"%string /\
    ShortStringToString (ID e2) = "PNG"%string /\
    ShortStringToString (Ext e0) = "bmp"%string /\
    ShortStringToString (Ext e1) = "tga"%string /\
    ShortStringToString (Ext e2) = "png"%string.
Proof.
  destruct mode; do 3 eexists; (split; [vm_compute; reflexivity|]);
    repeat split; vm_compute; reflexivity.
Qed.

Lemma compatible_nonempty nam_ss fmt_ss :
  IsFileCompatible nam_ss fmt_ss = true ->
  (String.length (ShortStringPtrToString nam_ss) =? 0)%nat = false.
Proof.
  unfold IsFileCompatible.
  destruct (String.length _ =? 0)%nat; [discriminate | reflexivity].
Qed.

Lemma ConvertStream_token mode zlib src dst nam_ss fmt_ss id token :
  (String.length (ShortStringPtrToString nam_ss) =? 0)%nat = false ->
  ShortStringToString id = token ->
  (String.length token =? 0)%nat = false ->
  c_str token = token ->
  ConvertStream mode zlib src dst nam_ss fmt_ss (Some id)
  = Convert.ConvertPID mode zlib src dst token.
Proof.
  intros Hnam Hid Hlen Hc. unfold ConvertStream.
  cbn [ShortStringPtrToString]. rewrite Hnam, Hid, Hlen, Hc. reflexivity.
Qed.

Lemma ConvertStream_empty mode zlib src dst nam_ss fmt_ss cnv_ss :
  ShortStringPtrToString nam_ss = EmptyString
  \/ ShortStringPtrToString cnv_ss = EmptyString ->
  ConvertStream mode zlib src dst nam_ss fmt_ss cnv_ss = (Done 1, dst).
Proof.
  unfold ConvertStream. intros [-> | ->]; cbn [String.length Nat.eqb orb].
  - reflexivity.
  - rewrite orb_true_r. reflexivity.
Qed.

Lemma ConvertStream_unknown mode zlib src dst nam_ss fmt_ss cnv_ss :
  let cnv := c_str (ShortStringPtrToString cnv_ss) in
  cnv <> "BMP"%string -> cnv <> "TGA8"%string -> cnv <> "TGA"%string ->
  cnv <> "PNG"%string ->
  ConvertStream mode zlib src dst nam_ss fmt_ss cnv_ss = (Done 1, dst)
  \/ ConvertStream mode zlib src dst nam_ss fmt_ss cnv_ss = (UB, dst).
Proof.
  intros cnv H1 H2 H3 H4. unfold ConvertStream.
  destruct (_ || _); [left; reflexivity|].
  apply FrontEnd.ConvertPID_unknown_format; assumption.
Qed.

(** [ShortStringToCStr] *)
Lemma ShortStringToCStr_spec src dest destSize :
  well_formed src ->
  Z.of_nat (length dest) = destSize ->
  0 < destSize <= INT_MAX ->
  let n := Z.to_nat (Z.min (len src) (destSize - 1)) in
  ShortStringToCStr (Some src) dest destSize
  = Done (take n (data src) ++ zero :: drop (S n) dest).
Proof.
  intros [Hlen Hdata] Hdest Hsize n. unfold INT_MAX in Hsize.
  unfold ShortStringToCStr.
  destruct (destSize =? 0) eqn:E0; [lia|].
  destruct (len src =? 0) eqn:El.
  - apply Z.eqb_eq in El. subst n. rewrite El.
    rewrite Z.min_l by lia. cbn [Z.to_nat take app].
    rewrite vec_set_in_range by lia.
    destruct dest as [|d dest]; [cbn [length] in Hdest; lia|]. reflexivity.
  - rewrite (to_int_small (len src)) by (unfold INT_MIN, INT_MAX; lia).
    rewrite (to_int_small destSize) by (unfold INT_MIN, INT_MAX; lia).
    assert (Hn : exists m, (if destSize <=? len src
                            then int_val (destSize - 1)
                            else Done (len src)) = Done m
                           /\ m = Z.min (len src) (destSize - 1)).
    { destruct (destSize <=? len src) eqn:E.
      - exists (destSize - 1). split; [|lia].
        apply int_val_Done. unfold INT_MIN, INT_MAX. lia.
      - exists (len src). split; [reflexivity | lia]. }
    destruct Hn as (m & -> & Hm). cbn [ebind].
    rewrite PNGFacts.vec_slice_prefix by lia. cbn [ebind].
    destruct (m <=? Z.of_nat (length dest)) eqn:Em; [|lia]. cbn [ebind].
    rewrite vec_set_in_range
      by (rewrite length_app, length_take, length_drop; lia).
    f_equal. subst n. rewrite <- Hm.
    rewrite insert_app_r_alt by (rewrite length_take; lia).
    f_equal. rewrite length_take.
    replace (Z.to_nat m - Z.to_nat m `min` length (data src))%nat
      with 0%nat by lia.
    destruct (drop (Z.to_nat m) dest) as [|d rest] eqn:Ed.
    + apply (f_equal length) in Ed. rewrite length_drop in Ed.
      cbn [length] in Ed. lia.
    + cbn [insert list_insert]. f_equal.
      replace (S (Z.to_nat m)) with (Z.to_nat m + 1)%nat by lia.
      rewrite <- drop_drop, Ed. reflexivity.
Qed.

Lemma ShortStringToCStr_edges src dest :
  ShortStringToCStr src dest 0 = Done dest /\
  forall destSize d rest,
    destSize <> 0 -> dest = d :: rest ->
    ShortStringToCStr None dest destSize = Done (zero :: rest).
Proof.
  split; [reflexivity|].
  intros destSize d rest Hsize ->. unfold ShortStringToCStr.
  destruct (destSize =? 0) eqn:E; [lia|]. reflexivity.
Qed.

End StreamEntryFacts.


(** ** Composition of decoder and encoders, chunks and CRC *)
Lemma bgr_map_key pal tr :
  bgr_map (bake_transparency pal tr) = bgr_map (black_key pal tr).
Proof. destruct tr, pal; reflexivity. Qed.

Lemma bmp_row_key px W pal tr y :
  bmp_row px W (bake_transparency pal tr) y
  = bmp_row px W (black_key pal tr) y.
Proof.
  unfold bmp_row. f_equal. f_equal. apply map_ext. intros x.
  destruct tr; [|reflexivity].
  unfold color_of, bake_transparency, black_key.
  destruct pal as [|c rest]; [reflexivity|].
  destruct (Z.to_nat (pixel_at px W y x)); reflexivity.
Qed.

Lemma pid_palette_length file tr own :
  length (pid_palette file tr own) = 256%nat.
Proof.
  unfold pid_palette, embedded_palette.
  destruct own; [rewrite length_map, length_seqZ; reflexivity|].
  destruct tr; reflexivity.
Qed.

Module EndToEnd.
Import Convert.

(** The token [TGA8] runs the TGA encoder on what the decoder produced. *)
Lemma ConvertPID_tga mode zlib src dst d bytes :
  decode src = Done d ->
  returns (TGA.SaveToTGA (pixels d) (Width (header d)) (Height (header d))
             (palette d) (useTransparency d)) 0 bytes true ->
  cooperative dst ->
  exists dst',
    ConvertPID mode zlib src dst "TGA8" = (Done 0, dst') /\
    content dst' = content dst ++ bytes /\ position dst' = 0.
Proof.
  intros Hd Hret Hdst.
  destruct (Hret dst Hdst) as (dst' & Hrun & Hcont & Hpos).
  exists dst'. split; [|split; assumption].
  unfold ConvertPID, call, bindM, lift. rewrite Hd.
  unfold encode, bindM, call. cbn [String.eqb Ascii.eqb Bool.eqb orb].
  rewrite Hrun. reflexivity.
Qed.

End EndToEnd.

Module ChainFacts.
Import PNG.

Lemma not32_moves v : not32 v <> v.
Proof.
  unfold not32. intros H.
  apply (f_equal (Z.lxor v)) in H.
  rewrite <- Z.lxor_assoc, Z.lxor_nilpotent, Z.lxor_0_l in H. discriminate H.
Qed.

Lemma crc32_png_whole d crc :
  d <> [] ->
  crc32_png d (Z.of_nat (length d)) crc
  = not32 (fold_left crc_step d (not32 crc)).
Proof.
  intros Hd. unfold crc32_png.
  destruct (Z.of_nat (length d) =? 0) eqn:E.
  - apply Z.eqb_eq in E. destruct d; [contradiction | cbn [length] in E; lia].
  - rewrite Nat2Z.id, firstn_all. reflexivity.
Qed.

Lemma crc32_png_chain d1 d2 crc :
  d1 <> [] -> d2 <> [] ->
  crc32_png d2 (Z.of_nat (length d2))
            (crc32_png d1 (Z.of_nat (length d1)) crc)
  = crc32_png (d1 ++ d2) (Z.of_nat (length (d1 ++ d2))) crc.
Proof.
  intros H1 H2.
  rewrite !crc32_png_whole; try assumption.
  - rewrite CRCFacts.not32_involutive, fold_left_app. reflexivity.
  - destruct d1; [contradiction | discriminate].
Qed.

Lemma write_then_read_chunk buffer type d :
  length (bytes_of_string type) = 4%nat ->
  Z.of_nat (length d) < 2 ^ 32 ->
  exists bytes,
    write_PNG_Chunk buffer type (Some d) (Z.of_nat (length d))
    = Done (buffer ++ bytes) /\
    exists crc,
      PNGReference.read_chunks 1 bytes
      = Some [ {| PNGReference.chunk_type := bytes_of_string type;
                  PNGReference.chunk_data := d;
                  PNGReference.chunk_crc := crc |} ].
Proof.
  intros Ht Hd.
  rewrite PNGFacts.write_chunk_frame by (assumption || lia).
  rewrite Nat2Z.id, firstn_all.
  eexists. split; [reflexivity|].
  eexists.
  rewrite <- (app_nil_r (PNGReference.frame _ _ _)).
  rewrite PNGFacts.read_chunks_frame by assumption.
  reflexivity.
Qed.

End ChainFacts.

Module CeilingFacts.
Import Convert.

Lemma ConvertPID_too_large mode zlib flags W H reserved data dst cnv :
  length reserved = 16%nat ->
  0 < W -> 0 < H -> W <= INT_MAX -> H <= INT_MAX ->
  2 ^ 30 < W * H < 2 ^ 32 ->
  ConvertPID mode zlib (memory_stream (pid_file flags W H reserved data))
             dst cnv
  = (Done 1, dst).
Proof.
  intros Hres HW HH HWm HHm Hprod. unfold INT_MAX in *.
  apply FrontEnd.ConvertPID_decode_Ret.
  unfold decode, prepare, pid_file. rewrite !mem_u32_le32.
  rewrite HeaderFacts.read_header_words
    by (rewrite length_app, Hres; lia).
  cbn [ebind].
  rewrite (to_int_small W), (to_int_small H)
    by (unfold INT_MIN, INT_MAX; lia).
  unfold validate. cbn [ID Width Height negb Z.eqb Pos.eqb].
  destruct (W <=? 0) eqn:EW; [lia|].
  destruct (H <=? 0) eqn:EH; [lia|]. cbn [orb ebind].
  rewrite GuardFacts.guard_rejects_large by (cbn [Width Height]; lia).
  reflexivity.
Qed.

End CeilingFacts.

(** * The claims *)

(** C2.  With the RLE flag set, the decompressor yields the first [n] pixels
    of the run-by-run expansion of the pixel data, in which a control byte
    [A > 128] stands for [A - 128] pixels of value 0 and consumes nothing
    else, and a control byte [A <= 128] stands for the next [A] bytes
    verbatim (none for [A = 0]); it fails when the expansion is shorter than
    the raster.  On the single byte [0x82], a 2-pixel raster decodes to two
    zero pixels. *)
Theorem grammar_A_decoding (n : Z) (s : TStream) :
  0 <= position s -> 0 <= n < SIZE_MAX ->
  let bs := remaining s in
  expandA [] = [] /\
  (forall A rest,
      expandA (A :: rest)
      = if 128 <? A
        then replicate (Z.to_nat (A - 128)) 0 ++ expandA rest
        else take (Z.to_nat A) rest ++ expandA (drop (Z.to_nat A) rest)) /\
  (n <= Z.of_nat (length (expandA bs)) ->
   Decompress.decompress true n s = Done (take (Z.to_nat n) (expandA bs))) /\
  (Z.of_nat (length (expandA bs)) < n ->
   Decompress.decompress true n s = Ret 1) /\
  (bs = [130] -> Decompress.decompress true 2 s = Done [0; 0]).
Proof.
  intros Hs Hn bs.
  split; [exact expandA_nil|]. split; [exact expandA_cons|].
  split; [exact (DecompressFacts.decompress_ok true n s Hs Hn)|].
  split; [exact (DecompressFacts.decompress_short true n s Hs Hn)|].
  intros Hbs. unfold bs in Hbs.
  rewrite (DecompressFacts.decompress_ok true 2 s Hs);
    unfold expand; rewrite ?Hbs.
  - reflexivity.
  - vm_compute. split; [discriminate | reflexivity].
  - vm_compute. discriminate.
Qed.

Lemma grammar_A_decoding_witness :
  Decompress.decompress true 2 (memory_stream [130]) = Done [0; 0].
Proof.
  refine (proj2 (proj2 (proj2 (proj2
            (grammar_A_decoding 2 (memory_stream [130]) _ _)))) _).
  - simpl. lia.
  - vm_compute. split; [discriminate | reflexivity].
  - reflexivity.
Defined.

(** C3.  With the RLE flag clear, the decompressor yields the first [n]
    pixels of the expansion in which a control byte [A > 192] is followed by
    one byte [B] and stands for [A - 192] pixels of value [B], and a control
    byte [A <= 192] stands for the single pixel [A]; it fails when the
    expansion is shorter than the raster.  On the bytes [0xC5, 0x07], a
    5-pixel raster decodes to five pixels of value 7. *)
Theorem grammar_B_decoding (n : Z) (s : TStream) :
  0 <= position s -> 0 <= n < SIZE_MAX ->
  let bs := remaining s in
  expandB [] = [] /\
  (forall A rest,
      expandB (A :: rest)
      = if 192 <? A then
          match rest with
          | [] => []
          | B :: rest' => replicate (Z.to_nat (A - 192)) B ++ expandB rest'
          end
        else A :: expandB rest) /\
  (n <= Z.of_nat (length (expandB bs)) ->
   Decompress.decompress false n s = Done (take (Z.to_nat n) (expandB bs))) /\
  (Z.of_nat (length (expandB bs)) < n ->
   Decompress.decompress false n s = Ret 1) /\
  (bs = [197; 7] -> Decompress.decompress false 5 s = Done [7; 7; 7; 7; 7]).
Proof.
  intros Hs Hn bs.
  split; [exact expandB_nil|]. split; [exact expandB_cons|].
  split; [exact (DecompressFacts.decompress_ok false n s Hs Hn)|].
  split; [exact (DecompressFacts.decompress_short false n s Hs Hn)|].
  intros Hbs. unfold bs in Hbs.
  rewrite (DecompressFacts.decompress_ok false 5 s Hs);
    unfold expand; rewrite ?Hbs.
  - reflexivity.
  - vm_compute. split; [discriminate | reflexivity].
  - vm_compute. discriminate.
Qed.

Lemma grammar_B_decoding_witness :
  Decompress.decompress false 5 (memory_stream [197; 7])
  = Done [7; 7; 7; 7; 7].
Proof.
  refine (proj2 (proj2 (proj2 (proj2
            (grammar_B_decoding 5 (memory_stream [197; 7]) _ _)))) _).
  - simpl. lia.
  - vm_compute. split; [discriminate | reflexivity].
  - reflexivity.
Defined.

(** C9.  On a raster of [W * H] pixels the two loops of the orientation
    transform run to their end, leave the input vector as it was, and fill a
    second vector of the same size in which the pixel at column [x], row [y]
    is the input pixel at row [H-1-y] if invert is set (else [y]) and column
    [W-1-x] if mirror is set (else [x]); that vector is the result whenever
    mirror or invert is requested.  Both flags on [[1,2],[3,4]] give
    [[4,3],[2,1]]. *)
Theorem orientation_transform (mirror invert : bool) (W H : Z) (px : list Z) :
  0 < W -> 0 < H -> Z.of_nat (length px) = W * H ->
  exists bufs,
    Orientation.flip mirror invert W H px = Done bufs /\
    Orientation.pixels bufs = px /\
    length (Orientation.flipped bufs) = length px /\
    (forall x y, 0 <= x < W -> 0 <= y < H ->
       Orientation.flipped bufs !! Z.to_nat (y * W + x)
       = px !! Z.to_nat ((if invert then H - 1 - y else y) * W
                         + (if mirror then W - 1 - x else x))) /\
    (mirror || invert = true ->
     Orientation.transform mirror invert W H px
     = Done (Orientation.flipped bufs)) /\
    Orientation.transform true true 2 2 [1; 2; 3; 4] = Done [4; 3; 2; 1].
Proof.
  intros HW HH Hlen.
  destruct (OrientationFacts.flip_filled mirror invert W H px HW HH Hlen)
    as (bufs & Hflip & Hpx & Hfl & Hrel).
  exists bufs. split; [exact Hflip|]. split; [exact Hpx|].
  split; [exact Hfl|]. split.
  - intros x y Hx Hy. apply Hrel; lia.
  - split; [|reflexivity].
    intros Hreq. unfold Orientation.transform. rewrite Hreq, Hflip.
    reflexivity.
Qed.

Lemma orientation_transform_witness :
  exists bufs,
    Orientation.flip true true 2 2 [1; 2; 3; 4] = Done bufs /\
    Orientation.pixels bufs = [1; 2; 3; 4] /\
    Orientation.transform true true 2 2 [1; 2; 3; 4]
    = Done (Orientation.flipped bufs).
Proof.
  destruct (orientation_transform true true 2 2 [1; 2; 3; 4])
    as (bufs & Hflip & Hpx & _ & _ & Htr & _).
  - lia.
  - lia.
  - reflexivity.
  - exists bufs. split; [exact Hflip|]. split; [exact Hpx|].
    apply Htr. reflexivity.
Defined.

(** C10.  In both grammars the decompressor never indexes [pixels] outside
    its [n] elements, and when the expansion of the pixel data is at least as
    long as the raster it succeeds with the first [n] pixels, whatever
    follows being dropped.  At a run that reaches the end of the raster the
    loop stores exactly the pixels that fit, stops, and the size check
    passes, with the stream cursor right after the control byte (fill run of
    grammar A), after the literal bytes stored and before the rest of the
    run (literal run of grammar A), or after the value byte (run of
    grammar B). *)
Theorem runs_truncated_at_raster_end :
  (forall (rle : bool) (n : Z) (s : TStream),
      0 <= position s -> 0 <= n <= 2 ^ 30 ->
      (exists st, Decompress.run rle n s = Done st /\
                  Z.of_nat (length (Decompress.pixels st)) = n) /\
      (n <= Z.of_nat (length (expand rle (remaining s))) ->
       Decompress.decompress rle n s
       = Done (take (Z.to_nat n) (expand rle (remaining s))))) /\
  (forall (st : Decompress.state) (A : Z) (rest : list Z) (fuel : nat),
      Decompress.wf st ->
      Decompress.pos st < Decompress.size st ->
      Decompress.size st <= 2 ^ 30 ->
      remaining (Decompress.src st) = A :: rest ->
      let need := Decompress.size st - Decompress.pos st in
      let cursor := position (Decompress.src st) in
      let before := take (Z.to_nat (Decompress.pos st)) (Decompress.pixels st) in
      (128 < A -> need <= A - 128 ->
       exists st',
         Decompress.rle_loop (S fuel) st = Done st' /\
         Decompress.check st' = Done (Decompress.pixels st') /\
         Decompress.src st' = set_position (Decompress.src st) (cursor + 1) /\
         Decompress.pixels st' = before ++ replicate (Z.to_nat need) 0) /\
      (A <= 128 -> need <= A -> need <= Z.of_nat (length rest) ->
       exists st',
         Decompress.rle_loop (S fuel) st = Done st' /\
         Decompress.check st' = Done (Decompress.pixels st') /\
         Decompress.src st'
         = set_position (Decompress.src st) (cursor + 1 + need) /\
         Decompress.pixels st' = before ++ take (Z.to_nat need) rest) /\
      (forall B rest', rest = B :: rest' -> 192 < A -> need <= A - 192 ->
       exists st',
         Decompress.raw_loop (S fuel) st = Done st' /\
         Decompress.check st' = Done (Decompress.pixels st') /\
         Decompress.src st' = set_position (Decompress.src st) (cursor + 2) /\
         Decompress.pixels st' = before ++ replicate (Z.to_nat need) B)).
Proof.
  assert (Hmax : 2 ^ 30 < SIZE_MAX) by (vm_compute; reflexivity).
  split.
  - intros rle n s Hs Hn. split.
    + destruct (DecompressFacts.run_spec rle n s Hs) as (st & Hrun & Hlen & _);
        [lia|].
      exists st. split; assumption.
    + apply DecompressFacts.decompress_ok; [exact Hs | lia].
  - intros st A rest fuel Hwf Hroom Hsize Hrem need cursor before.
    split; [|split].
    + intros HA Hneed.
      exact (TruncationFacts.fill_truncated st A rest Hwf Hroom Hrem fuel
               HA Hneed).
    + intros HA Hneed Hbytes.
      apply (TruncationFacts.literal_truncated st A rest Hwf Hroom Hrem fuel
               HA Hneed Hbytes).
      lia.
    + intros B rest' Hrest HA Hneed.
      exact (TruncationFacts.raw_truncated st A rest Hwf Hroom Hrem fuel
               B rest' Hrest HA Hneed).
Qed.

Lemma runs_truncated_at_raster_end_witness :
  Decompress.decompress true 1 (memory_stream [2; 7; 9]) = Done [7].
Proof.
  refine (proj2 (proj1 runs_truncated_at_raster_end true 1
                   (memory_stream [2; 7; 9]) _ _) _).
  - simpl. lia.
  - vm_compute. split; discriminate.
  - vm_compute. discriminate.
Defined.

(** C7.  Whatever buffer the PNG encoder assembles starts with the 8-byte
    PNG signature, the bytes 137 80 78 71 13 10 26 10, and then holds, in
    this order and nothing else: one IHDR
    chunk, a PLTE chunk exactly in 8-bit mode, a tRNS chunk (a zero followed
    by 255 bytes of value 255) exactly in 8-bit mode with transparency, one
    IDAT chunk and one IEND chunk; and on every valid raster, when zlib
    initialises, the encoder does assemble a buffer. *)
Theorem png_chunk_order (mode : PNGMode) (zlib : PNG.Zlib) (px : list Z)
    (W H : Z) (pal : list Color) (tr : bool) :
  (forall buf,
      PNG.assemble mode zlib px W H pal tr = Done buf ->
      take 8 buf = [137; 80; 78; 71; 13; 10; 26; 10] /\
      exists cs,
        PNGReference.read_png buf = Some cs /\
        map PNGReference.chunk_type cs
        = map PNG.bytes_of_string
            (["IHDR"%string]
             ++ match mode with
                | PNG_8 => "PLTE"%string :: (if tr then ["tRNS"%string] else [])
                | _ => []
                end
             ++ ["IDAT"%string; "IEND"%string]) /\
        (forall c, c ∈ cs ->
                   PNGReference.chunk_type c = PNG.bytes_of_string "tRNS"%string ->
                   PNGReference.chunk_data c = 0 :: replicate 255 255)) /\
  (PNG.valid_raster px W H pal ->
   PNG.deflateInit_ok zlib = true ->
   exists buf, PNG.assemble mode zlib px W H pal tr = Done buf).
Proof.
  split.
  - intros buf Ha.
    destruct (LayoutFacts.assemble_layout _ _ _ _ _ _ _ _ Ha)
      as (ihdr & plte & idat & -> & Hi & Hp & Hd).
    split; [rewrite take_app_length' by reflexivity; reflexivity|].
    exists (map PNGReference.as_read (PNG.layout mode tr ihdr plte idat)).
    split.
    + apply AssembleFacts.read_png_frames.
      * destruct mode, tr; simpl; lia.
      * unfold PNG.layout.
        destruct mode, tr; repeat apply Forall_cons_2; try apply Forall_nil_2;
          cbn [fst snd PNG.written]; (split; [reflexivity | try lia]);
          vm_compute; reflexivity.
    + split.
      * destruct mode, tr; reflexivity.
      * intros c Hc Ht.
        unfold PNG.layout in Hc.
        destruct mode, tr; cbn [app map PNGReference.as_read PNG.written] in Hc;
          repeat (apply elem_of_cons in Hc as [->|Hc]);
          try (apply elem_of_nil in Hc; contradiction);
          cbn [PNGReference.chunk_type PNGReference.chunk_data] in *;
          try (vm_compute in Ht; discriminate Ht);
          reflexivity.
  - intros Hvalid Hinit.
    exact (LayoutFacts.assemble_total px W H pal Hvalid mode zlib tr Hinit).
Qed.

Lemma png_chunk_order_witness :
  let zlib := stored_zlib in
  exists buf,
    PNG.assemble PNG_8 zlib [5] 1 1 defaultPalette true = Done buf /\
    take 8 buf = [137; 80; 78; 71; 13; 10; 26; 10].
Proof.
  intros zlib.
  destruct (png_chunk_order PNG_8 zlib [5] 1 1 defaultPalette true)
    as [Hshape Htotal].
  destruct Htotal as [buf Hbuf].
  - unfold PNG.valid_raster.
    repeat split; try reflexivity; try lia.
    + repeat constructor; lia.
    + vm_compute. discriminate.
  - reflexivity.
  - exists buf. split; [exact Hbuf|].
    exact (proj1 (Hshape buf Hbuf)).
Defined.

(** C4 (as stated, refuted).  In the 1x1 scenario the output has 58 bytes,
    but its last three bytes are the G and R components of
    [defaultPalette[5]] followed by the padding byte of the row, not its
    B, G, R components. *)
Lemma bmp_1x1_last_three_bytes :
  let src := memory_stream (pid_file 0 1 1 (replicate 16 0) [5]) in
  let out := content (Convert.ConvertPID PNG_8 stored_zlib src
                        (memory_stream []) "BMP").2 in
  let c5 := nth 5 defaultPalette (rgba 0 0 0 0) in
  length out = 58%nat /\
  drop 55 out = [g c5; r c5; 0] /\
  drop 55 out <> [b c5; g c5; r c5].
Proof.
  vm_compute. split; [reflexivity|]. split; [reflexivity | discriminate].
Qed.

(** C4 (amended).  Converting a 1x1 PID with flags 0 and the pixel byte 5 to
    BMP on a cooperative destination succeeds and leaves exactly 58 bytes
    (14 + 40 + one row of 4); bytes 54 to 56 are the B, G, R components of
    [defaultPalette[5]] and the last byte, 57, is the zero that pads the
    row. *)
Theorem bmp_1x1_scenario (mode : PNGMode) (zlib : PNG.Zlib)
    (reserved : list Z) :
  length reserved = 16%nat ->
  let src := memory_stream (pid_file 0 1 1 reserved [5]) in
  let result := Convert.ConvertPID mode zlib src (memory_stream []) "BMP" in
  let out := content result.2 in
  let c5 := nth 5 defaultPalette (rgba 0 0 0 0) in
  result.1 = Done 0 /\
  length out = 58%nat /\
  take 3 (drop 54 out) = [b c5; g c5; r c5] /\
  drop 57 out = [0].
Proof.
  intros Hres.
  do 17 (destruct reserved as [|? reserved]; try discriminate Hres).
  vm_compute. repeat split.
Qed.

Lemma bmp_1x1_scenario_witness :
  (Convert.ConvertPID PNG_8 stored_zlib
     (memory_stream (pid_file 0 1 1 (replicate 16 0) [5]))
     (memory_stream []) "BMP").1 = Done 0.
Proof.
  exact (proj1 (bmp_1x1_scenario PNG_8 stored_zlib (replicate 16 0)
                  eq_refl)).
Defined.

(** C5 (the code at the failing input).  For the header of a 65536 x 65536
    image the product of the dimensions is 2^32, far above the ceiling, yet
    [pixel_count], computed in the 32-bit [size_t], is 0: the header passes
    validation and the guard, and the decoder goes on to allocate an empty
    raster and to run the decompressor, which succeeds at once. *)
Theorem pixel_count_guard_wraps :
  let hdr := {| ID := 10; Flags := 0; Width := 65536; Height := 65536 |} in
  let src := memory_stream (pid_file 0 65536 65536 (replicate 16 0) []) in
  2 ^ 30 < Width hdr * Height hdr /\
  Convert.validate hdr = Done tt /\
  Convert.pixel_count hdr = 0 /\
  Convert.guard_pixel_count hdr = Done 0 /\
  Convert.decode src
  = Done {| Convert.header := hdr; Convert.useTransparency := false;
            Convert.palette := defaultPalette; Convert.pixels := [] |} /\
  (Convert.ConvertPID PNG_8 stored_zlib src (memory_stream []) "BMP").1
  = UB.
Proof.
  vm_compute. repeat split.
Qed.

(** C6 (the code at the failing input).  On a destination whose [Write]
    takes nothing the PNG conversion asks once for the whole file, is told
    that 0 bytes were written, and returns success with an empty output;
    the BMP conversion of the same file returns failure at its first
    write. *)
Theorem png_short_write_succeeds :
  let src := memory_stream (pid_file 1 1 1 (replicate 16 0) [5]) in
  let png := Convert.ConvertPID PNG_8 stored_zlib src refusing_stream "PNG" in
  let bmp := Convert.ConvertPID PNG_8 stored_zlib src refusing_stream "BMP" in
  png.1 = Done 0 /\
  write_log png.2 = [(1107, 0)] /\
  Exists short_write (write_log png.2) /\
  content png.2 = [] /\
  bmp.1 = Done 1.
Proof.
  vm_compute. repeat split.
  apply Exists_cons_hd. reflexivity.
Qed.

(** C8 (the code at the failing input).  Entry 154 of [crc_table] is
    [0x10da7a56]; the table of the PNG specification has [0x10da7a5a] there
    and the two tables agree everywhere else.  The CRC stored with the tRNS
    chunk of every 8-bit PNG with transparency therefore differs from the
    CRC-32 of its type and payload, and so do the CRCs of the PLTE and tRNS
    chunks of a converted 1x1 file. *)
Theorem crc_table_entry_154 :
  nth 154 PNG.crc_table 0 = 0x10da7a56 /\
  nth 154 PNGReference.make_crc_table 0 = 0x10da7a5a /\
  <[154%nat := 0x10da7a5a]> PNG.crc_table = PNGReference.make_crc_table /\
  PNG.write_PNG_Chunk [] "tRNS" (Some PNG.trns_bytes) 256
  = Done (PNGReference.frame (PNG.bytes_of_string "tRNS") PNG.trns_bytes
            1570435296) /\
  PNGReference.crc (PNG.bytes_of_string "tRNS" ++ PNG.trns_bytes)
  = 177730620 /\
  (let src := memory_stream (pid_file 1 1 1 (replicate 16 0) [5]) in
   let out := content (Convert.ConvertPID PNG_8 stored_zlib src
                         (memory_stream []) "PNG").2 in
   option_map
     (map (fun c => (PNGReference.chunk_crc c,
                     PNGReference.crc (PNGReference.chunk_type c
                                       ++ PNGReference.chunk_data c))))
     (PNGReference.read_png out)
   = Some [(684405947, 684405947); (3131476452, 3480601609);
           (1570435296, 177730620); (210848053, 210848053);
           (2923585666, 2923585666)]).
Proof.
  vm_compute. repeat split.
Qed.

(** C1 (as stated, refuted).  A 1x1 PID with the RLE flag whose pixel data
    is the control byte 2 followed by the single byte 7: the literal run
    declares two bytes and only one is left in the stream, yet the
    conversion succeeds, the raster being full after the first. *)
Lemma literal_run_longer_than_stream :
  let file := pid_file 32 1 1 (replicate 16 0) [2; 7] in
  let result := Convert.ConvertPID PNG_8 stored_zlib (memory_stream file)
                  (memory_stream []) "BMP" in
  drop 32 file = [2; 7] /\
  (length (drop 33 file) < 2)%nat /\
  result.1 = Done 0 /\
  result.1 <> Done 1.
Proof.
  vm_compute. repeat split; try lia. discriminate.
Qed.

(** C1 (amended).  Once the header is accepted, [ConvertPID] returns 0 only
    if the decompressor the flag selects produced exactly [Width * Height]
    indices, and it returns 1 whenever the pixel data runs out before the
    raster is full (its expansion is shorter than the raster).  For a
    literal run of grammar A this is the case when the bytes left in the
    stream are fewer than both the declared count and the raster space still
    to fill: the size check then fails.  A literal run whose declared count
    alone exceeds the bytes left is not a failure. *)
Theorem conversion_needs_full_raster (mode : PNGMode) (zlib : PNG.Zlib)
    (src dst : TStream) (cnv : string) (hdr : PIDHeader) (n : Z)
    (pal : list Color) (s : TStream) :
  Convert.prepare src = Done (hdr, n, pal, s) ->
  let rle := Convert.flag hdr 32 in
  (forall dst',
      Convert.ConvertPID mode zlib src dst cnv = (Done 0, dst') ->
      exists px,
        Decompress.decompress rle n s = Done px /\
        Z.of_nat (length px) = Width hdr * Height hdr) /\
  (Z.of_nat (length (expand rle (remaining s))) < n ->
   Convert.ConvertPID mode zlib src dst cnv = (Done 1, dst)) /\
  (forall (st : Decompress.state) (A : Z) (rest : list Z) (fuel : nat),
      Decompress.wf st ->
      Decompress.pos st < Decompress.size st ->
      Decompress.size st <= 2 ^ 30 ->
      remaining (Decompress.src st) = A :: rest ->
      A <= 128 ->
      Z.of_nat (length rest)
      < Z.min A (Decompress.size st - Decompress.pos st) ->
      exists st',
        Decompress.rle_loop (S fuel) st = Done st' /\
        Decompress.check st' = Ret 1).
Proof.
  intros Hprep rle.
  pose proof (ConvertFacts.prepare_Done _ _ _ _ _ Hprep)
    as (Hpos & Hn & Hrange & _ & HW & HH).
  assert (Hmax : 2 ^ 30 < SIZE_MAX) by (vm_compute; reflexivity).
  assert (Hs : 0 <= position s) by lia.
  assert (Hn' : 0 <= n < SIZE_MAX) by lia.
  pose proof (ConvertFacts.decode_after_prepare _ _ _ _ _ Hprep) as Hdec.
  fold rle in Hdec.
  split; [|split].
  - intros dst' Hrun. unfold Convert.ConvertPID in Hrun.
    apply ConvertFacts.call_Done in Hrun as [Hrun|Hrun].
    2:{ apply bindM_Done in Hrun as (d & s1 & _ & Hrun).
        exfalso. eapply ConvertFacts.encode_returns; eauto. }
    apply bindM_Ret in Hrun as [Hrun | (d & s1 & Hd & Henc)].
    { exfalso. apply lift_Ret in Hrun. rewrite Hdec in Hrun.
      apply ebind_Ret in Hrun as [Hrun | (px & _ & Hrun)].
      - apply ConvertFacts.decompress_Ret in Hrun; [discriminate Hrun| |];
          assumption.
      - apply ebind_Ret in Hrun as [Hrun | (? & _ & Hrun)];
          [revert Hrun; apply ConvertFacts.transform_not_Ret
          | discriminate Hrun]. }
    apply lift_Done in Hd. rewrite Hdec in Hd.
    apply ebind_Done in Hd as (px & Hpx & Hd).
    apply ebind_Done in Hd as (px' & Htr & [= <-]).
    exists px. split; [exact Hpx|].
    pose proof (DecompressFacts.decompress_length _ _ _ _ Hs Hn' Hpx) as Hlen.
    apply ConvertFacts.transform_length in Htr.
    apply ConvertFacts.encode_success in Henc;
      cbn [Convert.header Convert.pixels] in *; [|lia|lia].
    rewrite Htr, Hlen in Henc.
    rewrite Hlen, Hn. apply ConvertFacts.pixel_count_exact; lia.
  - intros Hshort.
    unfold Convert.ConvertPID, call, bindM, lift.
    rewrite Hdec.
    rewrite (DecompressFacts.decompress_short rle n s Hs Hn' Hshort).
    reflexivity.
  - intros st A rest fuel Hwf Hroom Hsize Hrem HA Hbytes.
    apply (TruncationFacts.literal_starved st A rest Hwf Hroom Hrem fuel HA
             Hbytes).
    lia.
Qed.

Lemma conversion_needs_full_raster_witness :
  Convert.ConvertPID PNG_8 stored_zlib
    (memory_stream (pid_file 32 2 1 (replicate 16 0) [2; 7]))
    (memory_stream []) "BMP"
  = (Done 1, memory_stream []).
Proof.
  refine (proj1 (proj2
            (conversion_needs_full_raster PNG_8 stored_zlib
               (memory_stream (pid_file 32 2 1 (replicate 16 0) [2; 7]))
               (memory_stream []) "BMP"
               {| ID := 10; Flags := 32; Width := 2; Height := 1 |} 2
               defaultPalette
               (set_position
                  (memory_stream (pid_file 32 2 1 (replicate 16 0) [2; 7]))
                  32)
               _)) _).
  - vm_compute. reflexivity.
  - vm_compute. reflexivity.
Defined.


(** * Further properties of the converter *)

(** X1.  On a destination that takes every write, [SaveToTGA] returns 0 for
    any raster of [W * H] indices with a 256-entry palette whose rows fit
    one write; what it appends is the 18-byte header of a colour-mapped
    image (the low 16 bits of each dimension, little-endian), the 256 map
    entries as B, G, R (index 0 black under transparency) and the indices
    row by row from the top; it leaves the cursor at offset 0. *)
Theorem tga_file_layout (px : list Z) (W H : Z) (pal : list Color)
    (tr : bool) :
  0 <= W -> 0 <= H -> Z.of_nat (length px) = W * H ->
  length pal = 256%nat -> W <= INT_MAX ->
  returns (TGA.SaveToTGA px W H pal tr) 0
          (tga_header W H ++ bgr_map (black_key pal tr) ++ px) true.
Proof.
  intros HW HH Hpx Hpal Hmax. rewrite <- bgr_map_key.
  apply TGAFacts.SaveToTGA_layout; assumption.
Qed.

Lemma tga_file_layout_witness :
  exists s',
    TGA.SaveToTGA [1; 2] 2 1 defaultPalette true (memory_stream [])
    = (Ret 0, s') /\
    content s' = tga_header 2 1 ++ bgr_map (black_key defaultPalette true)
                 ++ [1; 2] /\
    position s' = 0.
Proof.
  destruct (tga_file_layout [1; 2] 2 1 defaultPalette true)
    with (s := memory_stream []) as (s' & Hrun & Hcont & Hpos).
  - lia.
  - lia.
  - reflexivity.
  - reflexivity.
  - vm_compute. discriminate.
  - split; [reflexivity|]. split; reflexivity.
  - exists s'. split; [exact Hrun|]. split; [exact Hcont | exact Hpos].
Defined.

(** X2.  On a destination that takes every write, [SaveToBMP] returns 0 for
    any raster of [W * H] palette indices below 256 whose padded size fits
    an [int]; what it appends is the 54 bytes of the two headers (file size,
    data offset 54, the dimensions, one plane, 24 bits, the image size) and
    the rows from the bottom one up, each as B, G, R triples (index 0 black
    under transparency) padded with zeros to a multiple of four bytes; it
    leaves the cursor at offset 0. *)
Theorem bmp_file_layout (px : list Z) (W H : Z) (pal : list Color)
    (tr : bool) :
  0 < W -> 0 < H -> Z.of_nat (length px) = W * H ->
  length pal = 256%nat -> Forall (fun p => 0 <= p < 256) px ->
  bmp_row_size W * H <= INT_MAX ->
  returns (BMP.SaveToBMP px W H pal tr) 0
          (bmp_header W H
           ++ concat (map (bmp_row px W (black_key pal tr))
                          (reverse (seqZ 0 H))))
          true.
Proof.
  intros HW HH Hpx Hpal Hidx Hmax.
  replace (map (bmp_row px W (black_key pal tr)) (reverse (seqZ 0 H)))
    with (map (bmp_row px W (bake_transparency pal tr)) (reverse (seqZ 0 H))).
  - apply BMPFacts.SaveToBMP_layout; assumption.
  - apply map_ext. intros y. apply bmp_row_key.
Qed.

Lemma bmp_file_layout_witness :
  exists s',
    BMP.SaveToBMP [1; 0] 1 2 defaultPalette true (memory_stream [])
    = (Ret 0, s') /\
    content s'
    = bmp_header 1 2
      ++ concat (map (bmp_row [1; 0] 1 (black_key defaultPalette true))
                     [1; 0]) /\
    position s' = 0.
Proof.
  destruct (bmp_file_layout [1; 0] 1 2 defaultPalette true)
    with (s := memory_stream []) as (s' & Hrun & Hcont & Hpos).
  - lia.
  - lia.
  - reflexivity.
  - reflexivity.
  - repeat constructor; lia.
  - vm_compute. discriminate.
  - split; [reflexivity|]. split; reflexivity.
  - exists s'. split; [exact Hrun|]. split; [exact Hcont | exact Hpos].
Defined.

(** X3.  On a destination that takes every write and with a zlib that
    initialises, [SaveToPNG] returns 0 for any valid raster whose file fits
    one write; what it appends is the signature 137 80 78 71 13 10 26 10,
    IHDR (width and height big-endian, bit depth 8, colour type 3, 2 or 6,
    three zeros), in the 8-bit mode PLTE (the palette as R, G, B) and under
    transparency tRNS, IDAT holding zlib's output for the scanlines (a
    filter byte 0, then per pixel the index, R G B, or R G B A) and an empty
    IEND; the cursor stays behind the last byte. *)
Theorem png_file_layout (mode : PNGMode) (zlib : PNG.Zlib) (px : list Z)
    (W H : Z) (pal : list Color) (tr : bool) :
  PNG.valid_raster px W H pal ->
  PNG.deflateInit_ok zlib = true ->
  Z.of_nat (length (png_file mode zlib px W H pal tr)) <= INT_MAX ->
  returns (PNG.SaveToPNG mode zlib px W H pal tr) 0
          (png_file mode zlib px W H pal tr) false.
Proof. apply PNGAssembly.SaveToPNG_layout. Qed.

Lemma png_file_layout_witness :
  exists s',
    PNG.SaveToPNG PNG_32 stored_zlib [0; 5] 2 1 defaultPalette true
      (memory_stream [])
    = (Ret 0, s') /\
    content s' = png_file PNG_32 stored_zlib [0; 5] 2 1 defaultPalette true /\
    position s' = Z.of_nat (length (content s')).
Proof.
  destruct (png_file_layout PNG_32 stored_zlib [0; 5] 2 1 defaultPalette true)
    with (s := memory_stream []) as (s' & Hrun & Hcont & Hpos).
  - unfold PNG.valid_raster.
    repeat split; try reflexivity; try lia.
    + repeat constructor; lia.
    + vm_compute. discriminate.
  - reflexivity.
  - vm_compute. discriminate.
  - split; [reflexivity|]. split; reflexivity.
  - exists s'. split; [exact Hrun|]. split; [exact Hcont | exact Hpos].
Defined.

(** X4.  A run of [SaveToBMP] or [SaveToTGA] in which the host reported
    fewer bytes than asked for some write ends in [return 1], whatever the
    raster and whatever the destination. *)
Theorem bmp_tga_stop_at_short_write (px : list Z) (W H : Z)
    (pal : list Color) (tr : bool) :
  fail_fast (BMP.SaveToBMP px W H pal tr) /\
  fail_fast (TGA.SaveToTGA px W H pal tr).
Proof.
  split; [apply FailFast.SaveToBMP_fail_fast
         | apply FailFast.SaveToTGA_fail_fast].
Qed.

(** X5.  A source with fewer than 32 bytes left cannot hold a header:
    [ConvertPID] returns 1 and the destination is as it was. *)
Theorem short_header_rejected (mode : PNGMode) (zlib : PNG.Zlib)
    (src dst : TStream) (cnv : string) :
  (length (remaining src) < 32)%nat ->
  Convert.ConvertPID mode zlib src dst cnv = (Done 1, dst).
Proof. apply FrontEnd.ConvertPID_short_header. Qed.

Lemma short_header_rejected_witness :
  Convert.ConvertPID PNG_8 stored_zlib (memory_stream [10; 0; 0; 0])
    (memory_stream [7]) "BMP"
  = (Done 1, memory_stream [7]).
Proof.
  apply (short_header_rejected PNG_8 stored_zlib (memory_stream [10; 0; 0; 0])
           (memory_stream [7]) "BMP").
  vm_compute. lia.
Defined.

(** X6.  A file whose first word is not 10, or whose width or height is not
    positive, is refused: [ConvertPID] returns 1 and the destination is as
    it was, whatever follows the header. *)
Theorem bad_header_rejected (mode : PNGMode) (zlib : PNG.Zlib)
    (id flags w h : Z) (rest : list Z) (dst : TStream) (cnv : string) :
  (16 <= length rest)%nat ->
  INT_MIN <= id <= INT_MAX -> INT_MIN <= w <= INT_MAX ->
  INT_MIN <= h <= INT_MAX ->
  id <> 10 \/ w <= 0 \/ h <= 0 ->
  Convert.ConvertPID mode zlib
    (memory_stream (le32 id ++ le32 flags ++ le32 w ++ le32 h ++ rest))
    dst cnv
  = (Done 1, dst).
Proof. apply HeaderFacts.ConvertPID_bad_header. Qed.

Lemma bad_header_rejected_witness :
  Convert.ConvertPID PNG_8 stored_zlib
    (memory_stream (le32 10 ++ le32 0 ++ le32 (-3) ++ le32 1
                    ++ replicate 16 0 ++ [1; 2; 3]))
    (memory_stream []) "PNG"
  = (Done 1, memory_stream []).
Proof.
  apply (bad_header_rejected PNG_8 stored_zlib 10 0 (-3) 1
           (replicate 16 0 ++ [1; 2; 3]) (memory_stream []) "PNG").
  - vm_compute. lia.
  - vm_compute. split; discriminate.
  - vm_compute. split; discriminate.
  - vm_compute. split; discriminate.
  - right. left. lia.
Defined.

(** X7.  As long as the product of the dimensions fits 32 bits, a raster of
    more than [2^30] pixels is refused: [ConvertPID] returns 1 and the
    destination is as it was. *)
Theorem size_ceiling_enforced (mode : PNGMode) (zlib : PNG.Zlib)
    (flags W H : Z) (reserved data : list Z) (dst : TStream) (cnv : string) :
  length reserved = 16%nat ->
  0 < W -> 0 < H -> W <= INT_MAX -> H <= INT_MAX ->
  2 ^ 30 < W * H < 2 ^ 32 ->
  Convert.ConvertPID mode zlib
    (memory_stream (pid_file flags W H reserved data)) dst cnv
  = (Done 1, dst).
Proof. apply CeilingFacts.ConvertPID_too_large. Qed.

Lemma size_ceiling_enforced_witness :
  Convert.ConvertPID PNG_8 stored_zlib
    (memory_stream (pid_file 0 32768 32769 (replicate 16 0) []))
    (memory_stream []) "BMP"
  = (Done 1, memory_stream []).
Proof.
  apply (size_ceiling_enforced PNG_8 stored_zlib 0 32768 32769
           (replicate 16 0) [] (memory_stream []) "BMP").
  - reflexivity.
  - lia.
  - lia.
  - vm_compute. discriminate.
  - vm_compute. discriminate.
  - lia.
Defined.

(** X8.  With a format token other than BMP, TGA8, TGA and PNG,
    [ConvertPID] never reports success and never touches the destination:
    it returns 1, unless decoding the source already had undefined
    behaviour. *)
Theorem unknown_format_rejected (mode : PNGMode) (zlib : PNG.Zlib)
    (src dst : TStream) (cnv : string) :
  cnv <> "BMP"%string -> cnv <> "TGA8"%string -> cnv <> "TGA"%string ->
  cnv <> "PNG"%string ->
  Convert.ConvertPID mode zlib src dst cnv = (Done 1, dst)
  \/ Convert.ConvertPID mode zlib src dst cnv = (UB, dst).
Proof. apply FrontEnd.ConvertPID_unknown_format. Qed.

Lemma unknown_format_rejected_witness :
  let src := memory_stream (pid_file 0 1 1 (replicate 16 0) [7]) in
  Convert.ConvertPID PNG_8 stored_zlib src (memory_stream []) "bmp"
  = (Done 1, memory_stream [])
  \/ Convert.ConvertPID PNG_8 stored_zlib src (memory_stream []) "bmp"
     = (UB, memory_stream []).
Proof.
  intros src.
  apply (unknown_format_rejected PNG_8 stored_zlib src (memory_stream [])
           "bmp"); discriminate.
Defined.

(** X9.  With the palette flag set the palette is read from the last 768
    bytes of the source, wherever its cursor stands: 256 R, G, B triples
    with alpha 255, alpha 0 for index 0 of a transparent image, the cursor
    ending at the end of the stream; a source of fewer than 768 bytes is
    refused with [return 1]. *)
Theorem embedded_palette_read (s : TStream) (tr : bool) :
  host_seek_faulty s = false ->
  ((768 <= length (content s))%nat ->
   Convert.resolve_palette true tr s
   = Done (set_position s (Z.of_nat (length (content s))),
           embedded_palette (content s) tr)) /\
  ((length (content s) < 768)%nat ->
   Convert.resolve_palette true tr s = Ret 1).
Proof.
  intros Hseek. split.
  - intros Hlen. apply PaletteFacts.resolve_embedded; assumption.
  - intros Hlen. apply PaletteFacts.resolve_short. left. exact Hlen.
Qed.

Lemma embedded_palette_read_witness :
  Convert.resolve_palette true true (memory_stream (replicate 767 9)) = Ret 1.
Proof.
  apply (embedded_palette_read (memory_stream (replicate 767 9)) true).
  - reflexivity.
  - vm_compute. lia.
Defined.

(** X10.  The orientation transform is its own inverse, and two transforms
    in a row are the one transform whose flags are the exclusive or of
    theirs (so mirroring and inverting in two passes equals doing both at
    once, in either order). *)
Theorem orientation_round_trip (m i : bool) (W H : Z) (px : list Z) :
  0 < W -> 0 < H -> Z.of_nat (length px) = W * H ->
  exists px',
    Orientation.transform m i W H px = Done px' /\
    Orientation.transform m i W H px' = Done px /\
    forall m2 i2,
      Orientation.transform m2 i2 W H px'
      = Orientation.transform (xorb m m2) (xorb i i2) W H px.
Proof.
  intros HW HH Hlen.
  exists (oriented m i W H px).
  assert (Hlen' : Z.of_nat (length (oriented m i W H px)) = W * H)
    by (apply OrientedFacts.oriented_length; lia).
  split; [apply OrientedFacts.transform_oriented; assumption|].
  split.
  - rewrite OrientedFacts.transform_oriented by assumption.
    rewrite OrientedFacts.oriented_compose by assumption.
    rewrite !xorb_nilpotent.
    rewrite OrientedFacts.oriented_id by assumption. reflexivity.
  - intros m2 i2.
    rewrite !OrientedFacts.transform_oriented by assumption.
    rewrite OrientedFacts.oriented_compose by assumption. reflexivity.
Qed.

Lemma orientation_round_trip_witness :
  exists px',
    Orientation.transform true false 3 2 [1; 2; 3; 4; 5; 6] = Done px' /\
    Orientation.transform true false 3 2 px' = Done [1; 2; 3; 4; 5; 6].
Proof.
  destruct (orientation_round_trip true false 3 2 [1; 2; 3; 4; 5; 6])
    as (px' & Hfwd & Hback & _).
  - lia.
  - lia.
  - reflexivity.
  - exists px'. split; assumption.
Defined.





(** X13.  What [write_PNG_Chunk] appends for a payload, a chunk reader
    splits back into one chunk of the same type and the same payload; the
    bytes already in the buffer stay as they were. *)
Theorem chunk_round_trip (buffer : list Z) (type : string) (d : list Z) :
  length (PNG.bytes_of_string type) = 4%nat ->
  Z.of_nat (length d) < 2 ^ 32 ->
  exists bytes,
    PNG.write_PNG_Chunk buffer type (Some d) (Z.of_nat (length d))
    = Done (buffer ++ bytes) /\
    exists crc,
      PNGReference.read_chunks 1 bytes
      = Some [ {| PNGReference.chunk_type := PNG.bytes_of_string type;
                  PNGReference.chunk_data := d;
                  PNGReference.chunk_crc := crc |} ].
Proof. apply ChainFacts.write_then_read_chunk. Qed.

Lemma chunk_round_trip_witness :
  exists bytes,
    PNG.write_PNG_Chunk [1; 2] "IDAT" (Some [7; 8; 9]) 3
    = Done ([1; 2] ++ bytes) /\
    exists crc,
      PNGReference.read_chunks 1 bytes
      = Some [ {| PNGReference.chunk_type := [73; 68; 65; 84];
                  PNGReference.chunk_data := [7; 8; 9];
                  PNGReference.chunk_crc := crc |} ].
Proof.
  apply (chunk_round_trip [1; 2] "IDAT" [7; 8; 9]).
  - reflexivity.
  - vm_compute. reflexivity.
Defined.

(** X14.  [crc32_png] can be fed in pieces: over two non-empty buffers the
    second call continued from the first gives the CRC of their
    concatenation.  An empty piece breaks this: with length 0 the function
    returns the complement of the running value, never the value itself. *)
Theorem crc_fed_in_pieces (d1 d2 : list Z) (crc : Z) :
  (d1 <> [] -> d2 <> [] ->
   PNG.crc32_png d2 (Z.of_nat (length d2))
                 (PNG.crc32_png d1 (Z.of_nat (length d1)) crc)
   = PNG.crc32_png (d1 ++ d2) (Z.of_nat (length (d1 ++ d2))) crc) /\
  PNG.crc32_png d2 0 crc <> crc.
Proof.
  split.
  - apply ChainFacts.crc32_png_chain.
  - rewrite CRCFacts.crc32_png_no_bytes. apply ChainFacts.not32_moves.
Qed.

Lemma crc_fed_in_pieces_witness :
  PNG.crc32_png [68; 65; 84] 3 (PNG.crc32_png [73] 1 0)
  = PNG.crc32_png [73; 68; 65; 84] 4 0.
Proof.
  apply (proj1 (crc_fed_in_pieces [73] [68; 65; 84] 0)); discriminate.
Defined.

(** X15.  Writing a C string into a [ShortString] and reading it back gives
    its first 255 characters; the stored object keeps its shape (a length of
    at most 255 and 255 data bytes), a string shorter than 255 is followed
    by a NUL, and a null pointer is stored as the empty string. *)
Theorem short_string_round_trip (dst : DUCI.ShortString) (src : string) :
  DUCI.well_formed dst ->
  (forall c, In c (list_ascii_of_string src) -> c <> zero) ->
  let kept := take 255 (list_ascii_of_string src) in
  let ss := DUCI.WriteShortString dst (Some src) in
  DUCI.ShortStringToString ss = string_of_list_ascii kept /\
  DUCI.well_formed ss /\
  ((length kept < 255)%nat -> DUCI.data ss !! length kept = Some zero) /\
  DUCI.ShortStringToString (DUCI.WriteShortString dst None) = EmptyString.
Proof.
  intros Hwf Hnul kept ss. subst kept ss.
  pose proof (DUCIFacts.c_str_no_nul src Hnul) as Hc.
  pose proof (DUCIFacts.ShortStringToString_write dst src Hwf) as Hread.
  pose proof (DUCIFacts.WriteShortString_terminator dst src Hwf) as Hterm.
  rewrite Hc in Hread, Hterm.
  split; [exact Hread|].
  split; [apply DUCIFacts.WriteShortString_well_formed; exact Hwf|].
  split; [exact Hterm | reflexivity].
Qed.

Lemma short_string_round_trip_witness :
  DUCI.ShortStringToString
    (DUCI.WriteShortString DUCI.zero_string (Some "TGA8"%string))
  = "TGA8"%string.
Proof.
  apply (short_string_round_trip DUCI.zero_string "TGA8").
  - split; [vm_compute; split; discriminate | reflexivity].
  - intros c Hc. cbn [list_ascii_of_string In] in Hc.
    destruct Hc as [<- | [<- | [<- | [<- | []]]]]; discriminate.
Defined.

(** X16.  [ShortStringToCStr] into a buffer of [destSize] bytes stores as
    many characters of the string as fit before a terminator, that is
    [min (len, destSize - 1)], then a NUL, and leaves the rest of the buffer
    as it was; with [destSize = 0] it stores nothing, and for a null pointer
    it stores the empty string. *)
Theorem short_string_to_cstr (src : DUCI.ShortString) (dest : list ascii)
    (destSize : Z) :
  DUCI.well_formed src ->
  Z.of_nat (length dest) = destSize ->
  0 < destSize <= INT_MAX ->
  let n := Z.to_nat (Z.min (DUCI.len src) (destSize - 1)) in
  DUCI.ShortStringToCStr (Some src) dest destSize
  = Done (take n (DUCI.data src) ++ zero :: drop (S n) dest) /\
  DUCI.ShortStringToCStr (Some src) dest 0 = Done dest /\
  DUCI.ShortStringToCStr None dest destSize
  = Done (zero :: drop 1 dest).
Proof.
  intros Hwf Hdest Hsize n. split; [|split].
  - apply StreamEntryFacts.ShortStringToCStr_spec; assumption.
  - reflexivity.
  - destruct dest as [|d rest]; [cbn [length] in Hdest; lia|].
    apply (proj2 (StreamEntryFacts.ShortStringToCStr_edges None (d :: rest))
             destSize d rest); [lia | reflexivity].
Qed.

Lemma short_string_to_cstr_witness :
  let src := DUCI.WriteShortString DUCI.zero_string (Some "bitmap"%string) in
  let dest := ["x"; "x"; "x"; "x"]%char in
  DUCI.ShortStringToCStr (Some src) dest 4
  = Done (take 3 (DUCI.data src) ++ zero :: drop 4 dest).
Proof.
  intros src dest.
  apply (short_string_to_cstr src dest 4).
  - split; [vm_compute; split; discriminate | reflexivity].
  - reflexivity.
  - vm_compute. split; [reflexivity | discriminate].
Defined.

(** X17.  [IsFileCompatible] answers TRUE exactly for the names whose last
    dot starts the extension [.pid] in any mix of upper and lower case (the
    name ending there or at a NUL that follows); it answers FALSE for an
    empty name, a null pointer and a name without a dot, and it does not
    look at the archive format. *)
Theorem file_compatibility (nam_ss fmt_ss : option DUCI.ShortString) :
  DUCI.IsFileCompatible nam_ss fmt_ss = true
  <-> exists stem ext,
        DUCI.ShortStringPtrToString nam_ss = (stem ++ ext)%string
        /\ pid_extension ext.
Proof. apply CompatFacts.IsFileCompatible_spec. Qed.

(** X18.  [GetFileConvert] offers three formats exactly for the names
    [IsFileCompatible] accepts and none otherwise; the formats offered have
    the extensions bmp, tga and png, and handing the identifier of any of
    them to [ConvertStream] is the call of [ConvertPID] with the token BMP,
    TGA8 or PNG. *)
Theorem offered_formats_handled (mode : PNGMode) (zlib : PNG.Zlib)
    (src dst : TStream) (nam_ss fmt_ss : option DUCI.ShortString) :
  let result := DUCI.GetFileConvert mode nam_ss fmt_ss in
  DUCI.NumFormats result
  = (if DUCI.IsFileCompatible nam_ss fmt_ss then 3 else 0) /\
  (DUCI.IsFileCompatible nam_ss fmt_ss = true ->
   exists e0 e1 e2,
     take 3 (DUCI.List result) = [e0; e1; e2] /\
     DUCI.ShortStringToString (DUCI.Ext e0) = "bmp"%string /\
     DUCI.ShortStringToString (DUCI.Ext e1) = "tga"%string /\
     DUCI.ShortStringToString (DUCI.Ext e2) = "png"%string /\
     DUCI.ConvertStream mode zlib src dst nam_ss fmt_ss (Some (DUCI.ID e0))
     = Convert.ConvertPID mode zlib src dst "BMP" /\
     DUCI.ConvertStream mode zlib src dst nam_ss fmt_ss (Some (DUCI.ID e1))
     = Convert.ConvertPID mode zlib src dst "TGA8" /\
     DUCI.ConvertStream mode zlib src dst nam_ss fmt_ss (Some (DUCI.ID e2))
     = Convert.ConvertPID mode zlib src dst "PNG").
Proof.
  intros result. split; [apply CompatFacts.GetFileConvert_count|].
  intros Hc. subst result.
  rewrite (StreamEntryFacts.GetFileConvert_compatible mode _ _ Hc).
  pose proof (StreamEntryFacts.compatible_nonempty _ _ Hc) as Hnam.
  destruct (StreamEntryFacts.formats_entries mode)
    as (e0 & e1 & e2 & Htake & H0 & H1 & H2 & X0 & X1 & X2).
  exists e0, e1, e2.
  repeat split; try assumption;
    apply StreamEntryFacts.ConvertStream_token;
    solve [assumption | reflexivity].
Qed.

Lemma offered_formats_handled_witness :
  let nam := Some (DUCI.WriteShortString DUCI.zero_string
                     (Some "LEVEL1.PID"%string)) in
  exists e0 e1 e2,
    take 3 (DUCI.List (DUCI.GetFileConvert PNG_8 nam None)) = [e0; e1; e2] /\
    DUCI.ConvertStream PNG_8 stored_zlib (memory_stream []) (memory_stream [])
      nam None (Some (DUCI.ID e1))
    = Convert.ConvertPID PNG_8 stored_zlib (memory_stream [])
        (memory_stream []) "TGA8".
Proof.
  intros nam.
  destruct (proj2 (offered_formats_handled PNG_8 stored_zlib
                     (memory_stream []) (memory_stream []) nam None))
    as (e0 & e1 & e2 & Htake & _ & _ & _ & _ & H1 & _).
  - vm_compute. reflexivity.
  - exists e0, e1, e2. split; assumption.
Defined.

(** X19.  [ConvertStream] returns 1 without touching either stream when the
    name or the format identifier is empty or a null pointer; and with an
    identifier whose C string is not BMP, TGA8, TGA or PNG it never reports
    success and never touches the destination. *)
Theorem convert_stream_rejects (mode : PNGMode) (zlib : PNG.Zlib)
    (src dst : TStream) (nam_ss fmt_ss cnv_ss : option DUCI.ShortString) :
  (DUCI.ShortStringPtrToString nam_ss = EmptyString
   \/ DUCI.ShortStringPtrToString cnv_ss = EmptyString ->
   DUCI.ConvertStream mode zlib src dst nam_ss fmt_ss cnv_ss = (Done 1, dst))
  /\
  (let cnv := DUCI.c_str (DUCI.ShortStringPtrToString cnv_ss) in
   cnv <> "BMP"%string -> cnv <> "TGA8"%string -> cnv <> "TGA"%string ->
   cnv <> "PNG"%string ->
   DUCI.ConvertStream mode zlib src dst nam_ss fmt_ss cnv_ss = (Done 1, dst)
   \/ DUCI.ConvertStream mode zlib src dst nam_ss fmt_ss cnv_ss = (UB, dst)).
Proof.
  split.
  - apply StreamEntryFacts.ConvertStream_empty.
  - apply StreamEntryFacts.ConvertStream_unknown.
Qed.

Lemma convert_stream_rejects_witness :
  DUCI.ConvertStream PNG_8 stored_zlib (memory_stream [1; 2; 3])
    (memory_stream [4]) None None
    (Some (DUCI.WriteShortString DUCI.zero_string (Some "BMP"%string)))
  = (Done 1, memory_stream [4]).
Proof.
  apply (proj1 (convert_stream_rejects PNG_8 stored_zlib
                  (memory_stream [1; 2; 3]) (memory_stream [4]) None None
                  (Some (DUCI.WriteShortString DUCI.zero_string
                           (Some "BMP"%string))))).
  left. reflexivity.
Defined.
